(** * The inference server's job pipeline (server/main.py), embedded in Rocq

    The development follows the layout of the source file:
    - [Float64], [Sha256], [Json]: the parts of the Python runtime the
      helpers rely on and whose behaviour the properties below depend on
      (binary64 arithmetic, [hashlib.sha256], [json.dumps]);
    - [compute_file_hash], [compute_data_hash]: the content hasher;
    - [generate_dummy_prediction]: the deterministic placeholder model;
    - [run_inference]: the job runner, as a program in a state-and-exception
      monad over the process state (job registry, object heap, files);
    - [start_inference], [get_job_status], [get_job_results]: the endpoints;
    - [load_label_map], [health_check], [get_behaviors], [upload_video],
      [upload_skeleton]: start-up and the remaining endpoints.

    A Python [str] is a list of code points, [bytes] a list of [byte]s, an
    [int] a [Z].  A Python [dict] whose key set is open (parsed JSON) is an
    association list in insertion order; the job registry is a [gmap]. *)

From Stdlib Require Import ZArith Lia List String Ascii.
From Stdlib Require Import Strings.Byte.
From Stdlib Require Import Floats.SpecFloat.
From stdpp Require Import base tactics option list gmap sorting.
From Equations Require Import Equations.

Set Warnings "-register-all".

Local Open Scope Z_scope.

(** ** Python strings *)

(** A [str] is a sequence of Unicode code points. *)
Abbreviation str := (list N).

(** Source literals are written as Rocq strings; [lit] decodes their UTF-8
    bytes into code points. *)
Definition cont (c : ascii) : N := N.land (N_of_ascii c) 63.

Fixpoint utf8_decode (s : string) : str :=
  match s with
  | EmptyString => []
  | String c0 s1 =>
      let b0 := N_of_ascii c0 in
      if (b0 <? 192)%N then b0 :: utf8_decode s1
      else match s1 with
      | EmptyString => [b0]
      | String c1 s2 =>
          if (b0 <? 224)%N then
            (N.land b0 31 * 64 + cont c1)%N :: utf8_decode s2
          else match s2 with
          | EmptyString => [b0]
          | String c2 s3 =>
              if (b0 <? 240)%N then
                (N.land b0 15 * 4096 + cont c1 * 64 + cont c2)%N
                  :: utf8_decode s3
              else match s3 with
              | EmptyString => [b0]
              | String c3 s4 =>
                  (N.land b0 7 * 262144 + cont c1 * 4096
                   + cont c2 * 64 + cont c3)%N :: utf8_decode s4
              end
          end
      end
  end.

Definition lit (s : string) : str := utf8_decode s.
Arguments lit : simpl never.

Example lit_ascii : lit "ok" = [111; 107]%N.
Proof. reflexivity. Qed.

Example lit_accent : lit "é" = [233]%N.
Proof. reflexivity. Qed.

(** [str(n)] for an [int]. *)
Fixpoint digits_fuel (fuel : nat) (n : N) (acc : str) : str :=
  match fuel with
  | O => acc
  | S fuel' =>
      let acc' := (48 + n mod 10)%N :: acc in
      if (n <? 10)%N then acc' else digits_fuel fuel' (n / 10)%N acc'
  end.

Definition str_of_N (n : N) : str := digits_fuel (S (N.to_nat (N.log2 n))) n [].

Definition str_of_int (z : Z) : str :=
  if z <? 0 then 45%N :: str_of_N (Z.to_N (- z)) else str_of_N (Z.to_N z).

Example str_of_int_ex : str_of_int 2026 = lit "2026" ∧ str_of_int (-15) = lit "-15"
  ∧ str_of_int 0 = lit "0".
Proof. repeat split. Qed.

(** ** Binary64 arithmetic

    Every finite binary64 value is an integer multiple of [2^-1074], the
    smallest subnormal.  A [float] stores that multiple, so comparison of
    floats is comparison of integers and the arithmetic below is exact
    integer arithmetic followed by one rounding to nearest, ties to even.
    Infinities, NaN and the sign of zero are not represented: the program
    only forms values of magnitude below 2. *)
Module Float64.

Record float := Float { units : Z }.

Definition scale : Z := 2 ^ 1074.

(** [p / q] rounded to the nearest integer, ties to even ([q > 0]). *)
Definition rhe (p q : Z) : Z :=
  let d := p / q in
  match 2 * (p mod q) ?= q with
  | Lt => d
  | Gt => d + 1
  | Eq => if Z.even d then d else d + 1
  end.

(** The spacing exponent of the binade that holds [p / q >= 0]: values
    below [2^53] units are spaced one unit apart (subnormals and the first
    normal binades), then the spacing doubles with each binade. *)
Definition binade (p q : Z) : Z := Z.max 0 (Z.log2 (p / q) - 52).

(** [p / q] units, rounded to a representable value, for [p >= 0]. *)
Definition round_pos (p q : Z) : Z :=
  let k := binade p q in rhe p (q * 2 ^ k) * 2 ^ k.

Definition round_units (p q : Z) : Z :=
  if p <? 0 then - round_pos (- p) q else round_pos p q.

Definition fadd (x y : float) : float := Float (round_units (units x + units y) 1).
Definition fsub (x y : float) : float := Float (round_units (units x - units y) 1).
Definition fmul (x y : float) : float := Float (round_units (units x * units y) scale).

(** The decimal literal [p / q] of the source text, e.g. [0.65] is [dec 65 100]. *)
Definition dec (p q : Z) : float := Float (round_units (p * scale) q).

Definition of_int (n : Z) : float := Float (round_units (n * scale) 1).

Definition flt (x y : float) : bool := units x <? units y.
Definition fle (x y : float) : bool := units x <=? units y.

(** [round(x, ndigits)]: the decimal with [ndigits] fractional digits
    nearest to the exact value of [x] (ties to even), converted back to the
    nearest float. *)
Definition round_ndigits (x : float) (ndigits : Z) : float :=
  let pow10 := 10 ^ ndigits in
  Float (round_units (rhe (units x * pow10) scale * scale) pow10).

(** The value of a [spec_float] of the standard library, in units. *)
Definition units_of_SF (f : spec_float) : option Z :=
  match f with
  | S754_zero _ => Some 0
  | S754_finite s m e =>
      let v := if 0 <=? e + 1074 then Z.pos m * 2 ^ (e + 1074) else 0 in
      Some (if s then - v else v)
  | _ => None
  end.

(** *** Rounding is monotone *)

Lemma rhe_range p q : 0 < q → p / q ≤ rhe p q ≤ p / q + 1.
Proof.
  intros Hq. unfold rhe.
  destruct (2 * (p mod q) ?= q); [destruct (Z.even (p / q))|..]; lia.
Qed.

Lemma rhe_lower p q n : 0 < q → n * q ≤ p → n ≤ rhe p q.
Proof.
  intros Hq Hn. pose proof (rhe_range p q Hq).
  assert (n ≤ p / q) by (apply Z.div_le_lower_bound; lia). lia.
Qed.

Lemma rhe_upper p q n : 0 < q → p ≤ n * q → rhe p q ≤ n.
Proof.
  intros Hq Hn. pose proof (rhe_range p q Hq).
  destruct (Z.eq_dec p (n * q)) as [->|Hne].
  - unfold rhe. rewrite Z.mod_mul, Z.div_mul by lia.
    change (2 * 0) with 0. destruct (Z.compare_spec 0 q); lia.
  - assert (p / q < n) by (apply Z.div_lt_upper_bound; lia). lia.
Qed.

Lemma rhe_mono p1 p2 q : 0 < q → p1 ≤ p2 → rhe p1 q ≤ rhe p2 q.
Proof.
  intros Hq Hp.
  pose proof (rhe_range p1 q Hq). pose proof (rhe_range p2 q Hq).
  pose proof (Z.div_le_mono p1 p2 q Hq Hp) as Hd.
  destruct (Z.eq_dec (p1 / q) (p2 / q)) as [Heq|Hne]; [|lia].
  pose proof (Z.div_mod p1 q ltac:(lia)). pose proof (Z.div_mod p2 q ltac:(lia)).
  assert (p1 mod q ≤ p2 mod q) by (rewrite Heq in *; lia).
  unfold rhe. rewrite Heq.
  destruct (Z.compare_spec (2 * (p1 mod q)) q), (Z.compare_spec (2 * (p2 mod q)) q);
    destruct (Z.even (p2 / q)); lia.
Qed.

Lemma binade_nonneg p q : 0 ≤ binade p q.
Proof. unfold binade. lia. Qed.

Lemma binade_mono p1 p2 q : 0 < q → 0 ≤ p1 ≤ p2 → binade p1 q ≤ binade p2 q.
Proof.
  intros Hq Hp. unfold binade.
  assert (Z.log2 (p1 / q) ≤ Z.log2 (p2 / q)); [|lia].
  apply Z.log2_le_mono, Z.div_le_mono; lia.
Qed.

(** A rounded value stays inside the closure of its binade. *)
Lemma round_pos_upper p q :
  0 < q → 0 ≤ p → round_pos p q ≤ 2 ^ (53 + binade p q).
Proof.
  intros Hq Hp. unfold round_pos.
  pose proof (binade_nonneg p q) as Hk.
  rewrite Z.pow_add_r by lia.
  apply Z.mul_le_mono_nonneg_r; [apply Z.pow_nonneg; lia|].
  apply rhe_upper; [apply Z.mul_pos_pos; [lia|apply Z.pow_pos_nonneg; lia]|].
  assert (Hlt : p / q < 2 ^ (53 + binade p q)).
  { assert (0 ≤ p / q) by (apply Z.div_pos; lia).
    destruct (Z.eq_dec (p / q) 0) as [E|Hne].
    - rewrite E. apply Z.pow_pos_nonneg; lia.
    - apply Z.log2_lt_pow2; [lia|]. unfold binade. lia. }
  rewrite Z.pow_add_r in Hlt by lia.
  assert (p < 2 ^ 53 * 2 ^ binade p q * q); [|lia].
  pose proof (Z.div_mod p q ltac:(lia)). pose proof (Z.mod_pos_bound p q Hq). nia.
Qed.

Lemma round_pos_lower p q :
  0 < q → 0 ≤ p → 0 < binade p q → 2 ^ (52 + binade p q) ≤ round_pos p q.
Proof.
  intros Hq Hp Hk. unfold round_pos.
  rewrite Z.pow_add_r by lia.
  apply Z.mul_le_mono_nonneg_r; [apply Z.pow_nonneg; lia|].
  apply rhe_lower; [apply Z.mul_pos_pos; [lia|apply Z.pow_pos_nonneg; lia]|].
  assert (Hge : 2 ^ (52 + binade p q) ≤ p / q).
  { unfold binade in *.
    assert (0 ≤ p / q) by (apply Z.div_pos; lia).
    assert (0 < p / q).
    { destruct (Z.eq_dec (p / q) 0) as [E|E]; [|lia].
      rewrite E in Hk. simpl in Hk. lia. }
    replace (52 + Z.max 0 (Z.log2 (p / q) - 52)) with (Z.log2 (p / q)) by lia.
    apply Z.log2_spec; lia. }
  rewrite Z.pow_add_r in Hge by lia.
  pose proof (Z.div_mod p q ltac:(lia)). pose proof (Z.mod_pos_bound p q Hq). nia.
Qed.

Lemma round_pos_nonneg p q : 0 < q → 0 ≤ p → 0 ≤ round_pos p q.
Proof.
  intros Hq Hp. unfold round_pos. pose proof (binade_nonneg p q).
  apply Z.mul_nonneg_nonneg; [|apply Z.pow_nonneg; lia].
  apply rhe_lower; [apply Z.mul_pos_pos; [lia|apply Z.pow_pos_nonneg; lia]|lia].
Qed.

Lemma round_pos_mono p1 p2 q :
  0 < q → 0 ≤ p1 ≤ p2 → round_pos p1 q ≤ round_pos p2 q.
Proof.
  intros Hq Hp.
  pose proof (binade_mono p1 p2 q Hq Hp) as Hk.
  pose proof (binade_nonneg p1 q) as Hk1.
  destruct (Z.eq_dec (binade p1 q) (binade p2 q)) as [Heq|Hne].
  - unfold round_pos. rewrite Heq.
    apply Z.mul_le_mono_nonneg_r; [apply Z.pow_nonneg; lia|].
    apply rhe_mono; [apply Z.mul_pos_pos; [lia|apply Z.pow_pos_nonneg; lia]|lia].
  - etrans; [apply round_pos_upper; lia|].
    etrans; [|apply round_pos_lower; lia].
    apply Z.pow_le_mono_r; lia.
Qed.

Lemma round_units_mono p1 p2 q :
  0 < q → p1 ≤ p2 → round_units p1 q ≤ round_units p2 q.
Proof.
  intros Hq Hp. unfold round_units.
  destruct (Z.ltb_spec p1 0), (Z.ltb_spec p2 0); try lia.
  - assert (round_pos (- p2) q ≤ round_pos (- p1) q); [|lia].
    apply round_pos_mono; lia.
  - pose proof (round_pos_nonneg (- p1) q). pose proof (round_pos_nonneg p2 q). lia.
  - apply round_pos_mono; lia.
Qed.

Lemma scale_pos : 0 < scale.
Proof. unfold scale. apply Z.pow_pos_nonneg; lia. Qed.

Lemma fadd_mono x1 x2 y1 y2 :
  units x1 ≤ units x2 → units y1 ≤ units y2 →
  units (fadd x1 y1) ≤ units (fadd x2 y2).
Proof. intros. apply round_units_mono; lia. Qed.

Lemma fmul_mono_r x y1 y2 :
  0 ≤ units x → units y1 ≤ units y2 →
  units (fmul x y1) ≤ units (fmul x y2).
Proof. intros. apply round_units_mono; [apply scale_pos|nia]. Qed.

Lemma fmul_mono x1 x2 y1 y2 :
  0 ≤ units x1 ≤ units x2 → 0 ≤ units y1 ≤ units y2 →
  units (fmul x1 y1) ≤ units (fmul x2 y2).
Proof. intros. apply round_units_mono; [apply scale_pos|nia]. Qed.

Lemma of_int_mono n1 n2 : n1 ≤ n2 → units (of_int n1) ≤ units (of_int n2).
Proof. intros. apply round_units_mono; [lia|]. pose proof scale_pos. nia. Qed.

Lemma round_ndigits_mono x1 x2 n :
  0 ≤ n → units x1 ≤ units x2 →
  units (round_ndigits x1 n) ≤ units (round_ndigits x2 n).
Proof.
  intros Hn Hx. unfold round_ndigits; simpl.
  assert (0 < 10 ^ n) by (apply Z.pow_pos_nonneg; lia).
  pose proof scale_pos.
  apply round_units_mono; [done|].
  apply Z.mul_le_mono_nonneg_r; [lia|].
  apply rhe_mono; [done|nia].
Qed.

(** *** Agreement with the standard library's IEEE 754 reference
    ([SpecFloat], precision 53, maximal exponent 1024) on the constants
    the program computes with. *)

Definition SF_0_65 : spec_float := S754_finite false 5854679515581645 (-53).
Definition SF_0_95 : spec_float := S754_finite false 8556839292003942 (-53).
Definition SF_0_2 : spec_float := S754_finite false 7205759403792794 (-55).
Definition SF_0_35 : spec_float := S754_finite false 6305039478318694 (-54).
Definition SF_0_45 : spec_float := S754_finite false 8106479329266893 (-54).

Example literals_agree :
  units_of_SF SF_0_65 = Some (units (dec 65 100)) ∧
  units_of_SF SF_0_95 = Some (units (dec 95 100)) ∧
  units_of_SF SF_0_2 = Some (units (dec 2 10)) ∧
  units_of_SF SF_0_35 = Some (units (dec 35 100)) ∧
  units_of_SF SF_0_45 = Some (units (dec 45 100)).
Proof. vm_compute. repeat split. Qed.

Example arithmetic_agrees :
  units_of_SF (SFsub 53 1024 SF_0_95 SF_0_65)
    = Some (units (fsub (dec 95 100) (dec 65 100))) ∧
  units_of_SF (SFadd 53 1024 SF_0_2 SF_0_35)
    = Some (units (fadd (dec 2 10) (dec 35 100))) ∧
  units_of_SF (SFadd 53 1024 (SFadd 53 1024 SF_0_2 SF_0_35) SF_0_45)
    = Some (units (fadd (fadd (dec 2 10) (dec 35 100)) (dec 45 100))) ∧
  units_of_SF (SFmul 53 1024 SF_0_95 SF_0_35)
    = Some (units (fmul (dec 95 100) (dec 35 100))) ∧
  units_of_SF (SFmul 53 1024 (SFsub 53 1024 SF_0_95 SF_0_65) SF_0_2)
    = Some (units (fmul (fsub (dec 95 100) (dec 65 100)) (dec 2 10))).
Proof. vm_compute. repeat split. Qed.

Example round_ndigits_ex :
  round_ndigits (dec 7312345 10000000) 4 = dec 7312 10000 ∧
  round_ndigits (dec 94999876 100000000) 4 = dec 95 100.
Proof. vm_compute. repeat split. Qed.

End Float64.

Export Float64.

Arguments dec : simpl never.
Arguments of_int : simpl never.
Arguments fadd : simpl never.
Arguments fsub : simpl never.
Arguments fmul : simpl never.
Arguments round_ndigits : simpl never.


(** ** [hashlib.sha256]

    SHA-256 over byte strings (FIPS 180-4), on 32-bit words held in [Z]. *)
Module Sha256.

Definition w32 (x : Z) : Z := x mod 2 ^ 32.
Definition add32 (x y : Z) : Z := w32 (x + y).
Definition rotr (n x : Z) : Z := Z.lor (Z.shiftr x n) (w32 (Z.shiftl x (32 - n))).

Definition Ch (x y z : Z) : Z := Z.lxor (Z.land x y) (Z.land (w32 (Z.lnot x)) z).
Definition Maj (x y z : Z) : Z :=
  Z.lxor (Z.lxor (Z.land x y) (Z.land x z)) (Z.land y z).
Definition Sigma0 (x : Z) : Z := Z.lxor (Z.lxor (rotr 2 x) (rotr 13 x)) (rotr 22 x).
Definition Sigma1 (x : Z) : Z := Z.lxor (Z.lxor (rotr 6 x) (rotr 11 x)) (rotr 25 x).
Definition sigma0 (x : Z) : Z := Z.lxor (Z.lxor (rotr 7 x) (rotr 18 x)) (Z.shiftr x 3).
Definition sigma1 (x : Z) : Z := Z.lxor (Z.lxor (rotr 17 x) (rotr 19 x)) (Z.shiftr x 10).

Definition K : list Z :=
  [
    1116352408; 1899447441; 3049323471; 3921009573; 961987163; 1508970993;
    2453635748; 2870763221; 3624381080; 310598401; 607225278; 1426881987;
    1925078388; 2162078206; 2614888103; 3248222580; 3835390401; 4022224774;
    264347078; 604807628; 770255983; 1249150122; 1555081692; 1996064986;
    2554220882; 2821834349; 2952996808; 3210313671; 3336571891; 3584528711;
    113926993; 338241895; 666307205; 773529912; 1294757372; 1396182291;
    1695183700; 1986661051; 2177026350; 2456956037; 2730485921; 2820302411;
    3259730800; 3345764771; 3516065817; 3600352804; 4094571909; 275423344;
    430227734; 506948616; 659060556; 883997877; 958139571; 1322822218;
    1537002063; 1747873779; 1955562222; 2024104815; 2227730452; 2361852424;
    2428436474; 2756734187; 3204031479; 3329325298
  ].

Record state := State { ha : Z; hb : Z; hc : Z; hd : Z; he : Z; hf : Z; hg : Z; hh : Z }.

Definition H0 : state :=
  State 1779033703 3144134277 1013904242 2773480762
        1359893119 2600822924 528734635 1541459225.

Definition byte_val (b : byte) : Z := Z.of_N (Byte.to_N b).
Definition byte_of (z : Z) : byte :=
  match Byte.of_N (Z.to_N (z mod 256)) with Some b => b | None => x00 end.

(** Message padding: a [0x80] byte, zeros up to 56 modulo 64, then the
    bit length as a 64-bit big-endian integer. *)
Definition be_bytes (n : nat) (x : Z) : list byte :=
  map (λ i, byte_of (Z.shiftr x (8 * Z.of_nat i))) (rev (seq 0 n)).

Definition pad (msg : list byte) : list byte :=
  let len := Z.of_nat (length msg) in
  let zeros := Z.to_nat ((55 - len) mod 64) in
  msg ++ [x80] ++ repeat x00 zeros ++ be_bytes 8 (8 * len).

Fixpoint be_words (n : nat) (bs : list byte) : list Z :=
  match n, bs with
  | S n', b0 :: b1 :: b2 :: b3 :: bs' =>
      (byte_val b0 * 16777216 + byte_val b1 * 65536 + byte_val b2 * 256 + byte_val b3)
        :: be_words n' bs'
  | _, _ => []
  end.

(** One round: [w] is the window W[t..t+15] of the message schedule. *)
Definition round (sw : state * list Z) (k : Z) : state * list Z :=
  let '(s, w) := sw in
  let wt := nth 0 w 0 in
  let t1 := add32 (add32 (add32 (add32 (hh s) (Sigma1 (he s))) (Ch (he s) (hf s) (hg s))) k) wt in
  let t2 := add32 (Sigma0 (ha s)) (Maj (ha s) (hb s) (hc s)) in
  let wnew := add32 (add32 (add32 (sigma1 (nth 14 w 0)) (nth 9 w 0)) (sigma0 (nth 1 w 0))) wt in
  (State (add32 t1 t2) (ha s) (hb s) (hc s) (add32 (hd s) t1) (he s) (hf s) (hg s),
   tl w ++ [wnew]).

Definition compress (h : state) (block : list byte) : state :=
  let s := fst (fold_left round K (h, be_words 16 block)) in
  State (add32 (ha h) (ha s)) (add32 (hb h) (hb s)) (add32 (hc h) (hc s))
        (add32 (hd h) (hd s)) (add32 (he h) (he s)) (add32 (hf h) (hf s))
        (add32 (hg h) (hg s)) (add32 (hh h) (hh s)).

Fixpoint blocks (n : nat) (h : state) (bs : list byte) : state :=
  match n with
  | O => h
  | S n' => blocks n' (compress h (firstn 64 bs)) (skipn 64 bs)
  end.

Definition digest_state (msg : list byte) : state :=
  let p := pad msg in blocks (length p / 64)%nat H0 p.

Definition hex_digit (d : Z) : N :=
  if d <? 10 then Z.to_N (48 + d) else Z.to_N (87 + d).

Definition hex8 (x : Z) : str :=
  map (λ i, hex_digit (Z.shiftr x (4 * Z.of_nat i) mod 16)) (rev (seq 0 8)).

(** [hashlib.sha256(msg).hexdigest()] *)
Definition hexdigest (msg : list byte) : str :=
  let s := digest_state msg in
  hex8 (ha s) ++ hex8 (hb s) ++ hex8 (hc s) ++ hex8 (hd s) ++
  hex8 (he s) ++ hex8 (hf s) ++ hex8 (hg s) ++ hex8 (hh s).

Definition is_hex (c : N) : Prop := (48 ≤ c ≤ 57 ∨ 97 ≤ c ≤ 102)%N.

Lemma hex_digit_is_hex d : 0 ≤ d < 16 → is_hex (hex_digit d).
Proof.
  intros Hd. unfold is_hex, hex_digit. destruct (Z.ltb_spec d 10); lia.
Qed.

Lemma hex8_length x : length (hex8 x) = 8%nat.
Proof. reflexivity. Qed.

Lemma hex8_is_hex x : Forall is_hex (hex8 x).
Proof.
  unfold hex8. apply Forall_map, Forall_forall. intros i _.
  apply hex_digit_is_hex, Z.mod_pos_bound. lia.
Qed.

Lemma hexdigest_length msg : length (hexdigest msg) = 64%nat.
Proof. unfold hexdigest. rewrite !length_app, !hex8_length. reflexivity. Qed.

Lemma hexdigest_is_hex msg : Forall is_hex (hexdigest msg).
Proof. unfold hexdigest. rewrite !Forall_app. auto 10 using hex8_is_hex. Qed.

(** [str.encode()] restricted to ASCII text, for the test vectors. *)
Definition ascii_bytes (s : string) : list byte := list_byte_of_string s.

Example sha256_empty :
  hexdigest [] = lit "e3b0c44298fc1c149afbf4c8996fb92427ae41e4649b934ca495991b7852b855".
Proof. vm_compute. reflexivity. Qed.

Example sha256_abc :
  hexdigest (ascii_bytes "abc")
  = lit "ba7816bf8f01cfea414140de5dae2223b00361a396177a9cb410ff61f20015ad".
Proof. vm_compute. reflexivity. Qed.

(** A message of four blocks after padding. *)
Example sha256_200a :
  hexdigest (repeat "a"%byte 200)
  = lit "c2a908d98f5df987ade41b5fce213067efbcc21ef2240212a41e54b5e7c28ae5".
Proof. vm_compute. reflexivity. Qed.

End Sha256.

(** ** Exceptions

    An exception of the interpreter or its libraries is its class name and
    its text; [fastapi.HTTPException] carries a status code and a detail. *)
Inductive exn :=
| Exn (class : string) (text : str)
| HTTPException (status_code : Z) (detail : str).

(** [str(e)] *)
Definition exn_str (e : exn) : str :=
  match e with
  | Exn _ text => text
  | HTTPException status_code detail =>
      str_of_int status_code ++ lit ": " ++ detail
  end.

Inductive res (A : Type) : Type :=
| Ret (a : A)
| Raise (e : exn).
Arguments Ret {A} a.
Arguments Raise {A} e.

(** The floats a parsed JSON document can hold. *)
Inductive pyfloat :=
| Fin (x : float)
| NegZero
| Inf (negative : bool)
| NaN.

(** ** [json]: documents and [json.dumps(data, sort_keys=True)] *)

(** A [dict] keeps its items in insertion order and its keys are unique;
    the keys of a parsed document are strings. *)
Inductive json :=
| JNull
| JBool (b : bool)
| JInt (n : Z)
| JFloat (x : pyfloat)
| JStr (s : str)
| JArr (l : list json)
| JObj (l : list (str * json)).

Section json_induction.
Variable P : json → Prop.
Hypothesis Hnull : P JNull.
Hypothesis Hbool : ∀ b, P (JBool b).
Hypothesis Hint : ∀ n, P (JInt n).
Hypothesis Hfloat : ∀ x, P (JFloat x).
Hypothesis Hstr : ∀ s, P (JStr s).
Hypothesis Harr : ∀ l, Forall P l → P (JArr l).
Hypothesis Hobj : ∀ l, Forall (λ kv, P kv.2) l → P (JObj l).

Fixpoint json_nested_ind (v : json) : P v :=
  match v with
  | JNull => Hnull
  | JBool b => Hbool b
  | JInt n => Hint n
  | JFloat x => Hfloat x
  | JStr s => Hstr s
  | JArr l =>
      Harr l ((fix go (l : list json) : Forall P l :=
                 match l with
                 | [] => Forall_nil_2 P
                 | v :: l' => Forall_cons_2 P v l' (json_nested_ind v) (go l')
                 end) l)
  | JObj l =>
      Hobj l ((fix go (l : list (str * json)) : Forall (λ kv, P kv.2) l :=
                 match l with
                 | [] => Forall_nil_2 _
                 | kv :: l' =>
                     Forall_cons_2 (λ kv, P kv.2) kv l' (json_nested_ind kv.2) (go l')
                 end) l)
  end.
End json_induction.

(** [dict.get(key, default)] *)
Fixpoint dict_lookup (k : str) (l : list (str * json)) : option json :=
  match l with
  | [] => None
  | (k', v) :: l' => if decide (k = k') then Some v else dict_lookup k l'
  end.

(** Comparison of [str] values: lexicographic on code points. *)
Fixpoint str_compare (a b : str) : comparison :=
  match a, b with
  | [], [] => Eq
  | [], _ :: _ => Lt
  | _ :: _, [] => Gt
  | x :: a', y :: b' =>
      match (x ?= y)%N with
      | Eq => str_compare a' b'
      | c => c
      end
  end.

Definition str_le (a b : str) : bool :=
  match str_compare a b with Gt => false | _ => true end.

(** [sorted(items)]: a stable insertion sort on the keys.  The items of a
    [dict] have distinct keys, so the comparison of two items is decided
    by their keys. *)
Fixpoint insert_item {A} (x : str * A) (l : list (str * A)) : list (str * A) :=
  match l with
  | [] => [x]
  | y :: l' => if str_le x.1 y.1 then x :: y :: l' else y :: insert_item x l'
  end.

Definition sorted_items {A} (l : list (str * A)) : list (str * A) :=
  foldr insert_item [] l.

(** [py_encode_basestring_ascii] *)
Definition hex4 (n : N) : str :=
  [92; 117]%N ++
  map (λ i, Sha256.hex_digit (Z.shiftr (Z.of_N n) (4 * Z.of_nat i) mod 16))
      (rev (seq 0 4)).

Definition escape_char (c : N) : str :=
  if decide (c = 34%N) then [92; 34]%N
  else if decide (c = 92%N) then [92; 92]%N
  else if decide (c = 10%N) then [92; 110]%N
  else if decide (c = 13%N) then [92; 114]%N
  else if decide (c = 9%N) then [92; 116]%N
  else if decide (c = 8%N) then [92; 98]%N
  else if decide (c = 12%N) then [92; 102]%N
  else if ((32 <=? c) && (c <=? 126))%N then [c]
  else if (c <? 65536)%N then hex4 c
  else
    let n := (c - 65536)%N in
    hex4 (N.lor 55296 (N.land (N.shiftr n 10) 1023))
    ++ hex4 (N.lor 56320 (N.land n 1023)).

Definition encode_basestring_ascii (s : str) : str :=
  [34%N] ++ concat (map escape_char s) ++ [34%N].

Fixpoint str_join (sep : str) (l : list str) : str :=
  match l with
  | [] => []
  | [x] => x
  | x :: l' => x ++ sep ++ str_join sep l'
  end.

(** ** What the model takes from the interpreter and its libraries without
    implementing it. *)
Class Runtime := {
  (** [float.__repr__] of a finite float; its output is ASCII text *)
  float_repr : float → str;
  float_repr_ascii : ∀ x, Forall (λ c, (c < 128)%N) (float_repr x);
  (** the built-in [hash] on [str], salted once per process *)
  str_hash : str → Z;
  (** the Mersenne Twister behind the [random] module: seeding from the
      absolute value of an [int], and the next 32-bit output *)
  mt_state : Type;
  init_by_array : Z → mt_state;
  genrand_uint32 : mt_state → Z * mt_state;
  (** [datetime.utcnow().isoformat()] at the n-th reading of the clock *)
  utc_isoformat : nat → str;
  (** [str(uuid.uuid4())], the n-th identifier drawn by the process *)
  uuid4_str : nat → str;
  (** [json.load] on the bytes of a text file *)
  json_load : list byte → res json;
  (** the text written by [json.dump(v, f, indent=2, ensure_ascii=False)] *)
  json_dumps_indent : json → str;
  (** pydantic: the model class of that name, built from keyword arguments *)
  model_validate : string → json → res json;
}.

Section dumps.
Context `{Runtime}.

Definition floatstr (x : pyfloat) : str :=
  match x with
  | Fin x => float_repr x
  | NegZero => lit "-0.0"
  | Inf false => lit "Infinity"
  | Inf true => lit "-Infinity"
  | NaN => lit "NaN"
  end.

Definition item_text (kt : str * str) : str :=
  encode_basestring_ascii kt.1 ++ lit ": " ++ kt.2.

(** [json.dumps(v, sort_keys=True)] with the default separators.  The
    values of an object are serialised before the items are sorted; the
    sort only looks at keys, so this is the encoder's order of work
    ([dumps_obj] below). *)
Fixpoint dumps (v : json) : str :=
  match v with
  | JNull => lit "null"
  | JBool true => lit "true"
  | JBool false => lit "false"
  | JInt n => str_of_int n
  | JFloat x => floatstr x
  | JStr s => encode_basestring_ascii s
  | JArr l => lit "[" ++ str_join (lit ", ") (map dumps l) ++ lit "]"
  | JObj l =>
      lit "{" ++
      str_join (lit ", ")
        (map item_text (sorted_items (map (λ kv, (kv.1, dumps kv.2)) l)))
      ++ lit "}"
  end.
End dumps.

(** A well-formed document: the keys of every object are distinct. *)
Fixpoint distinct_keys (v : json) : bool :=
  match v with
  | JArr l => forallb distinct_keys l
  | JObj l => bool_decide (NoDup (map fst l)) && forallb (λ kv, distinct_keys kv.2) l
  | _ => true
  end.

(** Two documents that are the same data: equal scalars, arrays equal
    element by element, objects holding the same items in any order. *)
Inductive same_doc : json → json → Prop :=
| same_null : same_doc JNull JNull
| same_bool b : same_doc (JBool b) (JBool b)
| same_int n : same_doc (JInt n) (JInt n)
| same_float x : same_doc (JFloat x) (JFloat x)
| same_str s : same_doc (JStr s) (JStr s)
| same_arr l1 l2 :
    Forall2 same_doc l1 l2 → same_doc (JArr l1) (JArr l2)
| same_obj l1 l1' l2 :
    l1 ≡ₚ l1' →
    Forall2 (λ a b, a.1 = b.1 ∧ same_doc a.2 b.2) l1' l2 →
    same_doc (JObj l1) (JObj l2).

(** *** The order on strings *)

Lemma str_compare_refl a : str_compare a a = Eq.
Proof. induction a as [|x a IH]; simpl; [done|]. by rewrite N.compare_refl. Qed.

Lemma str_compare_eq a b : str_compare a b = Eq → a = b.
Proof.
  revert b. induction a as [|x a IH]; intros [|y b]; simpl; try done.
  destruct (N.compare_spec x y); try done. intros. f_equal; auto.
Qed.

Lemma str_compare_antisym a b : str_compare b a = CompOpp (str_compare a b).
Proof.
  revert b. induction a as [|x a IH]; intros [|y b]; simpl; try done.
  rewrite (N.compare_antisym x y). destruct (x ?= y)%N; simpl; auto.
Qed.

Lemma str_compare_lt_trans a b c :
  str_compare a b = Lt → str_compare b c = Lt → str_compare a c = Lt.
Proof.
  revert b c. induction a as [|x a IH]; intros [|y b] [|z c]; simpl; try done.
  destruct (N.compare_spec x y), (N.compare_spec y z); try done; subst.
  - rewrite N.compare_refl. eauto.
  - intros _ _. by apply N.compare_lt_iff in H0 as ->.
  - intros _ _. by apply N.compare_lt_iff in H as ->.
  - intros _ _. assert (x < z)%N as ->%N.compare_lt_iff by lia. done.
Qed.

Lemma str_le_total a b : str_le a b = false → str_le b a = true.
Proof.
  unfold str_le. rewrite (str_compare_antisym a b).
  by destruct (str_compare a b).
Qed.

Lemma str_le_antisym a b : str_le a b = true → str_le b a = true → a = b.
Proof.
  unfold str_le. rewrite (str_compare_antisym a b).
  destruct (str_compare a b) eqn:E; try done. intros. by apply str_compare_eq.
Qed.

Lemma str_le_trans a b c : str_le a b = true → str_le b c = true → str_le a c = true.
Proof.
  unfold str_le.
  destruct (str_compare a b) eqn:E1; try done;
    destruct (str_compare b c) eqn:E2; try done; intros _ _.
  - apply str_compare_eq in E1 as ->. by rewrite E2.
  - apply str_compare_eq in E1 as ->. by rewrite E2.
  - apply str_compare_eq in E2 as <-. by rewrite E1.
  - by rewrite (str_compare_lt_trans _ _ _ E1 E2).
Qed.

(** *** Sorting the items of a dict does not depend on insertion order *)

Lemma insert_item_comm {A} (x y : str * A) l :
  x.1 ≠ y.1 → insert_item x (insert_item y l) = insert_item y (insert_item x l).
Proof.
  intros Hne. induction l as [|z l IH]; simpl.
  - destruct (str_le x.1 y.1) eqn:Exy, (str_le y.1 x.1) eqn:Eyx; try done.
    + destruct Hne. by apply str_le_antisym.
    + apply str_le_total in Exy. congruence.
  - destruct (str_le y.1 z.1) eqn:Eyz, (str_le x.1 z.1) eqn:Exz; simpl;
      rewrite ?Eyz, ?Exz.
    + destruct (str_le x.1 y.1) eqn:Exy, (str_le y.1 x.1) eqn:Eyx;
        simpl; rewrite ?Eyz, ?Exz; try done.
      * destruct Hne. by apply str_le_antisym.
      * apply str_le_total in Exy. congruence.
    + destruct (str_le x.1 y.1) eqn:Exy; simpl; rewrite ?Exz; [|done].
      pose proof (str_le_trans _ _ _ Exy Eyz). congruence.
    + destruct (str_le y.1 x.1) eqn:Eyx; simpl; rewrite ?Eyz; [|done].
      pose proof (str_le_trans _ _ _ Eyx Exz). congruence.
    + by rewrite IH.
Qed.

Lemma sorted_items_perm {A} (l1 l2 : list (str * A)) :
  l1 ≡ₚ l2 → NoDup (l1.*1) → sorted_items l1 = sorted_items l2.
Proof.
  induction 1 as [|x l1 l2 Hp IH|x y l|l1 l2 l3 Hp1 IH1 Hp2 IH2]; intros Hnd.
  - done.
  - simpl. rewrite IH; [done|]. by apply NoDup_cons in Hnd as [_ ?].
  - simpl. apply insert_item_comm.
    simpl in Hnd. apply NoDup_cons in Hnd as [Hy _]. set_solver.
  - rewrite IH1 by done. apply IH2. by rewrite <-Hp1.
Qed.

Lemma insert_item_perm {A} (x : str * A) l : insert_item x l ≡ₚ x :: l.
Proof.
  induction l as [|y l IH]; simpl; [done|].
  destruct (str_le x.1 y.1); [done|]. rewrite IH. apply perm_swap.
Qed.

Lemma sorted_items_permutation {A} (l : list (str * A)) : sorted_items l ≡ₚ l.
Proof.
  induction l as [|x l IH]; simpl; [done|]. by rewrite insert_item_perm, IH.
Qed.

Lemma insert_item_map {A B} (f : A → B) (x : str * A) l :
  insert_item (x.1, f x.2) (map (λ kv, (kv.1, f kv.2)) l)
  = map (λ kv, (kv.1, f kv.2)) (insert_item x l).
Proof.
  induction l as [|y l IH]; simpl; [done|].
  destruct (str_le x.1 y.1); simpl; [done|]. by rewrite IH.
Qed.

Lemma sorted_items_map {A B} (f : A → B) (l : list (str * A)) :
  sorted_items (map (λ kv, (kv.1, f kv.2)) l)
  = map (λ kv, (kv.1, f kv.2)) (sorted_items l).
Proof.
  induction l as [|x l IH]; simpl; [done|].
  by rewrite IH, (insert_item_map f x).
Qed.

Lemma dumps_arr `{Runtime} l :
  dumps (JArr l) = lit "[" ++ str_join (lit ", ") (map dumps l) ++ lit "]".
Proof. done. Qed.

Lemma dumps_obj_items `{Runtime} l :
  dumps (JObj l)
  = lit "{" ++
    str_join (lit ", ")
      (map item_text (sorted_items (map (λ kv, (kv.1, dumps kv.2)) l)))
    ++ lit "}".
Proof. done. Qed.

(** The encoder sorts the items of an object, then writes each of them. *)
Lemma dumps_obj `{Runtime} l :
  dumps (JObj l)
  = lit "{" ++
    str_join (lit ", ")
      (map (λ kv, encode_basestring_ascii kv.1 ++ lit ": " ++ dumps kv.2)
           (sorted_items l))
    ++ lit "}".
Proof.
  rewrite dumps_obj_items, (sorted_items_map dumps), map_map. done.
Qed.

(** *** The text of a document is ASCII *)

Definition is_ascii (s : str) : Prop := Forall (λ c, (c < 128)%N) s.

Lemma hex_digit_ascii d : 0 ≤ d < 16 → (Sha256.hex_digit d < 128)%N.
Proof. intros Hd. destruct (Sha256.hex_digit_is_hex d Hd); lia. Qed.

Lemma hex4_ascii n : is_ascii (hex4 n).
Proof.
  unfold hex4. apply Forall_app. split; [repeat constructor|].
  apply Forall_map, Forall_forall. intros i _.
  apply hex_digit_ascii, Z.mod_pos_bound. lia.
Qed.

Lemma escape_char_ascii c : is_ascii (escape_char c).
Proof.
  unfold escape_char.
  repeat case_decide; try (repeat constructor; done).
  destruct ((32 <=? c)%N && (c <=? 126)%N) eqn:E.
  - apply andb_prop in E as [_ E2]. apply N.leb_le in E2. repeat constructor. lia.
  - destruct (c <? 65536)%N; [apply hex4_ascii|apply Forall_app; split; apply hex4_ascii].
Qed.

Lemma encode_basestring_ascii_ascii s : is_ascii (encode_basestring_ascii s).
Proof.
  unfold encode_basestring_ascii. repeat (apply Forall_app; split);
    try (repeat constructor; done).
  induction s as [|c s IH]; simpl; [constructor|].
  apply Forall_app. split; [apply escape_char_ascii|done].
Qed.

Lemma str_join_ascii sep l : is_ascii sep → Forall is_ascii l → is_ascii (str_join sep l).
Proof.
  intros Hsep. induction 1 as [|x l Hx Hl IH]; [constructor|].
  destruct l as [|y l]; [done|].
  change (is_ascii (x ++ sep ++ str_join sep (y :: l))).
  repeat (apply Forall_app; split); done.
Qed.

Lemma digits_fuel_ascii fuel n acc : is_ascii acc → is_ascii (digits_fuel fuel n acc).
Proof.
  revert n acc. induction fuel as [|fuel IH]; intros n acc Hacc; simpl; [done|].
  assert (is_ascii ((48 + n mod 10)%N :: acc)).
  { constructor; [|done]. pose proof (N.mod_upper_bound n 10). lia. }
  destruct (n <? 10)%N; auto.
Qed.

Lemma str_of_int_ascii z : is_ascii (str_of_int z).
Proof.
  unfold str_of_int, str_of_N.
  destruct (z <? 0); [constructor; [done|]|]; apply digits_fuel_ascii; constructor.
Qed.

Lemma floatstr_ascii `{Runtime} x : is_ascii (floatstr x).
Proof.
  destruct x as [x| |[]|]; simpl; try (repeat constructor; done).
  apply float_repr_ascii.
Qed.

Lemma dumps_ascii `{Runtime} v : is_ascii (dumps v).
Proof.
  induction v as [|[]| | | |l IH|l IH] using json_nested_ind;
    try (repeat constructor; done).
  - apply str_of_int_ascii.
  - apply floatstr_ascii.
  - apply encode_basestring_ascii_ascii.
  - rewrite dumps_arr.
    repeat (apply Forall_app; split); try (repeat constructor; done).
    apply str_join_ascii; [repeat constructor; done|].
    by apply Forall_map.
  - rewrite dumps_obj.
    repeat (apply Forall_app; split); try (repeat constructor; done).
    apply str_join_ascii; [repeat constructor; done|].
    apply Forall_map. rewrite sorted_items_permutation.
    eapply Forall_impl; [exact IH|]. intros [k v] Hv. cbn [fst snd] in *.
    apply Forall_app; split; [apply encode_basestring_ascii_ascii|].
    apply Forall_app; split; [repeat constructor; done|done].
Qed.

(** *** Documents that are the same data have the same text *)

Lemma same_doc_refl v : same_doc v v.
Proof.
  induction v as [| | | | |l IH|l IH] using json_nested_ind; try by constructor.
  - constructor. induction IH; by constructor.
  - apply same_obj with l; [done|]. induction IH; by constructor.
Qed.

Lemma distinct_keys_obj l :
  distinct_keys (JObj l) = true → NoDup (l.*1) ∧ Forall (λ kv, distinct_keys kv.2 = true) l.
Proof.
  simpl. intros [Hnd Hall]%andb_prop. split.
  - by apply bool_decide_eq_true in Hnd.
  - apply Forall_forall. intros kv Hin.
    rewrite forallb_forall in Hall. apply Hall. by apply list_elem_of_In.
Qed.

Lemma dumps_same_doc `{Runtime} v1 v2 :
  distinct_keys v1 = true → same_doc v1 v2 → dumps v1 = dumps v2.
Proof.
  revert v2.
  induction v1 as [| | | | |l1 IH|l1 IH] using json_nested_ind;
    intros v2 Hwf Hsame; inversion Hsame; subst; try done.
  - match goal with Hf : Forall2 same_doc l1 ?l |- _ => rename l into l2; rename Hf into Helems end.
    rewrite !dumps_arr.
    assert (map dumps l1 = map dumps l2) as ->; [|done].
    simpl in Hwf. rewrite forallb_forall in Hwf.
    clear Hsame. induction Helems as [|a b l l' Hab Hl IHl]; [done|].
    apply Forall_cons in IH as [IHa IHrest]. simpl. f_equal.
    + apply IHa; [|done]. apply Hwf. by left.
    + apply IHl; [done|]. intros x Hx. apply Hwf. by right.
  - apply distinct_keys_obj in Hwf as [Hnd Hall].
    match goal with Hp : l1 ≡ₚ ?l |- _ => rename l into l1'; rename Hp into Hperm end.
    match goal with Hf : Forall2 _ l1' ?l |- _ => rename l into l2; rename Hf into Hitems end.
    rewrite !dumps_obj_items. do 3 f_equal.
    assert (Hmap : map (λ kv, (kv.1, dumps kv.2)) l1' = map (λ kv, (kv.1, dumps kv.2)) l2).
    { rewrite Hperm in IH, Hall. clear Hperm Hnd Hsame.
      induction Hitems as [|a b l l' [Hk Hv] Hl IHl]; [done|].
      apply Forall_cons in IH as [IHa IHrest]. apply Forall_cons in Hall as [Ha Hrest].
      simpl. f_equal; [|by apply IHl]. rewrite Hk. f_equal. by apply IHa. }
    rewrite <-Hmap. f_equal. apply sorted_items_perm.
    + by apply fmap_Permutation.
    + by rewrite <-list_fmap_compose.
Qed.


(** ** State and exceptions

    The code runs in a monad of state and exceptions: a computation maps a
    state to a result or a raised exception, and the state it leaves.  A
    raised exception keeps the state changes made before it. *)
Definition SE (S A : Type) : Type := S → res A * S.

#[global] Instance se_ret {S} : MRet (SE S) := λ A a s, (Ret a, s).

#[global] Instance se_bind {S} : MBind (SE S) := λ A B k m s,
  match m s with
  | (Ret a, s') => k a s'
  | (Raise x, s') => (Raise x, s')
  end.

Definition raise {S A} (x : exn) : SE S A := λ s, (Raise x, s).
Definition get_state {S} : SE S S := λ s, (Ret s, s).
Definition modify {S} (f : S → S) : SE S () := λ s, (Ret (), f s).

(** [try: body except Exception as e: handler e] *)
Definition try_except {S A} (body : SE S A) (handler : exn → SE S A) : SE S A :=
  λ s, match body s with
       | (Ret a, s') => (Ret a, s')
       | (Raise x, s') => handler x s'
       end.

(** [for x in l: body x] *)
Fixpoint for_each {S A} (l : list A) (body : A → SE S ()) : SE S () :=
  match l with
  | [] => mret ()
  | x :: l' => body x;; for_each l' body
  end.



(** ** The process environment: files, the faults of the operating system,
    the clock, and the state of the [random] module's generator. *)
Section process.
Context `{Runtime}.

Record env := Env {
  files : gmap str (list byte);
  (** what happens to the coming system calls: [Some x] makes the call
      raise [x], [None] lets it proceed; calls past the end proceed *)
  faults : list (option exn);
  clock : nat;
  uuids : nat;
  rng : mt_state;
}.

Abbreviation IO := (SE env).

Definition set_files (f : gmap str (list byte)) (e : env) : env :=
  Env f (faults e) (clock e) (uuids e) (rng e).
Definition set_faults (fs : list (option exn)) (e : env) : env :=
  Env (files e) fs (clock e) (uuids e) (rng e).
Definition set_clock (c : nat) (e : env) : env :=
  Env (files e) (faults e) c (uuids e) (rng e).
Definition set_uuids (n : nat) (e : env) : env :=
  Env (files e) (faults e) (clock e) n (rng e).
Definition set_rng (g : mt_state) (e : env) : env :=
  Env (files e) (faults e) (clock e) (uuids e) g.

Definition syscall : IO () :=
  e ← get_state;
  match faults e with
  | [] => mret ()
  | None :: fs => modify (set_faults fs)
  | Some x :: fs => modify (set_faults fs);; raise x
  end.

Definition FileNotFoundError (path : str) : exn :=
  Exn "FileNotFoundError"
      (lit "[Errno 2] No such file or directory: '" ++ path ++ lit "'").

(** [open(path, mode)] for reading: the file object, as its unread contents. *)
Definition open_read (path : str) : IO (list byte) :=
  syscall;;
  e ← get_state;
  match files e !! path with
  | Some bs => mret bs
  | None => raise (FileNotFoundError path)
  end.

(** [str.encode()]: UTF-8; a surrogate code point cannot be encoded.  (The
    message is the one for a single offending character.) *)
Definition UnicodeEncodeError (c : N) (pos : nat) : exn :=
  Exn "UnicodeEncodeError"
      (lit "'utf-8' codec can't encode character '" ++ hex4 c ++ lit "' in position "
       ++ str_of_int (Z.of_nat pos) ++ lit ": surrogates not allowed").

Definition byte_of_N (n : N) : byte := Sha256.byte_of (Z.of_N n).

Definition utf8_char (c : N) : list byte :=
  if (c <? 128)%N then [byte_of_N c]
  else if (c <? 2048)%N then
    [byte_of_N (192 + c / 64); byte_of_N (128 + c mod 64)]
  else if (c <? 65536)%N then
    [byte_of_N (224 + c / 4096); byte_of_N (128 + (c / 64) mod 64);
     byte_of_N (128 + c mod 64)]
  else
    [byte_of_N (240 + c / 262144); byte_of_N (128 + (c / 4096) mod 64);
     byte_of_N (128 + (c / 64) mod 64); byte_of_N (128 + c mod 64)].

Fixpoint str_encode_from (pos : nat) (s : str) : res (list byte) :=
  match s with
  | [] => Ret []
  | c :: s' =>
      if ((55296 <=? c) && (c <=? 57343))%N then Raise (UnicodeEncodeError c pos)
      else match str_encode_from (S pos) s' with
           | Ret bs => Ret (utf8_char c ++ bs)
           | Raise x => Raise x
           end
  end.

Definition str_encode (s : str) : res (list byte) := str_encode_from 0 s.

(** ** The content hasher *)

(** [for chunk in iter(lambda: f.read(8192), b""): sha256.update(chunk)].
    Each [f.read(8192)] is a system call that yields the next 8192 bytes
    at most; the loop ends at the first empty chunk.  The hash object is
    the message fed to it so far. *)
Definition chunk_size : nat := Z.to_nat 8192.

Lemma drop_chunk_shorter (b : byte) (bs : list byte) :
  (length (drop chunk_size (b :: bs)) < length (b :: bs))%nat.
Proof.
  rewrite length_drop. assert (0 < chunk_size)%nat by (unfold chunk_size; lia).
  cbn [length]. lia.
Qed.

#[local] Opaque chunk_size.

Equations? update_chunks (unread : list byte) (sha256 : list byte) : IO (list byte)
  by wf (length unread) lt :=
  update_chunks [] sha256 := syscall;; mret sha256;
  update_chunks (b :: bs) sha256 :=
    syscall;;
    update_chunks (drop chunk_size (b :: bs)) (sha256 ++ take chunk_size (b :: bs)).
Proof. apply drop_chunk_shorter. Qed.

#[local] Transparent chunk_size.

Definition compute_file_hash (file_path : str) : IO str :=
  f ← open_read file_path;
  sha256 ← update_chunks f [];
  mret (take 16 (Sha256.hexdigest sha256)).

Definition compute_data_hash (data : json) : res str :=
  let json_str := dumps data in
  match str_encode json_str with
  | Ret bs => Ret (take 16 (Sha256.hexdigest bs))
  | Raise x => Raise x
  end.

(** ** The placeholder model *)

(** [random.seed(a)] for an [int]: the generator is re-initialised from
    [abs(a)], whatever its state was. *)
Definition random_seed (a : Z) : IO () :=
  modify (set_rng (init_by_array (Z.abs a))).

(** [random.random()]: 53 random bits from two 32-bit outputs,
    [(a * 67108864.0 + b) * (1.0 / 9007199254740992.0)]. *)
Definition random_random : IO float :=
  e ← get_state;
  let '(x, g1) := genrand_uint32 (rng e) in
  let '(y, g2) := genrand_uint32 g1 in
  let a := Z.shiftr (x mod 2 ^ 32) 5 in
  let b := Z.shiftr (y mod 2 ^ 32) 6 in
  modify (set_rng g2);;
  mret (fmul (fadd (fmul (of_int a) (of_int 67108864)) (of_int b))
             (dec 1 9007199254740992)).

(** [random.uniform(a, b)] *)
Definition random_uniform (a b : float) : IO float :=
  r ← random_random; mret (fadd a (fmul (fsub b a) r)).

(** [itertools.accumulate(weights)] *)
Fixpoint accumulate_from (acc : float) (ws : list float) : list float :=
  match ws with
  | [] => []
  | w :: ws' => let acc' := fadd acc w in acc' :: accumulate_from acc' ws'
  end.

Definition accumulate (ws : list float) : list float :=
  match ws with
  | [] => []
  | w :: ws' => w :: accumulate_from w ws'
  end.

(** [(lo + hi) // 2] *)
Definition midpoint (lo hi : nat) : nat := ((lo + hi) / 2)%nat.
Arguments midpoint : simpl never.

Lemma midpoint_bounds lo hi : (lo < hi)%nat → (lo ≤ midpoint lo hi < hi)%nat.
Proof.
  intros Hlt. unfold midpoint. split.
  - apply Nat.div_le_lower_bound; lia.
  - apply Nat.Div0.div_lt_upper_bound; lia.
Qed.

(** [bisect.bisect_right(a, x, lo, hi)] *)
Equations? bisect (a : list float) (x : float) (lo hi : nat) : nat
  by wf (hi - lo)%nat lt :=
  bisect a x lo hi with decide (lo < hi)%nat := {
    | left _ =>
        let mid := midpoint lo hi in
        if flt x (nth mid a (Float 0)) then bisect a x lo mid
        else bisect a x (mid + 1) hi
    | right _ => lo }.
Proof.
  all: match goal with Hlt : (?lo < ?hi)%nat |- _ =>
         pose proof (midpoint_bounds lo hi Hlt) end; lia.
Qed.

Definition ValueError (msg : string) : exn := Exn "ValueError" (lit msg).
Definition IndexError (msg : string) : exn := Exn "IndexError" (lit msg).

(** [random.choices(population, weights=weights)], which draws one element
    ([k=1]) and returns it in a list. *)
Definition random_choices {A} (population : list A) (weights : list float) : IO (list A) :=
  let n := length population in
  let cum_weights := accumulate weights in
  if decide (length cum_weights ≠ n) then
    raise (ValueError "The number of weights does not match the population")
  else match last cum_weights with
  | None => raise (IndexError "list index out of range")
  | Some w =>
      let total := fadd w (of_int 0) in
      if fle total (of_int 0) then
        raise (ValueError "Total of weights must be greater than zero")
      else
        let hi := (n - 1)%nat in
        r ← random_random;
        match population !! bisect cum_weights (fmul r total) 0 hi with
        | Some x => mret [x]
        | None => raise (IndexError "list index out of range")
        end
  end.

(** The process constants: the behavior catalog read from
    [assets/label_map.json] at start-up (a [dict], or the server does not
    start), the dummy-mode flag, and the directory of the server. *)
Variable LABEL_MAP : list (str * json).
Variable DUMMY_MODE : bool.
Variable BASE_DIR : str.

Definition BEHAVIOR_IDS : list str := LABEL_MAP.*1.

Definition type_name (v : json) : string :=
  match v with
  | JNull => "NoneType"
  | JBool _ => "bool"
  | JInt _ => "int"
  | JFloat _ => "float"
  | JStr _ => "str"
  | JArr _ => "list"
  | JObj _ => "dict"
  end.

Definition AttributeError (v : json) (attr : string) : exn :=
  Exn "AttributeError"
      (lit "'" ++ lit (type_name v) ++ lit "' object has no attribute '"
       ++ lit attr ++ lit "'").

(** [d.get(key, dflt)] on whatever value [d] is. *)
Definition dict_get {S} (d : json) (key : str) (dflt : json) : SE S json :=
  match d with
  | JObj l => mret (default dflt (dict_lookup key l))
  | _ => raise (AttributeError d "get")
  end.

(** [l[0]] *)
Definition first_item {S A} (l : list A) : SE S A :=
  match l with
  | x :: _ => mret x
  | [] => raise (IndexError "list index out of range")
  end.

Definition generate_dummy_prediction (behavior_id input_hash : str) : IO json :=
  random_seed (str_hash (behavior_id ++ lit "_" ++ input_hash));;
  behavior ← dict_get (JObj LABEL_MAP) behavior_id (JObj []);
  labels ← dict_get behavior (lit "labels") (JObj []);
  labels_es ← dict_get behavior (lit "labels_es") (JObj []);
  drawn ← random_choices [0; 1; 2] [dec 2 10; dec 35 100; dec 45 100];
  pred ← first_item drawn;
  confidence ← random_uniform (dec 65 100) (dec 95 100);
  rubric_text ← dict_get labels (str_of_int pred) (JStr []);
  rubric_text_es ← dict_get labels_es (str_of_int pred) (JStr []);
  mret (JObj [(lit "behavior_id", JStr behavior_id);
              (lit "pred", JInt pred);
              (lit "confidence", JFloat (Fin (round_ndigits confidence 4)));
              (lit "rubric_text", rubric_text);
              (lit "rubric_text_es", rubric_text_es)]).

(** ** The job registry

    [jobs] maps a job identifier to a reference to the job's [dict]; the
    dicts live in [heap].  The keys of a job's dict are fixed at creation,
    so it is a record.  [published] is a ghost history: the heap at each
    release of [jobs_lock], oldest first. *)
Record job := Job {
  job_job_id : str;
  job_input_id : str;
  job_input_type : str;
  job_behavior_id : str;
  job_status : str;
  job_progress : Z;
  job_message : str;
  job_error : option str;
  job_results : option json;
  job_created_at : str;
}.

Definition set_status (v : str) (j : job) : job :=
  Job (job_job_id j) (job_input_id j) (job_input_type j) (job_behavior_id j)
      v (job_progress j) (job_message j) (job_error j) (job_results j)
      (job_created_at j).
Definition set_progress (v : Z) (j : job) : job :=
  Job (job_job_id j) (job_input_id j) (job_input_type j) (job_behavior_id j)
      (job_status j) v (job_message j) (job_error j) (job_results j)
      (job_created_at j).
Definition set_message (v : str) (j : job) : job :=
  Job (job_job_id j) (job_input_id j) (job_input_type j) (job_behavior_id j)
      (job_status j) (job_progress j) v (job_error j) (job_results j)
      (job_created_at j).
Definition set_error (v : option str) (j : job) : job :=
  Job (job_job_id j) (job_input_id j) (job_input_type j) (job_behavior_id j)
      (job_status j) (job_progress j) (job_message j) v (job_results j)
      (job_created_at j).
Definition set_results (v : option json) (j : job) : job :=
  Job (job_job_id j) (job_input_id j) (job_input_type j) (job_behavior_id j)
      (job_status j) (job_progress j) (job_message j) (job_error j) v
      (job_created_at j).

Abbreviation loc := positive.

Record world := World {
  jobs : gmap str loc;
  heap : gmap loc job;
  published : list (gmap loc job);
  os : env;
}.

Abbreviation M := (SE world).

Definition set_jobs (v : gmap str loc) (w : world) : world :=
  World v (heap w) (published w) (os w).
Definition set_heap (v : gmap loc job) (w : world) : world :=
  World (jobs w) v (published w) (os w).
Definition set_os (v : env) (w : world) : world :=
  World (jobs w) (heap w) (published w) v.
Definition publish (w : world) : world :=
  World (jobs w) (heap w) (published w ++ [heap w]) (os w).

(** An operation on the environment, run in the process. *)
Definition io {A} (m : IO A) : M A := λ w,
  let '(r, e) := m (os w) in (r, set_os e w).

(** [with jobs_lock: body].  The lock is released on the way out, also when
    [body] raises. *)
Definition with_jobs_lock {A} (body : M A) : M A := λ w,
  let '(r, w') := body w in (r, publish w').

(** [str(KeyError(key))] is [repr(key)]; identifiers hold no quote. *)
Definition KeyError (key : str) : exn :=
  Exn "KeyError" (lit "'" ++ key ++ lit "'").

(** [jobs[job_id]] *)
Definition jobs_getitem (job_id : str) : M loc :=
  w ← get_state;
  match jobs w !! job_id with
  | Some r => mret r
  | None => raise (KeyError job_id)
  end.

(** [jobs.get(job_id)] *)
Definition jobs_get (job_id : str) : M (option loc) :=
  w ← get_state; mret (jobs w !! job_id).

(** [d[key] = v] on the dict that [r] refers to *)
Definition setitem (r : loc) (update : job → job) : M () :=
  modify (λ w, set_heap (alter update r (heap w)) w).

(** [d[key]] on the dict that [r] refers to.  A reference taken from [jobs]
    always denotes an allocated dict ([registry_wf]). *)
Definition getitem {A} (r : loc) (field : job → A) : M A :=
  w ← get_state;
  match heap w !! r with
  | Some j => mret (field j)
  | None => raise (Exn "SystemError" (lit "dangling reference"))
  end.

(** [jobs[job_id][key] = v] *)
Definition jobs_setitem (job_id : str) (update : job → job) : M () :=
  r ← jobs_getitem job_id; setitem r update.

(** ** The job runner *)

Definition path_join (dir name : str) : str := dir ++ lit "/" ++ name.

Definition UPLOADS_DIR : str := path_join BASE_DIR (lit "uploads").
Definition SKELETONS_DIR : str := path_join BASE_DIR (lit "skeletons").
Definition RUNS_DIR : str := path_join BASE_DIR (lit "runs").
Definition MODELS_DIR : str := path_join BASE_DIR (lit "models").
Definition MODEL_PATH : str := path_join MODELS_DIR (lit "model.onnx").

(** [path.exists()] *)
Definition path_exists (path : str) : IO bool :=
  e ← get_state; mret (bool_decide (is_Some (files e !! path))).

Definition is_model_available : IO bool :=
  b ← path_exists MODEL_PATH; mret (b && negb DUMMY_MODE).

(** [datetime.utcnow().isoformat() + "Z"] *)
Definition utcnow_isoformat_Z : IO str :=
  e ← get_state;
  modify (set_clock (S (clock e)));;
  mret (utc_isoformat (clock e) ++ lit "Z").

(** [with open(path, "r", encoding="utf-8") as f: json.load(f)] *)
Definition load_json_file (path : str) : IO json :=
  bs ← open_read path;
  syscall;;
  match json_load bs with
  | Ret v => mret v
  | Raise x => raise x
  end.

(** [with open(path, "w", encoding="utf-8") as f:
       json.dump(v, f, indent=2, ensure_ascii=False)] *)
Definition dump_json_file (path : str) (v : json) : IO () :=
  syscall;;
  match str_encode (json_dumps_indent v) with
  | Ret bs => e ← get_state; modify (set_files (<[path := bs]> (files e)))
  | Raise x => raise x
  end.

(** [path.mkdir(exist_ok=True)] *)
Definition mkdir (path : str) : IO () := syscall.

(** [time.sleep(seconds)]: other threads run; this one does nothing. *)
Definition time_sleep : M () := mret ().

Definition stages (behavior_id : str) : list (Z * str) :=
  [(15, lit "Cargando datos...");
   (35, lit "Preprocesando...");
   (55, lit "Extrayendo características...");
   (75, lit "Evaluando " ++ behavior_id ++ lit "...");
   (90, lit "Generando predicción...")].

Definition opt_str (o : option str) : json :=
  match o with Some s => JStr s | None => JNull end.

(** The body of the [try] statement of [run_inference]. *)
Definition run_inference_try
    (input_path input_type behavior_id job_id input_id : str) : M () :=
  with_jobs_lock
    (jobs_setitem job_id (set_status (lit "processing"));;
     jobs_setitem job_id (set_message (lit "Iniciando procesamiento..."));;
     jobs_setitem job_id (set_progress 5));;
  input_hash ←
    (if decide (input_type = lit "video") then
       io (compute_file_hash input_path)
     else
       data ← io (load_json_file input_path);
       match compute_data_hash data with
       | Ret h => mret h
       | Raise x => raise x
       end);
  for_each (stages behavior_id) (λ '(progress, message),
    with_jobs_lock
      (jobs_setitem job_id (set_progress progress);;
       jobs_setitem job_id (set_message message));;
    time_sleep);;
  available ← io is_model_available;
  prediction ←
    (if available : bool then io (generate_dummy_prediction behavior_id input_hash)
     else io (generate_dummy_prediction behavior_id input_hash));
  available ← io is_model_available;
  let model_version :=
    if negb available then lit "dummy-v1.0" else lit "diana-v1.0" in
  processed_at ← io utcnow_isoformat_Z;
  let results :=
    JObj [(lit "job_id", JStr job_id);
          (lit "input_id", JStr input_id);
          (lit "input_type", JStr input_type);
          (lit "behavior_id", JStr behavior_id);
          (lit "prediction", prediction);
          (lit "metadata",
           JObj [(lit "model_version", JStr model_version);
                 (lit "input_hash", JStr input_hash);
                 (lit "processed_at", JStr processed_at)])] in
  let run_dir := path_join RUNS_DIR job_id in
  io (mkdir run_dir);;
  io (dump_json_file (path_join run_dir (lit "results.json")) results);;
  r ← jobs_getitem job_id;
  started_at ← getitem r job_created_at;
  completed_at ← io utcnow_isoformat_Z;
  available ← io is_model_available;
  let metadata :=
    JObj [(lit "job_id", JStr job_id);
          (lit "input_id", JStr input_id);
          (lit "input_type", JStr input_type);
          (lit "behavior_id", JStr behavior_id);
          (lit "input_path", JStr input_path);
          (lit "input_hash", JStr input_hash);
          (lit "model_version", JStr model_version);
          (lit "started_at", JStr started_at);
          (lit "completed_at", JStr completed_at);
          (lit "dummy_mode", JBool (negb available))] in
  io (dump_json_file (path_join run_dir (lit "metadata.json")) metadata);;
  with_jobs_lock
    (jobs_setitem job_id (set_status (lit "completed"));;
     jobs_setitem job_id (set_progress 100);;
     jobs_setitem job_id (set_message (lit "Análisis completado"));;
     jobs_setitem job_id (set_results (Some results))).

(** Its [except Exception as e] clause. *)
Definition run_inference_except (job_id : str) (e : exn) : M () :=
  with_jobs_lock
    (jobs_setitem job_id (set_status (lit "failed"));;
     jobs_setitem job_id (set_error (Some (exn_str e)));;
     jobs_setitem job_id (set_message (lit "Error: " ++ exn_str e))).

Definition run_inference
    (input_path input_type behavior_id job_id input_id : str) : M () :=
  try_except
    (run_inference_try input_path input_type behavior_id job_id input_id)
    (run_inference_except job_id).

(** ** The endpoints *)

(** [Literal["video", "skeleton"]] *)
Inductive input_kind := video | skeleton.

Definition input_kind_str (k : input_kind) : str :=
  match k with video => lit "video" | skeleton => lit "skeleton" end.

(** [str.capitalize()] on the two literals *)
Definition input_kind_capitalize (k : input_kind) : str :=
  match k with video => lit "Video" | skeleton => lit "Skeleton" end.

Record InferenceRequest := {
  req_input_id : str;
  req_input_type : input_kind;
  req_behavior_id : str;
}.

(** The arguments of a [run_inference] call handed to [background_tasks]. *)
Record task := Task {
  task_input_path : str;
  task_input_type : str;
  task_behavior_id : str;
  task_job_id : str;
  task_input_id : str;
}.


(** [for c in candidates: if c.exists(): input_path = c; break] *)
Fixpoint first_existing (candidates : list str) : IO (option str) :=
  match candidates with
  | [] => mret None
  | c :: cs => b ← path_exists c; if b : bool then mret (Some c) else first_existing cs
  end.

Definition video_extensions : list str :=
  [lit ".mp4"; lit ".mov"; lit ".avi"; lit ".mkv"; lit ".webm"].

Definition uuid4 : IO str :=
  e ← get_state;
  modify (set_uuids (S (uuids e)));;
  mret (uuid4_str (uuids e)).

(** [jobs[job_id] = {...}]: a new dict is allocated and bound to the key. *)
Definition jobs_new (job_id : str) (j : job) : M () :=
  modify (λ w, let r := fresh (dom (heap w)) in
               set_jobs (<[job_id := r]> (jobs w)) (set_heap (<[r := j]> (heap w)) w)).

Definition start_inference (request : InferenceRequest) : M (str * task) :=
  let input_id := req_input_id request in
  let input_type := req_input_type request in
  let behavior_id := req_behavior_id request in
  if decide (behavior_id ∉ BEHAVIOR_IDS) then
    raise (HTTPException 400
             (lit "Invalid behavior_id. Valid options: "
              ++ str_join (lit ", ") BEHAVIOR_IDS))
  else
    input_path ←
      io (match input_type with
          | video =>
              first_existing
                (map (λ ext, path_join UPLOADS_DIR (input_id ++ ext)) video_extensions)
          | skeleton => first_existing [path_join SKELETONS_DIR (input_id ++ lit ".json")]
          end);
    match input_path with
    | None => raise (HTTPException 404 (input_kind_capitalize input_type ++ lit " not found"))
    | Some input_path =>
        job_id ← io uuid4;
        with_jobs_lock
          (created_at ← io utcnow_isoformat_Z;
           jobs_new job_id
             (Job job_id input_id (input_kind_str input_type) behavior_id
                  (lit "pending") 0 (lit "En cola...") None None created_at));;
        mret (job_id,
              Task input_path (input_kind_str input_type) behavior_id job_id input_id)
    end.

Record JobStatus := {
  js_status : str;
  js_progress : Z;
  js_message : str;
  js_error : option str;
}.

(** [with jobs_lock: job = jobs.get(job_id)] *)
Definition lookup_job (job_id : str) : M (option loc) :=
  with_jobs_lock (jobs_get job_id).

(** The rest of [get_job_status], after the lock is released: the fields are
    read through the reference. *)
Definition job_status_response (job : option loc) : M JobStatus :=
  match job with
  | None => raise (HTTPException 404 (lit "Job not found"))
  | Some job =>
      status ← getitem job job_status;
      progress ← getitem job job_progress;
      message ← getitem job job_message;
      error ← getitem job job_error;
      mret {| js_status := status; js_progress := progress;
              js_message := message; js_error := error |}
  end.

Definition get_job_status (job_id : str) : M JobStatus :=
  job ← lookup_job job_id; job_status_response job.

Definition TypeError (msg : str) : exn := Exn "TypeError" msg.

(** [d[key]] on a parsed document *)
Definition json_getitem {S} (d : json) (key : str) : SE S json :=
  match d with
  | JObj l =>
      match dict_lookup key l with
      | Some v => mret v
      | None => raise (KeyError key)
      end
  | JArr _ => raise (TypeError (lit "list indices must be integers or slices, not str"))
  | JStr _ => raise (TypeError (lit "string indices must be integers, not 'str'"))
  | _ => raise (TypeError (lit "'" ++ lit (type_name d) ++ lit "' object is not subscriptable"))
  end.

Definition of_res {S A} (r : res A) : SE S A :=
  match r with Ret a => mret a | Raise x => raise x end.

(** Truth value of an object *)
Definition truthy (v : json) : bool :=
  match v with
  | JNull => false
  | JBool b => b
  | JInt n => negb (n =? 0)
  | JFloat (Fin x) => negb (units x =? 0)
  | JFloat NegZero => false
  | JFloat _ => true
  | JStr s => negb (bool_decide (s = []))
  | JArr l => negb (bool_decide (l = []))
  | JObj l => negb (bool_decide (l = []))
  end.

Definition results_from_disk (job_id : str) : M json :=
  let results_path := path_join (path_join RUNS_DIR job_id) (lit "results.json") in
  found ← io (path_exists results_path);
  if found : bool then io (load_json_file results_path)
  else raise (HTTPException 500 (lit "Results not found")).

(** [JobResultsResponse(job_id=results["job_id"], ...,
      prediction=PredictionResult(...), metadata=InferenceMetadata(...))] *)
Definition JobResultsResponse (results : json) : M json :=
  v_job_id ← json_getitem results (lit "job_id");
  v_input_id ← json_getitem results (lit "input_id");
  v_input_type ← json_getitem results (lit "input_type");
  v_behavior_id ← json_getitem results (lit "behavior_id");
  prediction_fields ← json_getitem results (lit "prediction");
  prediction ← of_res (model_validate "PredictionResult" prediction_fields);
  metadata_fields ← json_getitem results (lit "metadata");
  metadata ← of_res (model_validate "InferenceMetadata" metadata_fields);
  of_res (model_validate "JobResultsResponse"
            (JObj [(lit "job_id", v_job_id);
                   (lit "input_id", v_input_id);
                   (lit "input_type", v_input_type);
                   (lit "behavior_id", v_behavior_id);
                   (lit "prediction", prediction);
                   (lit "metadata", metadata)])).

(** The rest of [get_job_results], after the lock is released. *)
Definition job_results_response (job_id : str) (job : option loc) : M json :=
  match job with
  | None => raise (HTTPException 404 (lit "Job not found"))
  | Some job =>
      status ← getitem job job_status;
      if decide (status ≠ lit "completed") then
        status ← getitem job job_status;
        raise (HTTPException 400 (lit "Job not completed. Current status: " ++ status))
      else
        results ← getitem job job_results;
        results ←
          match results with
          | Some v => if truthy v then mret v else results_from_disk job_id
          | None => results_from_disk job_id
          end;
        JobResultsResponse results
  end.

Definition get_job_results (job_id : str) : M json :=
  job ← lookup_job job_id; job_results_response job_id job.

(** ** Start-up and the remaining endpoints *)

Definition ASSETS_DIR : str := path_join BASE_DIR (lit "assets").
Definition LABEL_MAP_PATH : str := path_join ASSETS_DIR (lit "label_map.json").

Definition load_label_map : IO json :=
  found ← path_exists LABEL_MAP_PATH;
  if found : bool then load_json_file LABEL_MAP_PATH else mret (JObj []).

(** The placeholder values, whatever the file: [30.0, 30.0]. *)
Definition get_video_info (file_path : str) : float * float :=
  (of_int 30, of_int 30).

Definition health_check : IO json :=
  timestamp ← utcnow_isoformat_Z;
  model_available ← is_model_available;
  dummy_mode ←
    (if DUMMY_MODE then mret true
     else found ← path_exists MODEL_PATH; mret (negb found));
  mret (JObj [(lit "status", JStr (lit "healthy"));
              (lit "timestamp", JStr timestamp);
              (lit "model_available", JBool model_available);
              (lit "dummy_mode", JBool dummy_mode);
              (lit "behaviors_count", JInt (Z.of_nat (length BEHAVIOR_IDS)));
              (lit "behaviors", JArr (JStr <$> BEHAVIOR_IDS))]).

Definition get_behaviors : json :=
  JObj [(lit "behaviors", JObj LABEL_MAP);
        (lit "count", JInt (Z.of_nat (length BEHAVIOR_IDS)));
        (lit "ids", JArr (JStr <$> BEHAVIOR_IDS))].

(** The paths that [start_inference] tries for an input, in order. *)
Definition input_candidates (input_type : input_kind) (input_id : str) : list str :=
  match input_type with
  | video => map (λ ext, path_join UPLOADS_DIR (input_id ++ ext)) video_extensions
  | skeleton => [path_join SKELETONS_DIR (input_id ++ lit ".json")]
  end.

(** [open(path, "w")] or [open(path, "wb")]: the file is created, or emptied. *)
Definition open_write (path : str) : IO () :=
  syscall;;
  e ← get_state; modify (set_files (<[path := []]> (files e))).

(** [f.write(...)] of the whole contents, and the close that flushes them. *)
Definition write_bytes (path : str) (bs : list byte) : IO () :=
  syscall;;
  e ← get_state; modify (set_files (<[path := bs]> (files e))).

(** [json.dumps(v, indent=2)]: one item per line, two spaces per level;
    the keys stay in insertion order. *)
Definition newline_indent (level : nat) : str :=
  [10%N] ++ concat (repeat (lit "  ") level).

Fixpoint dumps_indent (level : nat) (v : json) : str :=
  match v with
  | JNull => lit "null"
  | JBool true => lit "true"
  | JBool false => lit "false"
  | JInt n => str_of_int n
  | JFloat x => floatstr x
  | JStr s => encode_basestring_ascii s
  | JArr l =>
      match l with
      | [] => lit "[]"
      | _ =>
          lit "[" ++ newline_indent (S level)
          ++ str_join (lit "," ++ newline_indent (S level))
               (map (dumps_indent (S level)) l)
          ++ newline_indent level ++ lit "]"
      end
  | JObj l =>
      match l with
      | [] => lit "{}"
      | _ =>
          lit "{" ++ newline_indent (S level)
          ++ str_join (lit "," ++ newline_indent (S level))
               (map (λ kv, encode_basestring_ascii kv.1 ++ lit ": "
                           ++ dumps_indent (S level) kv.2) l)
          ++ newline_indent level ++ lit "}"
      end
  end.

Record SkeletonUploadRequest := {
  sk_filename : str;
  sk_data : list (str * json);
}.

Record SkeletonUploadResponse := {
  sk_skeleton_id : str;
  sk_stored_path : str;
  sk_frame_count : Z;
  sk_fps : float;
}.

(** The [if]/[elif] chain of [upload_skeleton]: the length of the first of
    [data], [keypoints], [frames], [skeleton] that is present and a list. *)
Definition frame_count (data : list (str * json)) : Z :=
  match dict_lookup (lit "data") data with
  | Some (JArr l) => Z.of_nat (length l)
  | _ =>
  match dict_lookup (lit "keypoints") data with
  | Some (JArr l) => Z.of_nat (length l)
  | _ =>
  match dict_lookup (lit "frames") data with
  | Some (JArr l) => Z.of_nat (length l)
  | _ =>
  match dict_lookup (lit "skeleton") data with
  | Some (JArr l) => Z.of_nat (length l)
  | _ => 0
  end end end end.

Definition upload_skeleton (request : SkeletonUploadRequest)
    : IO SkeletonUploadResponse :=
  skeleton_id ← uuid4;
  let file_path := path_join SKELETONS_DIR (skeleton_id ++ lit ".json") in
  try_except
    (open_write file_path;;
     uploaded_at ← utcnow_isoformat_Z;
     bs ← of_res (str_encode
                    (dumps_indent 0
                       (JObj [(lit "filename", JStr (sk_filename request));
                              (lit "data", JObj (sk_data request));
                              (lit "uploaded_at", JStr uploaded_at)])));
     write_bytes file_path bs)
    (λ e, raise (HTTPException 500
                   (lit "Failed to save skeleton data: " ++ exn_str e)));;
  mret {| sk_skeleton_id := skeleton_id;
          sk_stored_path := file_path;
          sk_frame_count := frame_count (sk_data request);
          sk_fps := of_int 30 |}.

(** What [upload_video] takes from the libraries: [PurePath.suffix],
    [str.lower], and the order in which this process iterates over a set of
    strings (it follows their hashes). *)
Variable path_suffix : str → str.
Variable str_lower : str → str.
Variable set_iter : gset str → list str.

Record UploadFile := {
  uf_filename : option str;
  (** what [await file.read()] yields *)
  uf_content : list byte;
}.

Record VideoUploadResponse := {
  v_video_id : str;
  v_stored_path : str;
  v_duration : float;
  v_fps : float;
}.

Definition allowed_extensions : gset str :=
  {[ lit ".mp4"; lit ".mov"; lit ".avi"; lit ".mkv"; lit ".webm" ]}.

Definition upload_video (file : UploadFile) : IO VideoUploadResponse :=
  match uf_filename file with
  | None | Some [] => raise (HTTPException 400 (lit "No filename provided"))
  | Some filename =>
      let ext := str_lower (path_suffix filename) in
      if decide (ext ∉ allowed_extensions) then
        raise (HTTPException 400
                 (lit "Invalid file type. Allowed: "
                  ++ str_join (lit ", ") (set_iter allowed_extensions)))
      else
        video_id ← uuid4;
        let file_path := path_join UPLOADS_DIR (video_id ++ ext) in
        try_except
          (syscall;;
           open_write file_path;;
           write_bytes file_path (uf_content file))
          (λ e, raise (HTTPException 500 (lit "Failed to save file: " ++ exn_str e)));;
        let '(duration, fps) := get_video_info file_path in
        mret {| v_video_id := video_id;
                v_stored_path := file_path;
                v_duration := duration;
                v_fps := fps |}
  end.

End process.

Abbreviation IO := (SE env).
Abbreviation M := (SE world).
Abbreviation loc := positive.

(** ** A small runtime, to run the model on examples

    Its generator is a linear congruential one, its hash a polynomial one,
    its parser and validators are trivial.  The theorems below hold for
    every instance of [Runtime], so also for CPython's. *)
Definition example_float_repr (x : float) : str :=
  str_of_int (units x / scale) ++ lit "."
  ++ str_of_int (rhe ((units x mod scale) * 10000) scale).

Lemma example_float_repr_ascii x : Forall (λ c, (c < 128)%N) (example_float_repr x).
Proof.
  unfold example_float_repr. repeat (apply Forall_app; split).
  - apply str_of_int_ascii.
  - repeat constructor; done.
  - apply str_of_int_ascii.
Qed.

Definition example_runtime : Runtime := {|
  float_repr := example_float_repr;
  float_repr_ascii := example_float_repr_ascii;
  str_hash := λ s, foldl (λ h c, (h * 31 + Z.of_N c) mod 2 ^ 61) 7 s - 2 ^ 60;
  mt_state := Z;
  init_by_array := λ seed, seed mod 2 ^ 32;
  genrand_uint32 := λ g, let g' := (g * 1664525 + 1013904223) mod 2 ^ 32 in (g', g');
  utc_isoformat := λ n, lit "2024-01-01T00:00:" ++ str_of_int (Z.of_nat n);
  uuid4_str := λ n, lit "job-" ++ str_of_int (Z.of_nat n);
  json_load := λ bs,
    match bs with
    | [] => Raise (Exn "JSONDecodeError" (lit "Expecting value: line 1 column 1 (char 0)"))
    | _ => Ret (JObj [(lit "data", JArr (map (λ b, JInt (Sha256.byte_val b)) bs))])
    end;
  json_dumps_indent := λ v, lit "{}";
  model_validate := λ _ v, Ret v;
|}.

(** The fingerprints of CPython for the same documents. *)
Example compute_data_hash_ex1 :
  @compute_data_hash example_runtime
    (JObj [(lit "b", JArr [JInt 1; JNull; JBool true]);
           (lit "a", JObj [(lit "z", JStr (lit "x" ++ [34%N] ++ lit "yé" ++ [10%N]));
                           (lit "k", JInt (-3))])])
  = Ret (lit "aaa1461732e3d732").
Proof. vm_compute. reflexivity. Qed.

Example compute_data_hash_ex2 :
  @compute_data_hash example_runtime
    (JObj [(lit "b", JArr [JInt 1; JNull; JBool true]);
           (lit "a", JObj [(lit "z", JStr (lit "x" ++ [34%N] ++ lit "yé" ++ [10; 127; 128512; 92; 9]%N));
                           (lit "k", JInt (-3))]);
           (lit "", JArr []);
           (lit "e", JObj []);
           (lit "ab", JBool false);
           (lit "B", JInt (10 ^ 20))])
  = Ret (lit "9a844daeaf7db51a").
Proof. vm_compute. reflexivity. Qed.

Example compute_data_hash_ex3 :
  @compute_data_hash example_runtime (JArr []) = Ret (lit "4f53cda18c2baa0c") ∧
  @compute_data_hash example_runtime (JStr (lit "x")) = Ret (lit "ba2df4903a2c14e8") ∧
  @compute_data_hash example_runtime JNull = Ret (lit "74234e98afe7498f").
Proof. vm_compute. repeat split. Qed.

Definition example_env (fs : gmap str (list byte)) (faults : list (option exn)) : @env example_runtime :=
  @Env example_runtime fs faults 0 0 0.

Example compute_file_hash_ex :
  (@compute_file_hash example_runtime (lit "/srv/uploads/a.mp4")
     (example_env {[ lit "/srv/uploads/a.mp4" := ["000"; "001"; "002"]%byte ]} [])).1
  = Ret (lit "ae4b3280e56e2faf").
Proof. vm_compute. reflexivity. Qed.

(** Two chunks and an empty read. *)
Example compute_file_hash_chunks :
  (@compute_file_hash example_runtime (lit "a.mp4")
     (example_env
        {[ lit "a.mp4" := concat (repeat (map (λ i, Sha256.byte_of (Z.of_nat i)) (seq 0 256)) 33) ]}
        [])).1
  = Ret (lit "2b787fd8a97e93a6").
Proof. vm_compute. reflexivity. Qed.

(** * Properties of the content hasher *)
Section content_hasher.
Context `{Runtime}.

Definition no_faults (e : env) : Prop := Forall (λ f, f = None) (faults e).

Lemma syscall_no_faults e :
  no_faults e → ∃ e', syscall e = (Ret (), e') ∧ files e' = files e ∧ no_faults e'.
Proof.
  unfold no_faults, syscall, mbind, se_bind, get_state. intros Hf.
  destruct (faults e) as [|[x|] fs] eqn:E.
  - exists e. rewrite E. done.
  - by apply Forall_cons in Hf as [? _].
  - apply Forall_cons in Hf as [_ Hfs]. eexists. split; [done|]. done.
Qed.

Lemma update_chunks_no_faults unread sha256 e :
  no_faults e →
  ∃ e', update_chunks unread sha256 e = (Ret (sha256 ++ unread), e')
        ∧ files e' = files e ∧ no_faults e'.
Proof.
  revert e. funelim (update_chunks unread sha256); intros e He.
  - destruct (syscall_no_faults e He) as (e' & Hs & Hf & Hn).
    exists e'. rewrite app_nil_r. unfold mbind, se_bind. rewrite Hs. done.
  - destruct (syscall_no_faults e He) as (e1 & Hs & Hf & Hn).
    match goal with IH : () → env → _ |- _ =>
      destruct (IH () e1 e1 Hn) as (e2 & Hu & Hf2 & Hn2) end.
    exists e2. unfold mbind, se_bind. rewrite Hs, Hu.
    rewrite <-app_assoc, take_drop. split; [done|]. split; [congruence|done].
Qed.

Lemma update_chunks_returns unread sha256 e m e' :
  update_chunks unread sha256 e = (Ret m, e') → ∃ bs, m = sha256 ++ bs.
Proof.
  revert e m e'. funelim (update_chunks unread sha256); intros e m e'.
  - unfold mbind, se_bind. destruct (syscall e) as [[[]|x] e1]; [|done].
    intros [= <- <-]. exists []. by rewrite app_nil_r.
  - unfold mbind, se_bind. destruct (syscall e) as [[[]|x] e1]; [|done].
    intros Hu.
    match goal with IH : () → env → _ |- _ =>
      destruct (IH () e1 _ _ _ Hu) as [bs' ->] end.
    eexists. by rewrite <-app_assoc.
Qed.

Lemma fingerprint_shape (msg : list byte) :
  length (take 16 (Sha256.hexdigest msg)) = 16%nat
  ∧ Forall Sha256.is_hex (take 16 (Sha256.hexdigest msg)).
Proof.
  split.
  - rewrite length_take, Sha256.hexdigest_length. done.
  - apply Forall_take, Sha256.hexdigest_is_hex.
Qed.

Lemma str_encode_from_ascii s pos :
  is_ascii s → ∃ bs, str_encode_from pos s = Ret bs.
Proof.
  revert pos. induction s as [|c s IH]; intros pos Hs; simpl; [by eexists|].
  apply Forall_cons in Hs as [Hc Hs].
  destruct (55296 <=? c)%N eqn:E; [apply N.leb_le in E; lia|]. simpl.
  destruct (IH (S pos) Hs) as [bs ->]. by eexists.
Qed.

Lemma compute_data_hash_returns data :
  ∃ bs, compute_data_hash data = Ret (take 16 (Sha256.hexdigest bs)).
Proof.
  unfold compute_data_hash, str_encode.
  destruct (str_encode_from_ascii (dumps data) 0 (dumps_ascii data)) as [bs ->].
  by exists bs.
Qed.

Lemma compute_file_hash_returns file_path e h e' :
  compute_file_hash file_path e = (Ret h, e') →
  ∃ bs, h = take 16 (Sha256.hexdigest bs).
Proof.
  unfold compute_file_hash, mbind, se_bind.
  destruct (open_read file_path e) as [[f|x] e1]; [|done].
  destruct (update_chunks f [] e1) as [[m|x] e2]; [|done].
  intros [= <- <-]. by exists m.
Qed.

Lemma open_read_no_faults path e bs :
  files e !! path = Some bs → no_faults e →
  ∃ e', open_read path e = (Ret bs, e') ∧ files e' = files e ∧ no_faults e'.
Proof.
  intros Hfile He. destruct (syscall_no_faults e He) as (e1 & Hs & Hf & Hn).
  exists e1. unfold open_read, mbind, se_bind, get_state. rewrite Hs, Hf, Hfile. done.
Qed.

(** A readable file is hashed whole: the chunked loop feeds every byte. *)
Lemma compute_file_hash_no_faults file_path e bs :
  files e !! file_path = Some bs → no_faults e →
  ∃ e', compute_file_hash file_path e = (Ret (take 16 (Sha256.hexdigest bs)), e').
Proof.
  intros Hfile He.
  destruct (open_read_no_faults file_path e bs Hfile He) as (e1 & Ho & Hf1 & Hn1).
  destruct (update_chunks_no_faults bs [] e1 Hn1) as (e2 & Hu & Hf2 & Hn2).
  exists e2. unfold compute_file_hash, mbind, se_bind. rewrite Ho, Hu. done.
Qed.

(** C8. [compute_data_hash] ([hash_structured]) gives the same fingerprint
    to two documents that are the same data with their mapping keys in
    different insertion orders: [json.dumps(..., sort_keys=True)] writes
    the same text for both, and the digest is taken of that text. *)
Theorem compute_data_hash_key_order (d1 d2 : json) :
  distinct_keys d1 = true → same_doc d1 d2 →
  compute_data_hash d1 = compute_data_hash d2.
Proof.
  intros Hk Hsame. unfold compute_data_hash.
  by rewrite (dumps_same_doc d1 d2 Hk Hsame).
Qed.

(** C10. Every fingerprint of the content hasher is 16 hexadecimal
    characters: [compute_data_hash] returns one for every document;
    [compute_file_hash] returns one whenever it returns, and it does return
    (the truncated digest of the file's bytes) for a file that exists when
    no system call fails. *)
Theorem fingerprint_is_16_hex :
  (∀ data : json, ∃ h,
      compute_data_hash data = Ret h
      ∧ length h = 16%nat ∧ Forall Sha256.is_hex h)
  ∧ (∀ file_path e h e',
      compute_file_hash file_path e = (Ret h, e') →
      length h = 16%nat ∧ Forall Sha256.is_hex h)
  ∧ (∀ file_path e bs,
      files e !! file_path = Some bs → no_faults e →
      ∃ h e', compute_file_hash file_path e = (Ret h, e')
              ∧ h = take 16 (Sha256.hexdigest bs)
              ∧ length h = 16%nat ∧ Forall Sha256.is_hex h).
Proof.
  split; [|split].
  - intros data. destruct (compute_data_hash_returns data) as [bs Hd]. rewrite Hd.
    eexists. split; [done|]. apply fingerprint_shape.
  - intros path e h e' Hc.
    destruct (compute_file_hash_returns _ _ _ _ Hc) as [bs ->]. apply fingerprint_shape.
  - intros path e bs Hfile He.
    destruct (compute_file_hash_no_faults path e bs Hfile He) as [e' Hc].
    eexists _, e'. split; [exact Hc|]. split; [done|]. apply fingerprint_shape.
Qed.

End content_hasher.

(** * Properties of the placeholder model *)
Section prediction.
Context `{Runtime}.
Variable LABEL_MAP : list (str * json).

(** The generator after [random.seed(hash(f"{behavior_id}_{input_hash}"))]. *)
Definition seeded (behavior_id input_hash : str) : mt_state :=
  init_by_array (Z.abs (str_hash (behavior_id ++ lit "_" ++ input_hash))).

(** One [random.random()]: its value and the generator it leaves. *)
Definition random_draw (g : mt_state) : float * mt_state :=
  let '(x, g1) := genrand_uint32 g in
  let '(y, g2) := genrand_uint32 g1 in
  (fmul (fadd (fmul (of_int (Z.shiftr (x mod 2 ^ 32) 5)) (of_int 67108864))
              (of_int (Z.shiftr (y mod 2 ^ 32) 6)))
        (dec 1 9007199254740992),
   g2).

Lemma random_random_run e :
  random_random e
  = (Ret (random_draw (rng e)).1, set_rng (random_draw (rng e)).2 e).
Proof.
  unfold random_random, random_draw, mbind, se_bind, get_state, modify, mret, se_ret.
  destruct (genrand_uint32 (rng e)) as [x g1].
  destruct (genrand_uint32 g1) as [y g2]. done.
Qed.

(** The largest value [random.random()] can take, [1 - 2^-53]. *)
Definition random_max : float :=
  fmul (fadd (fmul (of_int (2 ^ 27 - 1)) (of_int 67108864)) (of_int (2 ^ 26 - 1)))
       (dec 1 9007199254740992).

Lemma random_max_below_one : units random_max = scale - 2 ^ 1021.
Proof. vm_compute. reflexivity. Qed.

Lemma shiftr_mod_range x k : 0 ≤ k ≤ 32 → 0 ≤ Z.shiftr (x mod 2 ^ 32) k ≤ 2 ^ (32 - k) - 1.
Proof.
  intros Hk. rewrite Z.shiftr_div_pow2 by lia.
  pose proof (Z.mod_pos_bound x (2 ^ 32) ltac:(lia)) as Hx.
  assert (0 < 2 ^ k) by (apply Z.pow_pos_nonneg; lia).
  split; [apply Z.div_pos; lia|].
  assert ((x mod 2 ^ 32) / 2 ^ k < 2 ^ (32 - k)); [|lia].
  apply Z.div_lt_upper_bound; [lia|].
  rewrite <-Z.pow_add_r by lia. replace (k + (32 - k)) with 32 by lia. lia.
Qed.

(** [random.random()] lies in [0, 1). *)
Lemma random_draw_range g :
  0 ≤ units (random_draw g).1 ≤ units random_max.
Proof.
  unfold random_draw.
  destruct (genrand_uint32 g) as [x g1]. destruct (genrand_uint32 g1) as [y g2].
  cbn [fst].
  pose proof (shiftr_mod_range x 5 ltac:(lia)) as Ha.
  pose proof (shiftr_mod_range y 6 ltac:(lia)) as Hb.
  change (32 - 5) with 27 in Ha. change (32 - 6) with 26 in Hb.
  set (a := Z.shiftr (x mod 2 ^ 32) 5) in *.
  set (b := Z.shiftr (y mod 2 ^ 32) 6) in *.
  assert (Hz : units (fmul (fadd (fmul (of_int 0) (of_int 67108864)) (of_int 0))
                      (dec 1 9007199254740992)) = 0) by (vm_compute; reflexivity).
  assert (H0a : units (of_int 0) = 0) by (vm_compute; reflexivity).
  assert (Hk : 0 ≤ units (of_int 67108864)) by (vm_compute; discriminate).
  assert (Hd : 0 ≤ units (dec 1 9007199254740992)) by (vm_compute; discriminate).
  assert (Hoa : 0 ≤ units (of_int a) ≤ units (of_int (2 ^ 27 - 1))).
  { rewrite <-H0a. split; apply of_int_mono; lia. }
  assert (Hob : 0 ≤ units (of_int b) ≤ units (of_int (2 ^ 26 - 1))).
  { rewrite <-H0a. split; apply of_int_mono; lia. }
  assert (Hm0 : units (fmul (of_int 0) (of_int 67108864)) = 0) by (vm_compute; reflexivity).
  assert (Hma : 0 ≤ units (fmul (of_int a) (of_int 67108864))
                ≤ units (fmul (of_int (2 ^ 27 - 1)) (of_int 67108864))).
  { rewrite <-Hm0. split; apply fmul_mono; lia. }
  assert (Hs0 : units (fadd (fmul (of_int 0) (of_int 67108864)) (of_int 0)) = 0)
    by (vm_compute; reflexivity).
  assert (Hsa : 0 ≤ units (fadd (fmul (of_int a) (of_int 67108864)) (of_int b))
                ≤ units (fadd (fmul (of_int (2 ^ 27 - 1)) (of_int 67108864))
                              (of_int (2 ^ 26 - 1)))).
  { rewrite <-Hs0. split; apply fadd_mono; lia. }
  rewrite <-Hz at 1. unfold random_max. split; apply fmul_mono; lia.
Qed.

Lemma bisect_step a x lo hi :
  bisect a x lo hi
  = if decide (lo < hi)%nat then
      if flt x (nth (midpoint lo hi) a (Float 0)) then bisect a x lo (midpoint lo hi)
      else bisect a x (midpoint lo hi + 1) hi
    else lo.
Proof. rewrite bisect_equation_1. destruct (decide (lo < hi)%nat); reflexivity. Qed.

Lemma bisect_range a x lo hi : (lo ≤ hi)%nat → (lo ≤ bisect a x lo hi ≤ hi)%nat.
Proof.
  funelim (bisect a x lo hi); intros Hle; [|lia].
  match goal with Hlt : (lo < hi)%nat |- _ => pose proof (midpoint_bounds lo hi Hlt) end.
  destruct (flt x _); lia.
Qed.

(** The search over three cumulative weights, written out. *)
Lemma bisect_three c0 c1 c2 x :
  bisect [c0; c1; c2] x 0 2
  = if flt x c1 then (if flt x c0 then 0 else 1)%nat else 2%nat.
Proof.
  rewrite bisect_step. case_decide; [|lia].
  change (midpoint 0 2) with 1%nat. cbn [nth Nat.add].
  destruct (flt x c1).
  - rewrite bisect_step. case_decide; [|lia].
    change (midpoint 0 1) with 0%nat. cbn [nth Nat.add].
    destruct (flt x c0); rewrite bisect_step; case_decide; done || lia.
  - rewrite bisect_step. case_decide; [lia|done].
Qed.

Definition cum_0 : float := dec 2 10.
Definition cum_1 : float := fadd cum_0 (dec 35 100).
Definition cum_2 : float := fadd cum_1 (dec 45 100).
Definition total_weight : float := fadd cum_2 (of_int 0).

(** The cumulative weights are 0.2, 0.55 and 1.0, and their total 1.0. *)
Lemma cum_weights_values :
  cum_0 = dec 2 10 ∧ cum_1 = dec 55 100 ∧ cum_2 = of_int 1 ∧ total_weight = of_int 1.
Proof. vm_compute. done. Qed.

(** The score drawn from [random() = r]: the index of the first cumulative
    weight that exceeds [r * total]. *)
Definition drawn_score (r : float) : Z :=
  let x := fmul r total_weight in
  if flt x cum_1 then (if flt x cum_0 then 0 else 1) else 2.

(** The confidence drawn from [random() = r]. *)
Definition drawn_confidence (r : float) : float :=
  round_ndigits (fadd (dec 65 100) (fmul (fsub (dec 95 100) (dec 65 100)) r)) 4.

Lemma drawn_score_range r : drawn_score r ∈ [0; 1; 2].
Proof. unfold drawn_score. repeat case_match; set_solver. Qed.

Lemma drawn_confidence_range r :
  0 ≤ units r ≤ units random_max →
  units (dec 65 100) ≤ units (drawn_confidence r) ≤ units (dec 95 100).
Proof.
  intros Hr. unfold drawn_confidence.
  set (a := dec 65 100). set (c := fsub (dec 95 100) a).
  assert (Hc : 0 ≤ units c) by (vm_compute; discriminate).
  assert (Hlo : units (round_ndigits (fadd a (fmul c (Float 0))) 4) = units a)
    by (vm_compute; reflexivity).
  assert (Hhi : units (round_ndigits (fadd a (fmul c random_max)) 4) ≤ units (dec 95 100))
    by (vm_compute; discriminate).
  rewrite <-Hlo at 1. split; [|etrans; [|exact Hhi]].
  - apply round_ndigits_mono; [lia|]. apply fadd_mono; [lia|].
    apply fmul_mono_r; [exact Hc|]. cbn [units]. lia.
  - apply round_ndigits_mono; [lia|]. apply fadd_mono; [lia|].
    apply fmul_mono_r; [exact Hc|]. lia.
Qed.

Lemma random_choices_run e :
  random_choices [0; 1; 2] [dec 2 10; dec 35 100; dec 45 100] e
  = (Ret [drawn_score (random_draw (rng e)).1], set_rng (random_draw (rng e)).2 e).
Proof.
  unfold random_choices. cbv zeta.
  change (accumulate [dec 2 10; dec 35 100; dec 45 100]) with [cum_0; cum_1; cum_2].
  cbn [length last]. case_decide; [done|].
  change (fadd cum_2 (of_int 0)) with total_weight.
  assert (fle total_weight (of_int 0) = false) as -> by (vm_compute; reflexivity).
  unfold mbind, se_bind. rewrite random_random_run, bisect_three.
  unfold drawn_score. cbv zeta.
  destruct (flt _ cum_1); [destruct (flt _ cum_0)|]; reflexivity.
Qed.

Lemma random_uniform_run a b e :
  random_uniform a b e
  = (Ret (fadd a (fmul (fsub b a) (random_draw (rng e)).1)),
     set_rng (random_draw (rng e)).2 e).
Proof. unfold random_uniform, mbind, se_bind. by rewrite random_random_run. Qed.

(** *** The result depends on the generator only *)












(** *** A catalog of the documented shape never makes the model fail *)

Definition is_dict (v : json) : bool :=
  match v with JObj _ => true | _ => false end.

(** A rubric: a dict whose [labels] and [labels_es], when present, are
    dicts (from score to text). *)
Definition rubric_ok (v : json) : bool :=
  match v with
  | JObj l =>
      is_dict (default (JObj []) (dict_lookup (lit "labels") l))
      && is_dict (default (JObj []) (dict_lookup (lit "labels_es") l))
  | _ => false
  end.

Definition catalog_ok (m : list (str * json)) : bool :=
  forallb (λ kv, rubric_ok kv.2) m.

(** The per-score texts of a behavior in one language ([labels] or
    [labels_es]); none when the behavior or the field is absent. *)
Definition labels_of (behavior_id field : str) : list (str * json) :=
  match default (JObj []) (dict_lookup behavior_id LABEL_MAP) with
  | JObj l =>
      match default (JObj []) (dict_lookup field l) with
      | JObj ll => ll
      | _ => []
      end
  | _ => []
  end.

Definition rubric_of (behavior_id field : str) (pred : Z) : json :=
  default (JStr []) (dict_lookup (str_of_int pred) (labels_of behavior_id field)).

(** The prediction made from the two draws [r1] and [r2]. *)
Definition prediction_of (behavior_id : str) (r1 r2 : float) : json :=
  JObj [(lit "behavior_id", JStr behavior_id);
        (lit "pred", JInt (drawn_score r1));
        (lit "confidence", JFloat (Fin (drawn_confidence r2)));
        (lit "rubric_text", rubric_of behavior_id (lit "labels") (drawn_score r1));
        (lit "rubric_text_es", rubric_of behavior_id (lit "labels_es") (drawn_score r1))].

Lemma catalog_ok_lookup m behavior_id :
  catalog_ok m = true →
  rubric_ok (default (JObj []) (dict_lookup behavior_id m)) = true.
Proof.
  intros Hok. induction m as [|[k v] m IH]; [done|].
  simpl in Hok. apply andb_prop in Hok as [Hv Hm].
  simpl. case_decide; [done|]. by apply IH.
Qed.

Lemma dict_lookup_not_in behavior_id (m : list (str * json)) :
  behavior_id ∉ m.*1 → dict_lookup behavior_id m = None.
Proof.
  induction m as [|[k v] m IH]; [done|]. simpl. intros Hnot.
  case_decide; [set_solver|]. apply IH. set_solver.
Qed.

Lemma generate_dummy_prediction_run behavior_id input_hash e :
  catalog_ok LABEL_MAP = true →
  let d1 := random_draw (seeded behavior_id input_hash) in
  let d2 := random_draw d1.2 in
  generate_dummy_prediction LABEL_MAP behavior_id input_hash e
  = (Ret (prediction_of behavior_id d1.1 d2.1), set_rng d2.2 e).
Proof.
  intros Hok d1 d2.
  pose proof (catalog_ok_lookup _ behavior_id Hok) as Hb.
  unfold generate_dummy_prediction, prediction_of, rubric_of, labels_of.
  unfold mbind, se_bind, random_seed, modify.
  unfold dict_get at 1. unfold mret, se_ret.
  destruct (default (JObj []) (dict_lookup behavior_id LABEL_MAP)) as [| | | | | |lb];
    try discriminate Hb.
  cbn [rubric_ok] in Hb. apply andb_prop in Hb as [Hl Hles].
  unfold dict_get at 1 2.
  destruct (default (JObj []) (dict_lookup (lit "labels") lb)) as [| | | | | |ll];
    try discriminate Hl.
  destruct (default (JObj []) (dict_lookup (lit "labels_es") lb)) as [| | | | | |lle];
    try discriminate Hles.
  unfold mret, se_ret. cbv beta iota.
  rewrite random_choices_run. cbv beta iota. cbn [first_item].
  unfold mret, se_ret. cbv beta iota.
  rewrite random_uniform_run. cbv beta iota. cbn [rng set_rng dict_get].
  unfold mret, se_ret. cbv beta iota.
  destruct e; reflexivity.
Qed.

(** C5. The prediction holds a score in {0, 1, 2} and a confidence in
    [0.65, 0.95].  With [r1] and [r2] the two successive values of
    [random.random()] after seeding: the score is the index of the first of
    the cumulative weights 0.2, 0.55, 1.0 (of the weights 0.20, 0.35, 0.45)
    that exceeds [r1 * total]; the confidence is
    [0.65 + (0.95 - 0.65) * r2] rounded to 4 decimals.  (The catalog has the
    documented shape, so that a prediction is returned.) *)
Theorem prediction_score_and_confidence (behavior_id input_hash : str) (e : env) :
  catalog_ok LABEL_MAP = true →
  ∃ (r1 r2 : float) (pred : Z) (confidence : float) (rubric_text rubric_text_es : json),
    (generate_dummy_prediction LABEL_MAP behavior_id input_hash e).1
    = Ret (JObj [(lit "behavior_id", JStr behavior_id);
                 (lit "pred", JInt pred);
                 (lit "confidence", JFloat (Fin confidence));
                 (lit "rubric_text", rubric_text);
                 (lit "rubric_text_es", rubric_text_es)])
    ∧ r1 = (random_draw (seeded behavior_id input_hash)).1
    ∧ r2 = (random_draw (random_draw (seeded behavior_id input_hash)).2).1
    ∧ 0 ≤ units r1 < units (of_int 1) ∧ 0 ≤ units r2 < units (of_int 1)
    ∧ accumulate [dec 2 10; dec 35 100; dec 45 100] = [dec 2 10; dec 55 100; of_int 1]
    ∧ pred ∈ [0; 1; 2]
    ∧ (pred = 0 ↔ units (fmul r1 (of_int 1)) < units (dec 2 10))
    ∧ (pred = 1 ↔ units (dec 2 10) ≤ units (fmul r1 (of_int 1)) < units (dec 55 100))
    ∧ (pred = 2 ↔ units (dec 55 100) ≤ units (fmul r1 (of_int 1)))
    ∧ confidence
      = round_ndigits (fadd (dec 65 100) (fmul (fsub (dec 95 100) (dec 65 100)) r2)) 4
    ∧ units (dec 65 100) ≤ units confidence ≤ units (dec 95 100).
Proof.
  intros Hok. rewrite (generate_dummy_prediction_run _ _ _ Hok). cbn [fst].
  set (g0 := seeded behavior_id input_hash).
  pose proof (random_draw_range g0) as Hr1.
  pose proof (random_draw_range (random_draw g0).2) as Hr2.
  assert (Hmax : units random_max < units (of_int 1)) by (vm_compute; reflexivity).
  destruct cum_weights_values as (Hc0 & Hc1 & Hc2 & Htot).
  assert (Hlt : units (dec 2 10) < units (dec 55 100)) by (vm_compute; reflexivity).
  eexists _, _, _, _, _, _. split; [reflexivity|].
  split; [reflexivity|]. split; [reflexivity|].
  split; [lia|]. split; [lia|].
  split; [vm_compute; reflexivity|].
  split; [apply drawn_score_range|].
  assert (Hconf := drawn_confidence_range (random_draw (random_draw g0).2).1
                     ltac:(lia)).
  unfold drawn_score. cbv zeta. rewrite Htot, Hc1, Hc0. unfold flt.
  set (x := units (fmul (random_draw g0).1 (of_int 1))).
  set (c0 := units (dec 2 10)) in *. set (c1 := units (dec 55 100)) in *.
  clearbody x c0 c1.
  split; [|split; [|split; [|split; [reflexivity|exact Hconf]]]];
    destruct (Z.ltb_spec x c1), (Z.ltb_spec x c0); split; intros; lia.
Qed.

(** C9. The model never fails, whatever the behavior identifier and the
    fingerprint: it returns a prediction with a score in {0, 1, 2} and a
    confidence in [0.65, 0.95]; a text that the catalog lacks for the drawn
    score is the empty string, and so are both texts of a behavior that is
    not in the catalog.  (The catalog has the documented shape: each entry
    a dict whose [labels] and [labels_es], when present, are dicts.) *)
Theorem generate_dummy_prediction_total (behavior_id input_hash : str) (e : env) :
  catalog_ok LABEL_MAP = true →
  ∃ (pred : Z) (confidence : float) (rubric_text rubric_text_es : json),
    (generate_dummy_prediction LABEL_MAP behavior_id input_hash e).1
    = Ret (JObj [(lit "behavior_id", JStr behavior_id);
                 (lit "pred", JInt pred);
                 (lit "confidence", JFloat (Fin confidence));
                 (lit "rubric_text", rubric_text);
                 (lit "rubric_text_es", rubric_text_es)])
    ∧ pred ∈ [0; 1; 2]
    ∧ units (dec 65 100) ≤ units confidence ≤ units (dec 95 100)
    ∧ (dict_lookup (str_of_int pred) (labels_of behavior_id (lit "labels")) = None →
       rubric_text = JStr [])
    ∧ (dict_lookup (str_of_int pred) (labels_of behavior_id (lit "labels_es")) = None →
       rubric_text_es = JStr [])
    ∧ (behavior_id ∉ BEHAVIOR_IDS LABEL_MAP →
       rubric_text = JStr [] ∧ rubric_text_es = JStr []).
Proof.
  intros Hok. rewrite (generate_dummy_prediction_run _ _ _ Hok). cbn [fst].
  set (g0 := seeded behavior_id input_hash).
  pose proof (random_draw_range (random_draw g0).2) as Hr2.
  eexists _, _, _, _. split; [reflexivity|].
  split; [apply drawn_score_range|].
  split; [apply drawn_confidence_range; lia|].
  unfold rubric_of. split; [by intros ->|]. split; [by intros ->|].
  intros Hnot. unfold labels_of.
  rewrite (dict_lookup_not_in _ _ Hnot). done.
Qed.

End prediction.

(** * Properties of the job runner and of the endpoints *)
Section runner.
Context `{Runtime}.
Variable LABEL_MAP : list (str * json).
Variable DUMMY_MODE : bool.
Variable BASE_DIR : str.

(** ** Reasoning about runs: a postcondition holds of the result and the
    state a computation leaves. *)
Definition wp {S A} (m : SE S A) (Q : res A → S → Prop) (s : S) : Prop :=
  Q (m s).1 (m s).2.

Lemma wp_ret {S A} (a : A) (Q : res A → S → Prop) s :
  Q (Ret a) s → wp (mret a) Q s.
Proof. done. Qed.

Lemma wp_raise {S A} x (Q : res A → S → Prop) s :
  Q (Raise x) s → wp (raise x) Q s.
Proof. done. Qed.

Lemma wp_bind {S A B} (m : SE S A) (k : A → SE S B) (Q : res B → S → Prop) s :
  wp m (λ r s', match r with
                | Ret a => wp (k a) Q s'
                | Raise x => Q (Raise x) s'
                end) s →
  wp (m ≫= k) Q s.
Proof.
  unfold wp, mbind, se_bind. by destruct (m s) as [[a|x] s'].
Qed.

Lemma wp_try_except {S A} (body : SE S A) handler (Q : res A → S → Prop) s :
  wp body (λ r s', match r with
                   | Ret a => Q (Ret a) s'
                   | Raise x => wp (handler x) Q s'
                   end) s →
  wp (try_except body handler) Q s.
Proof.
  unfold wp, try_except. by destruct (body s) as [[a|x] s'].
Qed.

(** Whatever the environment answers, the registry is untouched. *)
Lemma wp_io {A} (m : IO A) (Q : res A → world → Prop) w :
  (∀ r e, Q r (set_os e w)) → wp (io m) Q w.
Proof. intros HQ. unfold wp, io. destruct (m (os w)) as [r e]. apply HQ. Qed.

Lemma wp_with_jobs_lock {A} (body : M A) (Q : res A → world → Prop) w :
  wp body (λ r w', Q r (publish w')) w → wp (with_jobs_lock body) Q w.
Proof. unfold wp, with_jobs_lock. by destruct (body w) as [r w']. Qed.

Lemma wp_jobs_getitem job_id r (Q : res loc → world → Prop) w :
  jobs w !! job_id = Some r → Q (Ret r) w → wp (jobs_getitem job_id) Q w.
Proof.
  intros Hr HQ. unfold wp, jobs_getitem, mbind, se_bind, get_state. by rewrite Hr.
Qed.

Lemma wp_jobs_setitem job_id update r (Q : res () → world → Prop) w :
  jobs w !! job_id = Some r →
  Q (Ret ()) (set_heap (alter update r (heap w)) w) →
  wp (jobs_setitem job_id update) Q w.
Proof.
  intros Hr HQ. unfold jobs_setitem. apply wp_bind.
  eapply wp_jobs_getitem; [done|]. done.
Qed.

Lemma wp_getitem {A} r (field : job → A) j (Q : res A → world → Prop) w :
  heap w !! r = Some j → Q (Ret (field j)) w → wp (getitem r field) Q w.
Proof.
  intros Hj HQ. unfold wp, getitem, mbind, se_bind, get_state. by rewrite Hj.
Qed.

(** ** The updates of the job runner, one per critical section *)

Definition started : job → job :=
  set_progress 5 ∘ set_message (lit "Iniciando procesamiento...")
  ∘ set_status (lit "processing").

Definition staged (stage : Z * str) : job → job :=
  set_message stage.2 ∘ set_progress stage.1.

Definition completed (results : json) : job → job :=
  set_results (Some results) ∘ set_message (lit "Análisis completado")
  ∘ set_progress 100 ∘ set_status (lit "completed").

Definition failed (x : exn) : job → job :=
  set_message (lit "Error: " ++ exn_str x) ∘ set_error (Some (exn_str x))
  ∘ set_status (lit "failed").

(** The heaps published when the updates [fs] are applied to the dict at
    [r], one critical section each, and the states of that dict. *)
Fixpoint heaps_after (r : loc) (fs : list (job → job)) (h : gmap loc job)
    : list (gmap loc job) :=
  match fs with
  | [] => []
  | f :: fs' => alter f r h :: heaps_after r fs' (alter f r h)
  end.

Fixpoint states_after (fs : list (job → job)) (j : job) : list job :=
  match fs with
  | [] => []
  | f :: fs' => f j :: states_after fs' (f j)
  end.

(** [w'] is [w] after the critical sections [fs] on the dict at [r], and
    nothing else done to the registry. *)
Definition ran (r : loc) (fs : list (job → job)) (w w' : world) : Prop :=
  jobs w' = jobs w
  ∧ published w' = published w ++ heaps_after r fs (heap w)
  ∧ heap w' = foldl (λ h f, alter f r h) (heap w) fs.

Ltac wp_step :=
  match goal with
  | |- wp (mret _) _ _ => apply wp_ret
  | |- wp (raise _) _ _ => apply wp_raise
  | |- wp (_ ≫= _) _ _ => apply wp_bind
  | |- wp (io _) _ _ => apply wp_io; intros [?|?] ?
  | |- wp (with_jobs_lock _) _ _ => apply wp_with_jobs_lock
  | |- wp (jobs_setitem _ _) _ _ => eapply wp_jobs_setitem; [eassumption|]
  | |- wp (jobs_getitem _) _ _ => eapply wp_jobs_getitem; [eassumption|]
  | |- wp time_sleep _ _ => apply wp_ret
  | |- wp (if ?b then _ else _) _ _ => destruct b
  | |- wp (match ?x with Ret _ => _ | Raise _ => _ end) _ _ => destruct x
  | |- wp (for_each (stages _) _) _ _ => unfold stages; cbn [for_each]
  | |- wp (getitem _ _) _ _ =>
      eapply wp_getitem;
      [cbn [heap]; rewrite ?lookup_alter_eq;
       match goal with Hj : _ !! _ = Some _ |- _ => rewrite Hj end; reflexivity|]
  end;
  unfold set_heap, set_os, set_jobs, publish;
  cbn [jobs heap published os].

Ltac ran_done :=
  unfold ran, stages, set_heap, set_os, set_jobs, publish;
  cbn [jobs heap published os heaps_after foldl map app];
  unfold started, staged, completed, failed;
  cbn [fst snd];
  rewrite <-?alter_alter_eq, <-?app_assoc;
  cbn [app];
  split; [reflexivity|split; reflexivity].

Lemma run_inference_try_outcome
    input_path input_type behavior_id job_id input_id r j0 w :
  jobs w !! job_id = Some r → heap w !! r = Some j0 →
  wp (run_inference_try LABEL_MAP DUMMY_MODE BASE_DIR
        input_path input_type behavior_id job_id input_id)
     (λ res w',
        match res with
        | Raise x =>
            ran r [started] w w'
            ∨ ran r (started :: map staged (stages behavior_id)) w w'
        | Ret _ =>
            ∃ results,
              ran r (started :: map staged (stages behavior_id)
                       ++ [completed results]) w w'
        end) w.
Proof.
  intros Hr Hj0. destruct w as [jb hp pb o].
  cbn [jobs heap] in Hr, Hj0.
  unfold run_inference_try.
  repeat wp_step.
  all: first [left; ran_done | right; ran_done | eexists; ran_done].
Qed.


Lemma run_inference_except_outcome job_id x r w :
  jobs w !! job_id = Some r →
  wp (run_inference_except job_id x)
     (λ res w', res = Ret () ∧ ran r [failed x] w w') w.
Proof.
  intros Hr. destruct w as [jb hp pb o]. cbn [jobs] in Hr.
  unfold run_inference_except.
  repeat wp_step. split; [reflexivity|ran_done].
Qed.

Lemma heaps_after_app r fs gs h :
  heaps_after r (fs ++ gs) h
  = heaps_after r fs h ++ heaps_after r gs (foldl (λ h f, alter f r h) h fs).
Proof.
  revert h. induction fs as [|f fs IH]; intros h; [done|].
  simpl. by rewrite IH.
Qed.

Lemma ran_app r fs gs w1 w2 w3 :
  ran r fs w1 w2 → ran r gs w2 w3 → ran r (fs ++ gs) w1 w3.
Proof.
  intros (Hj1 & Hp1 & Hh1) (Hj2 & Hp2 & Hh2). repeat split.
  - congruence.
  - by rewrite Hp2, Hp1, Hh1, heaps_after_app, app_assoc.
  - by rewrite Hh2, Hh1, foldl_app.
Qed.

(** What the dict at [r] holds in the published heaps. *)
Lemma heaps_after_states r fs h j :
  h !! r = Some j →
  (λ h', h' !! r) <$> heaps_after r fs h = Some <$> states_after fs j
  ∧ foldl (λ h f, alter f r h) h fs !! r = Some (foldl (λ j f, f j) j fs).
Proof.
  revert h j. induction fs as [|f fs IH]; intros h j Hj; [done|].
  assert (Hf : alter f r h !! r = Some (f j)) by (by rewrite lookup_alter_eq, Hj).
  destruct (IH _ _ Hf) as [IH1 IH2].
  cbn [heaps_after states_after foldl]. rewrite !fmap_cons. by rewrite Hf, IH1, IH2.
Qed.

(** The critical sections of one run, in order: the job is started; then the
    hashing fails, or the five stages are reported and the job completes or
    fails. *)
Inductive run_updates (behavior_id : str) : list (job → job) → Prop :=
| run_hash_failed x :
    run_updates behavior_id [started; failed x]
| run_failed x :
    run_updates behavior_id
      (started :: map staged (stages behavior_id) ++ [failed x])
| run_completed results :
    run_updates behavior_id
      (started :: map staged (stages behavior_id) ++ [completed results]).

(** [run_inference] on a registered job returns, and has made one of the
    three sequences of updates; when its [try] body raised [x], the last
    update is [failed x]. *)
Lemma run_inference_outcome
    input_path input_type behavior_id job_id input_id r j0 w :
  jobs w !! job_id = Some r → heap w !! r = Some j0 →
  ∃ w' fs,
    run_inference LABEL_MAP DUMMY_MODE BASE_DIR
      input_path input_type behavior_id job_id input_id w = (Ret (), w')
    ∧ run_updates behavior_id fs
    ∧ ran r fs w w'
    ∧ (∀ x w1,
         run_inference_try LABEL_MAP DUMMY_MODE BASE_DIR
           input_path input_type behavior_id job_id input_id w = (Raise x, w1) →
         ∃ fs1, fs = fs1 ++ [failed x] ∧ ran r fs1 w w1 ∧ ran r [failed x] w1 w').
Proof.
  intros Hr Hj0.
  pose proof (run_inference_try_outcome input_path input_type behavior_id
                job_id input_id r j0 w Hr Hj0) as Htry.
  unfold wp in Htry. unfold run_inference, try_except.
  destruct (run_inference_try _ _ _ _ _ _ _ _ w) as [[[]|x] w1]; cbn [fst snd] in Htry.
  - destruct Htry as [results Hran].
    exists w1, (started :: map staged (stages behavior_id) ++ [completed results]).
    split; [done|]. split; [constructor|]. split; [done|]. intros x' w1' [=].
  - assert (Hr1 : jobs w1 !! job_id = Some r).
    { destruct Htry as [(-> & _)|(-> & _)]; done. }
    pose proof (run_inference_except_outcome job_id x r w1 Hr1) as Hexc.
    unfold wp in Hexc.
    destruct (run_inference_except job_id x w1) as [res w'].
    cbn [fst snd] in Hexc. destruct Hexc as [-> Hfail].
    destruct Htry as [Hran|Hran].
    + exists w', ([started] ++ [failed x]).
      split; [done|]. split; [constructor|].
      split; [by eapply ran_app|]. intros x' w1' [= <- <-]. by eexists.
    + exists w', ((started :: map staged (stages behavior_id)) ++ [failed x]).
      split; [done|]. split; [constructor|].
      split; [by eapply ran_app|]. intros x' w1' [= <- <-]. by eexists.
Qed.

(** ** The life of a job *)

(** The transitions of the status. *)
Inductive transition : str → str → Prop :=
| pending_processing : transition (lit "pending") (lit "processing")
| processing_processing : transition (lit "processing") (lit "processing")
| processing_completed : transition (lit "processing") (lit "completed")
| processing_failed : transition (lit "processing") (lit "failed").

Definition terminal (status : str) : Prop :=
  status = lit "completed" ∨ status = lit "failed".

(** [R] holds between each element and the next. *)
Fixpoint chain {A} (R : A → A → Prop) (l : list A) : Prop :=
  match l with
  | a :: (b :: _) as l' => R a b ∧ chain R l'
  | _ => True
  end.

Definition status_progress (j : job) : str * Z := (job_status j, job_progress j).

Lemma status_literals_distinct :
  lit "processing" ≠ lit "completed" ∧ lit "processing" ≠ lit "failed"
  ∧ lit "completed" ≠ lit "failed" ∧ lit "pending" ≠ lit "completed"
  ∧ lit "pending" ≠ lit "failed" ∧ lit "pending" ≠ lit "processing".
Proof. repeat split; intros Heq; vm_compute in Heq; discriminate. Qed.

(** The statuses and progress values of the three sequences of updates. *)
Lemma run_updates_status_progress behavior_id fs j0 :
  run_updates behavior_id fs →
  status_progress <$> states_after fs j0
  = [(lit "processing", 5); (lit "failed", 5)]
  ∨ status_progress <$> states_after fs j0
    = [(lit "processing", 5); (lit "processing", 15); (lit "processing", 35);
       (lit "processing", 55); (lit "processing", 75); (lit "processing", 90);
       (lit "failed", 90)]
  ∨ status_progress <$> states_after fs j0
    = [(lit "processing", 5); (lit "processing", 15); (lit "processing", 35);
       (lit "processing", 55); (lit "processing", 75); (lit "processing", 90);
       (lit "completed", 100)].
Proof.
  destruct 1; [left|right; left|right; right]; reflexivity.
Qed.

Lemma last_states_after fs f j :
  last (states_after (fs ++ [f]) j) = Some (foldl (λ j f, f j) j (fs ++ [f])).
Proof.
  revert j. induction fs as [|g fs IH]; intros j; [done|].
  cbn [app states_after foldl]. rewrite <-IH.
  destruct fs; reflexivity.
Qed.

Lemma run_updates_last behavior_id fs :
  run_updates behavior_id fs → ∃ fs' f, fs = fs' ++ [f].
Proof.
  destruct 1.
  - by exists [started], (failed x).
  - by exists (started :: map staged (stages behavior_id)), (failed x).
  - by exists (started :: map staged (stages behavior_id)), (completed results).
Qed.

(** One run, as seen in the published heaps: the states [trace] of the job's
    dict after each critical section, the last of which is its final state. *)
Lemma run_inference_trace
    input_path input_type behavior_id job_id input_id r j0 w :
  jobs w !! job_id = Some r → heap w !! r = Some j0 →
  ∃ w' fs snapshots,
    run_inference LABEL_MAP DUMMY_MODE BASE_DIR
      input_path input_type behavior_id job_id input_id w = (Ret (), w')
    ∧ run_updates behavior_id fs
    ∧ jobs w' = jobs w
    ∧ published w' = published w ++ snapshots
    ∧ (λ h, h !! r) <$> snapshots = Some <$> states_after fs j0
    ∧ heap w' !! r = last (states_after fs j0).
Proof.
  intros Hr Hj0.
  destruct (run_inference_outcome input_path input_type behavior_id job_id
              input_id r j0 w Hr Hj0) as (w' & fs & Hrun & Hupd & Hran & _).
  destruct Hran as (Hjobs & Hpub & Hheap).
  destruct (heaps_after_states r fs (heap w) j0 Hj0) as [Hview Hlast].
  exists w', fs, (heaps_after r fs (heap w)).
  repeat (split; [done|]).
  destruct (run_updates_last _ _ Hupd) as (fs' & f & ->).
  by rewrite Hheap, Hlast, last_states_after.
Qed.

(** The life of a job as (status, progress) pairs, oldest first: each
    status follows from the one before by a transition and the progress
    never decreases; a terminal status is the last one; the life ends in a
    terminal status, with progress 100 exactly when it is [completed]. *)
Definition lifecycle_ok (history : list (str * Z)) : Prop :=
  chain (λ a b, transition a.1 b.1 ∧ a.2 ≤ b.2) history
  ∧ (∀ i s p, history !! i = Some (s, p) → terminal s → S i = length history)
  ∧ (∃ s p, last history = Some (s, p) ∧ terminal s
            ∧ (p = 100 ↔ s = lit "completed")).

Ltac not_terminal :=
  match goal with
  | Hterm : terminal _ |- _ =>
      exfalso; destruct Hterm as [Hterm|Hterm]; vm_compute in Hterm; discriminate
  end.

Ltac lifecycle_tac :=
  split; [cbn [chain fst snd]; repeat split; (constructor || lia)|];
  split;
  [ intros i s p Hi Hterm;
    repeat (destruct i as [|i];
            [cbn in Hi; injection Hi as <- <-; first [reflexivity|not_terminal]|]);
    discriminate Hi
  | eexists _, _; split; [reflexivity|]; split;
    [ first [by left|by right]
    | split; intros Heq; first [reflexivity|lia|vm_compute in Heq; discriminate] ] ].

Lemma lifecycle_hash_failed :
  lifecycle_ok [(lit "pending", 0); (lit "processing", 5); (lit "failed", 5)].
Proof. lifecycle_tac. Qed.

Lemma lifecycle_failed :
  lifecycle_ok
    [(lit "pending", 0);
     (lit "processing", 5); (lit "processing", 15); (lit "processing", 35);
     (lit "processing", 55); (lit "processing", 75); (lit "processing", 90);
     (lit "failed", 90)].
Proof. lifecycle_tac. Qed.

Lemma lifecycle_completed :
  lifecycle_ok
    [(lit "pending", 0);
     (lit "processing", 5); (lit "processing", 15); (lit "processing", 35);
     (lit "processing", 55); (lit "processing", 75); (lit "processing", 90);
     (lit "completed", 100)].
Proof. lifecycle_tac. Qed.

(** C2. On a registered job that is [pending] with progress 0 (as
    [start_inference] creates it), [run_inference] returns after publishing
    the states [trace] of the job: status [processing] with progress 5, then
    either [failed] (the hashing failed), or progress 15, 35, 55, 75, 90 and
    then [completed] with progress 100 or [failed] with progress 90.  So the
    statuses follow pending -> processing -> {completed, failed}, nothing
    follows a terminal status, the progress never decreases and it ends at
    100 exactly when the job is completed. *)
Theorem run_inference_lifecycle
    input_path input_type behavior_id job_id input_id r j0 w :
  jobs w !! job_id = Some r → heap w !! r = Some j0 →
  job_status j0 = lit "pending" → job_progress j0 = 0 →
  ∃ w' snapshots trace,
    run_inference LABEL_MAP DUMMY_MODE BASE_DIR
      input_path input_type behavior_id job_id input_id w = (Ret (), w')
    ∧ published w' = published w ++ snapshots
    ∧ (λ h, h !! r) <$> snapshots = Some <$> trace
    ∧ heap w' !! r = last trace
    ∧ (status_progress <$> trace
       = [(lit "processing", 5); (lit "failed", 5)]
       ∨ status_progress <$> trace
         = [(lit "processing", 5); (lit "processing", 15); (lit "processing", 35);
            (lit "processing", 55); (lit "processing", 75); (lit "processing", 90);
            (lit "failed", 90)]
       ∨ status_progress <$> trace
         = [(lit "processing", 5); (lit "processing", 15); (lit "processing", 35);
            (lit "processing", 55); (lit "processing", 75); (lit "processing", 90);
            (lit "completed", 100)])
    ∧ lifecycle_ok (status_progress <$> j0 :: trace).
Proof.
  intros Hr Hj0 Hstatus Hprogress.
  destruct (run_inference_trace input_path input_type behavior_id job_id
              input_id r j0 w Hr Hj0)
    as (w' & fs & snapshots & Hrun & Hupd & _ & Hpub & Hview & Hlast).
  exists w', snapshots, (states_after fs j0).
  repeat (split; [done|]).
  pose proof (run_updates_status_progress behavior_id fs j0 Hupd) as Hsp.
  split; [exact Hsp|].
  rewrite fmap_cons. unfold status_progress at 1. rewrite Hstatus, Hprogress.
  destruct Hsp as [->|[->| ->]].
  - apply lifecycle_hash_failed.
  - apply lifecycle_failed.
  - apply lifecycle_completed.
Qed.




(** ** Creation *)





(** ** The endpoints *)

Lemma lookup_job_run job_id w :
  lookup_job job_id w = (Ret (jobs w !! job_id), publish w).
Proof. reflexivity. Qed.

Lemma getitem_run {A} r (field : job → A) j w :
  heap w !! r = Some j → getitem r field w = (Ret (field j), w).
Proof.
  intros Hj. unfold getitem, mbind, se_bind, get_state. by rewrite Hj.
Qed.

Lemma job_status_response_run r j w :
  heap w !! r = Some j →
  job_status_response (Some r) w
  = (Ret {| js_status := job_status j; js_progress := job_progress j;
            js_message := job_message j; js_error := job_error j |}, w).
Proof.
  intros Hj. unfold job_status_response, mbind, se_bind.
  by rewrite !(getitem_run _ _ _ _ Hj).
Qed.

(** C6 (as the code has it). [jobs.get(job_id)] under the lock returns the
    reference kept in the registry: no dict is allocated or changed.  A
    later update by the job runner is then seen through the reference the
    reader holds: after [jobs[job_id][key] = v] the reader's reference
    yields the updated dict, and after a whole run of [run_inference] the
    status response built from it reports the job's final state. *)
Theorem lookup_job_is_live_reference job_id w :
  lookup_job job_id w = (Ret (jobs w !! job_id), publish w)
  ∧ heap (publish w) = heap w
  ∧ (∀ r j update,
       jobs w !! job_id = Some r → heap w !! r = Some j →
       ∃ w2, jobs_setitem job_id update (publish w) = (Ret (), w2)
             ∧ heap w2 !! r = Some (update j)
             ∧ ∀ A (field : job → A), (getitem r field w2).1 = Ret (field (update j)))
  ∧ (∀ r j input_path input_type behavior_id input_id,
       jobs w !! job_id = Some r → heap w !! r = Some j →
       ∃ w2 jf,
         run_inference LABEL_MAP DUMMY_MODE BASE_DIR
           input_path input_type behavior_id job_id input_id (publish w)
         = (Ret (), w2)
         ∧ heap w2 !! r = Some jf ∧ terminal (job_status jf)
         ∧ (job_status_response (Some r) w2).1
           = Ret {| js_status := job_status jf; js_progress := job_progress jf;
                    js_message := job_message jf; js_error := job_error jf |}).
Proof.
  split; [reflexivity|]. split; [reflexivity|]. split.
  - intros r j update Hr Hj.
    eexists. split; [|split].
    + unfold jobs_setitem, jobs_getitem, mbind, se_bind, get_state.
      cbn [jobs publish]. rewrite Hr. reflexivity.
    + cbn [heap set_heap publish]. by rewrite lookup_alter_eq, Hj.
    + intros A field. erewrite getitem_run; [reflexivity|].
      cbn [heap set_heap publish]. by rewrite lookup_alter_eq, Hj.
  - intros r j input_path input_type behavior_id input_id Hr Hj.
    destruct (run_inference_trace input_path input_type behavior_id job_id
                input_id r j (publish w) Hr Hj)
      as (w2 & fs & snapshots & Hrun & Hupd & _ & _ & _ & Hlast).
    destruct (run_updates_last _ _ Hupd) as (fs' & f & Hfs).
    rewrite Hfs, last_states_after, <-Hfs in Hlast.
    eexists w2, _. split; [exact Hrun|]. split; [exact Hlast|].
    split; [|by rewrite (job_status_response_run _ _ _ Hlast)].
    destruct Hupd; [right|right|left]; reflexivity.
Qed.

Lemma get_job_results_run job_id w :
  get_job_results BASE_DIR job_id w
  = job_results_response BASE_DIR job_id (jobs w !! job_id) (publish w).
Proof. reflexivity. Qed.

Lemma getitem_dangling {A} r (field : job → A) w :
  heap w !! r = None →
  getitem r field w = (Raise (Exn "SystemError" (lit "dangling reference")), w).
Proof.
  intros Hj. unfold getitem, mbind, se_bind, get_state. by rewrite Hj.
Qed.

(** C7. [get_job_results] answers with the payload only for a job whose
    status is [completed] (the payload built from the results the job
    holds); for a job with another status it raises the 400 "Job not
    completed" error that names the status, for an unknown identifier the
    404 "Job not found" error, and the two errors differ. *)
Theorem get_job_results_outcomes job_id w :
  (jobs w !! job_id = None →
   (get_job_results BASE_DIR job_id w).1
   = Raise (HTTPException 404 (lit "Job not found")))
  ∧ (∀ r j,
       jobs w !! job_id = Some r → heap w !! r = Some j →
       job_status j ≠ lit "completed" →
       (get_job_results BASE_DIR job_id w).1
       = Raise (HTTPException 400
                  (lit "Job not completed. Current status: " ++ job_status j)))
  ∧ (∀ payload,
       (get_job_results BASE_DIR job_id w).1 = Ret payload →
       ∃ r j, jobs w !! job_id = Some r ∧ heap w !! r = Some j
              ∧ job_status j = lit "completed")
  ∧ (∀ r j results,
       jobs w !! job_id = Some r → heap w !! r = Some j →
       job_status j = lit "completed" →
       job_results j = Some results → truthy results = true →
       get_job_results BASE_DIR job_id w = JobResultsResponse results (publish w))
  ∧ (∀ status,
       HTTPException 404 (lit "Job not found")
       ≠ HTTPException 400 (lit "Job not completed. Current status: " ++ status)).
Proof.
  rewrite get_job_results_run. split; [|split; [|split; [|split]]].
  - by intros ->.
  - intros r j Hr Hj Hst. rewrite Hr. unfold job_results_response.
    assert (Hj' : heap (publish w) !! r = Some j) by exact Hj.
    unfold mbind, se_bind. rewrite (getitem_run _ _ _ _ Hj').
    case_decide; [|done]. by rewrite (getitem_run _ _ _ _ Hj').
  - intros payload. destruct (jobs w !! job_id) as [r|] eqn:Hr; [|intros [=]].
    destruct (heap w !! r) as [j|] eqn:Hj.
    + assert (Hj' : heap (publish w) !! r = Some j) by exact Hj.
      destruct (decide (job_status j = lit "completed")) as [Heq|Hne]; [by eauto|].
      unfold job_results_response, mbind, se_bind.
      rewrite (getitem_run _ _ _ _ Hj'). case_decide; [|done].
      rewrite (getitem_run _ _ _ _ Hj'). intros [=].
    + assert (Hj' : heap (publish w) !! r = None) by exact Hj.
      unfold job_results_response, mbind, se_bind.
      rewrite (getitem_dangling _ _ _ Hj'). intros [=].
  - intros r j results Hr Hj Hst Hres Htruthy. rewrite Hr.
    assert (Hj' : heap (publish w) !! r = Some j) by exact Hj.
    unfold job_results_response. unfold mbind at 1, se_bind at 1.
    rewrite (getitem_run _ _ _ _ Hj'). case_decide; [done|].
    unfold mbind at 1, se_bind at 1. rewrite (getitem_run _ _ _ _ Hj'), Hres.
    unfold mbind at 1, se_bind at 1. rewrite Htruthy. reflexivity.
  - intros status [=].
Qed.

End runner.

(** * Properties of start-up, of the uploads and of the whole service *)
Section service.
Context `{Runtime}.
Variable LABEL_MAP : list (str * json).
Variable DUMMY_MODE : bool.
Variable BASE_DIR : str.

Lemma set_os_os (w : world) : set_os (os w) w = w.
Proof. by destruct w. Qed.

Lemma io_run {A} (m : IO A) w r e : m (os w) = (r, e) → io m w = (r, set_os e w).
Proof. unfold io. by intros ->. Qed.

Lemma path_exists_run path (e : env) :
  path_exists path e = (Ret (bool_decide (is_Some (files e !! path))), e).
Proof. reflexivity. Qed.

Lemma first_existing_run cs (e : env) :
  ∃ o, first_existing cs e = (Ret o, e)
       ∧ match o with
         | Some p => p ∈ cs ∧ is_Some (files e !! p)
         | None => ∀ p, p ∈ cs → files e !! p = None
         end.
Proof.
  induction cs as [|c cs IH].
  - exists None. split; [done|]. intros p Hp. by apply not_elem_of_nil in Hp.
  - cbn [first_existing]. unfold mbind, se_bind. rewrite path_exists_run.
    case_bool_decide as Hc.
    + exists (Some c). split; [done|]. split; [by left|done].
    + destruct IH as (o & Hrun & Ho). exists o. split; [done|].
      destruct o as [p|].
      * destruct Ho. split; [by right|done].
      * intros p [->|Hp]%elem_of_cons; [|by apply Ho].
        by apply eq_None_not_Some.
Qed.

(** X. [health_check] always answers; its [dummy_mode] flag is the negation
    of [model_available], which holds exactly when the model file exists and
    the dummy mode is off; [behaviors_count] is the length of [behaviors];
    and only the clock has been read. *)
Theorem health_check_flags (e : env) :
  ∃ available : bool,
    health_check LABEL_MAP DUMMY_MODE BASE_DIR e
    = (Ret (JObj [(lit "status", JStr (lit "healthy"));
                  (lit "timestamp", JStr (utc_isoformat (clock e) ++ lit "Z"));
                  (lit "model_available", JBool available);
                  (lit "dummy_mode", JBool (negb available));
                  (lit "behaviors_count", JInt (Z.of_nat (length LABEL_MAP)));
                  (lit "behaviors", JArr (JStr <$> LABEL_MAP.*1))]),
       set_clock (S (clock e)) e)
    ∧ (available = true
       ↔ is_Some (files e !! MODEL_PATH BASE_DIR) ∧ DUMMY_MODE = false).
Proof.
  exists (bool_decide (is_Some (files e !! MODEL_PATH BASE_DIR)) && negb DUMMY_MODE).
  split.
  - unfold health_check, is_model_available, utcnow_isoformat_Z, BEHAVIOR_IDS.
    unfold path_exists, mbind, se_bind, get_state, modify, mret, se_ret.
    cbv beta iota. cbn [files set_clock]. rewrite length_fmap.
    destruct DUMMY_MODE; cbv beta iota; [by rewrite andb_false_r|].
    by rewrite andb_true_r.
  - rewrite andb_true_iff, bool_decide_eq_true, negb_true_iff. done.
Qed.

(** ** Accepting and rejecting an inference request *)

Lemma uuid4_run (e : env) :
  uuid4 e = (Ret (uuid4_str (uuids e)), set_uuids (S (uuids e)) e).
Proof. reflexivity. Qed.

Lemma utcnow_isoformat_Z_run (e : env) :
  utcnow_isoformat_Z e
  = (Ret (utc_isoformat (clock e) ++ lit "Z"), set_clock (S (clock e)) e).
Proof. reflexivity. Qed.

(** The job that [start_inference] registers for a request, and the world it
    leaves. *)
Definition new_job (request : InferenceRequest) (w : world) : job :=
  Job (uuid4_str (uuids (os w))) (req_input_id request)
      (input_kind_str (req_input_type request)) (req_behavior_id request)
      (lit "pending") 0 (lit "En cola...") None None
      (utc_isoformat (clock (os w)) ++ lit "Z").

Definition with_new_job (request : InferenceRequest) (w : world) : world :=
  let r := fresh (dom (heap w)) in
  let h := <[r := new_job request w]> (heap w) in
  World (<[uuid4_str (uuids (os w)) := r]> (jobs w)) h (published w ++ [h])
        (set_clock (S (clock (os w))) (set_uuids (S (uuids (os w))) (os w))).

Lemma start_inference_run request w :
  start_inference LABEL_MAP BASE_DIR request w
  = if decide (req_behavior_id request ∉ BEHAVIOR_IDS LABEL_MAP) then
      (Raise (HTTPException 400
                (lit "Invalid behavior_id. Valid options: "
                 ++ str_join (lit ", ") (BEHAVIOR_IDS LABEL_MAP))), w)
    else
      match (first_existing
               (input_candidates BASE_DIR (req_input_type request)
                  (req_input_id request)) (os w)).1 with
      | Ret (Some input_path) =>
          (Ret (uuid4_str (uuids (os w)),
                Task input_path (input_kind_str (req_input_type request))
                     (req_behavior_id request) (uuid4_str (uuids (os w)))
                     (req_input_id request)),
           with_new_job request w)
      | Ret None =>
          (Raise (HTTPException 404
                    (input_kind_capitalize (req_input_type request)
                     ++ lit " not found")), w)
      | Raise x => (Raise x, w)
      end.
Proof.
  unfold start_inference. case_decide; [reflexivity|].
  destruct (first_existing_run
              (input_candidates BASE_DIR (req_input_type request)
                 (req_input_id request)) (os w)) as (o & Hfe & _).
  rewrite Hfe. cbn [fst].
  unfold mbind at 1, se_bind at 1.
  assert (Hio : io (match req_input_type request with
                    | video =>
                        first_existing
                          (map (λ ext, path_join (UPLOADS_DIR BASE_DIR)
                                         (req_input_id request ++ ext))
                               video_extensions)
                    | skeleton =>
                        first_existing
                          [path_join (SKELETONS_DIR BASE_DIR)
                             (req_input_id request ++ lit ".json")]
                    end) w = (Ret o, w)).
  { rewrite <-(set_os_os w) at 2. apply io_run.
    unfold input_candidates in Hfe. by destruct (req_input_type request). }
  rewrite Hio. destruct o as [input_path|]; [|reflexivity].
  unfold with_jobs_lock, jobs_new, mbind, se_bind, modify, mret, se_ret.
  rewrite (io_run _ _ _ _ (uuid4_run (os w))).
  unfold io. cbn [os set_os]. rewrite utcnow_isoformat_Z_run.
  destruct w as [jb hp pb o]. reflexivity.
Qed.


(** X. The identifiers that [get_behaviors] lists are the ones that
    [start_inference] accepts: its [count] is their number, and a request
    is answered with the 400 "Invalid behavior_id" error, the world left as
    it was, exactly when its behavior is not among [ids]. *)
Theorem get_behaviors_ids_are_accepted :
  ∃ ids,
    get_behaviors LABEL_MAP
    = JObj [(lit "behaviors", JObj LABEL_MAP);
            (lit "count", JInt (Z.of_nat (length ids)));
            (lit "ids", JArr (JStr <$> ids))]
    ∧ length ids = length LABEL_MAP
    ∧ ∀ request w,
        req_behavior_id request ∉ ids
        ↔ start_inference LABEL_MAP BASE_DIR request w
          = (Raise (HTTPException 400
                      (lit "Invalid behavior_id. Valid options: "
                       ++ str_join (lit ", ") ids)), w).
Proof.
  exists (BEHAVIOR_IDS LABEL_MAP). split; [reflexivity|].
  split; [apply length_fmap|].
  intros request w. rewrite start_inference_run. split.
  - intros Hnot. by rewrite decide_True.
  - case_decide; [done|].
    destruct (first_existing_run
                (input_candidates BASE_DIR (req_input_type request)
                   (req_input_id request)) (os w)) as (o & -> & _).
    cbn [fst]. destruct o as [p|]; intros [=].
Qed.


Lemma get_job_status_run job_id r j w :
  jobs w !! job_id = Some r → heap w !! r = Some j →
  get_job_status job_id w
  = (Ret {| js_status := job_status j; js_progress := job_progress j;
            js_message := job_message j; js_error := job_error j |}, publish w).
Proof.
  intros Hr Hj. unfold get_job_status, mbind, se_bind.
  rewrite lookup_job_run, Hr.
  assert (Hj' : heap (publish w) !! r = Some j) by exact Hj.
  by rewrite (job_status_response_run _ _ _ Hj').
Qed.




(** ** The job runner at its edges *)




Lemma foldl_alter_ne (r r' : loc) (fs : list (job → job)) (h : gmap loc job) :
  r' ≠ r → foldl (λ h f, alter f r h) h fs !! r' = h !! r'.
Proof.
  intros Hne. revert h. induction fs as [|f fs IH]; intros h; [done|].
  cbn [foldl]. rewrite IH. by apply lookup_alter_ne.
Qed.

(** X. A run touches its own job only: the registry maps the same
    identifiers to the same dicts, every other dict is as it was, and in the
    job's own dict the identifiers, the input type, the behavior and the
    creation time are never rewritten. *)
Theorem run_inference_frame
    input_path input_type behavior_id job_id input_id r j0 w :
  jobs w !! job_id = Some r → heap w !! r = Some j0 →
  ∃ w' jf,
    run_inference LABEL_MAP DUMMY_MODE BASE_DIR
      input_path input_type behavior_id job_id input_id w = (Ret (), w')
    ∧ jobs w' = jobs w
    ∧ (∀ r', r' ≠ r → heap w' !! r' = heap w !! r')
    ∧ heap w' !! r = Some jf
    ∧ job_job_id jf = job_job_id j0 ∧ job_input_id jf = job_input_id j0
    ∧ job_input_type jf = job_input_type j0
    ∧ job_behavior_id jf = job_behavior_id j0
    ∧ job_created_at jf = job_created_at j0.
Proof.
  intros Hr Hj0.
  destruct (run_inference_outcome LABEL_MAP DUMMY_MODE BASE_DIR
              input_path input_type behavior_id job_id input_id r j0 w Hr Hj0)
    as (w' & fs & Hrun & Hupd & (Hjobs & _ & Hheap) & _).
  destruct (heaps_after_states r fs (heap w) j0 Hj0) as [_ Hfinal].
  rewrite <-Hheap in Hfinal.
  eexists w', _. split; [exact Hrun|]. split; [exact Hjobs|].
  split; [intros r' Hne; rewrite Hheap; by apply foldl_alter_ne|].
  split; [exact Hfinal|].
  destruct Hupd; unfold stages; cbn [map app foldl]; cbn; done.
Qed.

(** X. [get_job_status] answers 404 "Job not found" for an identifier that
    is not in the registry, and otherwise with the status, progress, message
    and error that the job's dict holds; either way it only takes and
    releases the lock: the registry, the dicts and the environment are as
    they were. *)
Theorem get_job_status_outcomes job_id w :
  (jobs w !! job_id = None →
   (get_job_status job_id w).1 = Raise (HTTPException 404 (lit "Job not found")))
  ∧ (∀ r j,
       jobs w !! job_id = Some r → heap w !! r = Some j →
       (get_job_status job_id w).1
       = Ret {| js_status := job_status j; js_progress := job_progress j;
                js_message := job_message j; js_error := job_error j |})
  ∧ (get_job_status job_id w).2 = publish w
  ∧ jobs (publish w) = jobs w ∧ heap (publish w) = heap w
  ∧ os (publish w) = os w.
Proof.
  split; [|split; [|split; [|done]]].
  - intros Hr. unfold get_job_status, mbind, se_bind.
    by rewrite lookup_job_run, Hr.
  - intros r j Hr Hj. by rewrite (get_job_status_run _ _ _ _ Hr Hj).
  - unfold get_job_status, mbind, se_bind. rewrite lookup_job_run.
    destruct (jobs w !! job_id) as [r|]; [|done].
    destruct (heap w !! r) as [j|] eqn:Hj.
    + assert (Hj' : heap (publish w) !! r = Some j) by exact Hj.
      by rewrite (job_status_response_run _ _ _ Hj').
    + assert (Hj' : heap (publish w) !! r = None) by exact Hj.
      unfold job_status_response, mbind, se_bind.
      by rewrite (getitem_dangling _ _ _ Hj').
Qed.



(** ** The placeholder model and the catalog *)

(** X. A catalog entry of the wrong shape makes the model raise
    [AttributeError]: an entry that is not a dict at once, on
    [behavior.get("labels", {})], before any draw; an entry whose [labels]
    is present and not a dict after the draws, on [labels.get(str(pred), "")]. *)
Theorem generate_dummy_prediction_bad_entry behavior_id input_hash (e : env) :
  (∀ v, dict_lookup behavior_id LABEL_MAP = Some v → is_dict v = false →
        generate_dummy_prediction LABEL_MAP behavior_id input_hash e
        = (Raise (AttributeError v "get"),
           set_rng (seeded behavior_id input_hash) e))
  ∧ (∀ entry v,
       dict_lookup behavior_id LABEL_MAP = Some (JObj entry) →
       dict_lookup (lit "labels") entry = Some v → is_dict v = false →
       (generate_dummy_prediction LABEL_MAP behavior_id input_hash e).1
       = Raise (AttributeError v "get")).
Proof.
  split.
  - intros v Hv Hshape. unfold generate_dummy_prediction.
    cbv [mbind se_bind mret se_ret random_seed modify dict_get].
    rewrite Hv. cbv [default from_option id].
    destruct v; first [discriminate Hshape|reflexivity].
  - intros entry v Hentry Hv Hshape. unfold generate_dummy_prediction.
    cbv [mbind se_bind mret se_ret random_seed modify dict_get].
    rewrite Hentry. cbv [default from_option id]. rewrite Hv.
    rewrite random_choices_run. cbv [first_item mret se_ret].
    rewrite random_uniform_run.
    destruct v; first [discriminate Hshape|reflexivity].
Qed.

(** X. With a catalog of the documented shape, the two texts of a
    prediction are the catalog's texts for the score it reports, in the two
    languages; and the call leaves the process's generator in the state
    reached by two draws from the seed, a function of the behavior
    identifier and the fingerprint, the rest of the environment as it was. *)
Theorem generate_dummy_prediction_texts behavior_id input_hash (e : env) :
  catalog_ok LABEL_MAP = true →
  ∃ (pred : Z) (confidence : float) (rubric_text rubric_text_es : json) (e' : env),
    generate_dummy_prediction LABEL_MAP behavior_id input_hash e
    = (Ret (JObj [(lit "behavior_id", JStr behavior_id);
                  (lit "pred", JInt pred);
                  (lit "confidence", JFloat (Fin confidence));
                  (lit "rubric_text", rubric_text);
                  (lit "rubric_text_es", rubric_text_es)]), e')
    ∧ (∀ entry labels text,
         dict_lookup behavior_id LABEL_MAP = Some (JObj entry) →
         dict_lookup (lit "labels") entry = Some (JObj labels) →
         dict_lookup (str_of_int pred) labels = Some text →
         rubric_text = text)
    ∧ (∀ entry labels_es text,
         dict_lookup behavior_id LABEL_MAP = Some (JObj entry) →
         dict_lookup (lit "labels_es") entry = Some (JObj labels_es) →
         dict_lookup (str_of_int pred) labels_es = Some text →
         rubric_text_es = text)
    ∧ rng e' = (random_draw (random_draw (seeded behavior_id input_hash)).2).2
    ∧ files e' = files e ∧ faults e' = faults e
    ∧ clock e' = clock e ∧ uuids e' = uuids e.
Proof.
  intros Hok. rewrite (generate_dummy_prediction_run _ _ _ _ Hok).
  eexists _, _, _, _, _. split; [reflexivity|].
  split; [|split; [|done]].
  - intros entry labels text Hentry Hlabels Htext.
    unfold rubric_of, labels_of. rewrite Hentry. cbv [default from_option id].
    by rewrite Hlabels, Htext.
  - intros entry labels text Hentry Hlabels Htext.
    unfold rubric_of, labels_of. rewrite Hentry. cbv [default from_option id].
    by rewrite Hlabels, Htext.
Qed.

(** ** The uploads *)

Lemma syscall_run (e : env) :
  syscall e = match faults e with
              | [] => (Ret (), e)
              | None :: fs => (Ret (), set_faults fs e)
              | Some x :: fs => (Raise x, set_faults fs e)
              end.
Proof.
  unfold syscall, mbind, se_bind, get_state.
  by destruct (faults e) as [|[x|] fs].
Qed.



(** The text of CPython for the same document. *)
Example dumps_indent_ex :
  dumps_indent 0
    (JObj [(lit "filename", JStr (lit "a.json"));
           (lit "data", JObj [(lit "data", JArr [JObj [(lit "frame_index", JInt 1);
                                                       (lit "skeleton", JArr [JInt 1; JNull])];
                                                 JObj []; JArr []]);
                              (lit "é", JBool true)]);
           (lit "n", JInt (-3))])
  = [123; 10; 32; 32; 34; 102; 105; 108; 101; 110; 97; 109; 101; 34; 58; 32; 34; 97;
     46; 106; 115; 111; 110; 34; 44; 10; 32; 32; 34; 100; 97; 116; 97; 34; 58; 32;
     123; 10; 32; 32; 32; 32; 34; 100; 97; 116; 97; 34; 58; 32; 91; 10; 32; 32; 32;
     32; 32; 32; 123; 10; 32; 32; 32; 32; 32; 32; 32; 32; 34; 102; 114; 97; 109;
     101; 95; 105; 110; 100; 101; 120; 34; 58; 32; 49; 44; 10; 32; 32; 32; 32; 32;
     32; 32; 32; 34; 115; 107; 101; 108; 101; 116; 111; 110; 34; 58; 32; 91; 10;
     32; 32; 32; 32; 32; 32; 32; 32; 32; 32; 49; 44; 10; 32; 32; 32; 32; 32; 32;
     32; 32; 32; 32; 110; 117; 108; 108; 10; 32; 32; 32; 32; 32; 32; 32; 32; 93;
     10; 32; 32; 32; 32; 32; 32; 125; 44; 10; 32; 32; 32; 32; 32; 32; 123; 125; 44;
     10; 32; 32; 32; 32; 32; 32; 91; 93; 10; 32; 32; 32; 32; 93; 44; 10; 32; 32;
     32; 32; 34; 92; 117; 48; 48; 101; 57; 34; 58; 32; 116; 114; 117; 101; 10; 32;
     32; 125; 44; 10; 32; 32; 34; 110; 34; 58; 32; 45; 51; 10; 125]%N.
Proof. vm_compute. reflexivity. Qed.

Lemma dict_lookup_Some (l : list (str * json)) k v :
  NoDup l.*1 → dict_lookup k l = Some v ↔ (k, v) ∈ l.
Proof.
  induction l as [|[k' v'] l IH]; intros Hnd.
  - split; [done|]. by intros ?%not_elem_of_nil.
  - apply NoDup_cons in Hnd as [Hk' Hnd]. cbn [dict_lookup]. case_decide as Hk.
    + subst k'. split.
      * intros [= ->]. by left.
      * intros [[= ->]|Hin]%elem_of_cons; [done|].
        destruct Hk'. apply list_elem_of_fmap. by exists (k, v).
    + rewrite (IH Hnd). split; [by right|].
      intros [[= -> ->]|Hin]%elem_of_cons; done.
Qed.

Lemma dict_lookup_perm (l l' : list (str * json)) k :
  NoDup l.*1 → l ≡ₚ l' → dict_lookup k l = dict_lookup k l'.
Proof.
  intros Hnd Hperm.
  assert (Hnd' : NoDup l'.*1) by (by rewrite <-Hperm).
  destruct (dict_lookup k l) as [v|] eqn:Hl.
  - symmetry. apply (dict_lookup_Some _ _ _ Hnd'). rewrite <-Hperm.
    by apply (dict_lookup_Some _ _ _ Hnd).
  - destruct (dict_lookup k l') as [v'|] eqn:Hl'; [|done].
    apply (dict_lookup_Some _ _ _ Hnd') in Hl'. rewrite <-Hperm in Hl'.
    apply (dict_lookup_Some _ _ _ Hnd) in Hl'. congruence.
Qed.

(** X. The frame count of an uploaded skeleton is never negative; a list
    under [data] decides it whatever the other keys hold; a [data] that is
    not a list is passed over for [keypoints]; without a list under any of
    the four keys it is 0; and it does not depend on the order of the keys
    of the uploaded object. *)
Theorem frame_count_first_list (data : list (str * json)) :
  0 ≤ frame_count data
  ∧ (∀ l, dict_lookup (lit "data") data = Some (JArr l) →
          frame_count data = Z.of_nat (length l))
  ∧ (∀ l, (∀ l', dict_lookup (lit "data") data ≠ Some (JArr l')) →
          dict_lookup (lit "keypoints") data = Some (JArr l) →
          frame_count data = Z.of_nat (length l))
  ∧ ((∀ key l, key ∈ [lit "data"; lit "keypoints"; lit "frames"; lit "skeleton"] →
               dict_lookup key data ≠ Some (JArr l)) →
     frame_count data = 0)
  ∧ (∀ data', NoDup data.*1 → data ≡ₚ data' → frame_count data' = frame_count data).
Proof.
  split; [|split; [|split; [|split]]].
  - unfold frame_count. repeat case_match; lia.
  - intros l Hl. unfold frame_count. by rewrite Hl.
  - intros l Hdata Hl. unfold frame_count. rewrite Hl.
    destruct (dict_lookup (lit "data") data) as [[]|] eqn:Hd; try done.
    by destruct (Hdata l0).
  - intros Hnone.
    assert (H1 : ∀ l, dict_lookup (lit "data") data ≠ Some (JArr l))
      by (intros l; apply Hnone, list_elem_of_here).
    assert (H2 : ∀ l, dict_lookup (lit "keypoints") data ≠ Some (JArr l))
      by (intros l; apply Hnone, list_elem_of_further, list_elem_of_here).
    assert (H3 : ∀ l, dict_lookup (lit "frames") data ≠ Some (JArr l))
      by (intros l; apply Hnone; do 2 apply list_elem_of_further;
          apply list_elem_of_here).
    assert (H4 : ∀ l, dict_lookup (lit "skeleton") data ≠ Some (JArr l))
      by (intros l; apply Hnone; do 3 apply list_elem_of_further;
          apply list_elem_of_here).
    clear Hnone. unfold frame_count.
    destruct (dict_lookup (lit "data") data) as [[]|];
      try (exfalso; by eapply H1);
      (destruct (dict_lookup (lit "keypoints") data) as [[]|];
       try (exfalso; by eapply H2);
       (destruct (dict_lookup (lit "frames") data) as [[]|];
        try (exfalso; by eapply H3);
        (destruct (dict_lookup (lit "skeleton") data) as [[]|];
         try (exfalso; by eapply H4); reflexivity))).
  - intros data' Hnd Hperm. unfold frame_count.
    by rewrite <-!(dict_lookup_perm data data' _ Hnd Hperm).
Qed.



Lemma upload_skeleton_success request (e : env) resp e' :
  upload_skeleton BASE_DIR request e = (Ret resp, e') →
  sk_skeleton_id resp = uuid4_str (uuids e)
  ∧ sk_stored_path resp
    = path_join (SKELETONS_DIR BASE_DIR) (sk_skeleton_id resp ++ lit ".json")
  ∧ is_Some (files e' !! sk_stored_path resp).
Proof.
  destruct e as [fs fl c u g]. unfold upload_skeleton.
  cbv [mbind se_bind mret se_ret try_except open_write write_bytes uuid4
       get_state modify utcnow_isoformat_Z of_res raise syscall
       set_uuids set_faults set_files set_clock faults files clock uuids rng].
  (destruct fl as [|[x|] fl]; [| |destruct fl as [|[y'|] fl]]);
    try match goal with
        | |- context [str_encode ?s] => destruct (str_encode s) as [bs|y]
        end;
    intros [= <- <-]; cbn [sk_skeleton_id sk_stored_path];
    (split; [reflexivity|split; [reflexivity|by rewrite lookup_insert_eq]]).
Qed.

(** X. An uploaded skeleton is found by [start_inference]: with the files
    the upload left and a behavior of the catalog, a request for the
    identifier that [upload_skeleton] returned is accepted, and the task it
    schedules reads the stored file. *)
Theorem uploaded_skeleton_is_found request (e : env) resp e' behavior_id w :
  upload_skeleton BASE_DIR request e = (Ret resp, e') →
  files (os w) = files e' →
  behavior_id ∈ BEHAVIOR_IDS LABEL_MAP →
  ∃ job_id w',
    start_inference LABEL_MAP BASE_DIR
      {| req_input_id := sk_skeleton_id resp; req_input_type := skeleton;
         req_behavior_id := behavior_id |} w
    = (Ret (job_id,
            Task (sk_stored_path resp) (lit "skeleton") behavior_id job_id
                 (sk_skeleton_id resp)), w').
Proof.
  intros Hup Hfiles Hid.
  destruct (upload_skeleton_success _ _ _ _ Hup) as (Hsid & Hpath & Hexists).
  rewrite <-Hfiles in Hexists. rewrite Hpath in Hexists |- *.
  rewrite start_inference_run. rewrite decide_False by (by intros Hnot).
  cbn [req_input_type req_input_id req_behavior_id input_candidates].
  destruct (first_existing_run
              [path_join (SKELETONS_DIR BASE_DIR)
                 (sk_skeleton_id resp ++ lit ".json")] (os w))
    as (o & Hfe & Ho).
  rewrite Hfe. cbn [fst]. destruct o as [p|].
  - destruct Ho as [->%list_elem_of_singleton _]. by eexists _, _.
  - rewrite (Ho _ (list_elem_of_here _ _)) in Hexists. by destruct Hexists.
Qed.

(** What [upload_video] takes from the libraries. *)
Variable path_suffix : str → str.
Variable str_lower : str → str.
Variable set_iter : gset str → list str.


Lemma upload_video_success file (e : env) resp e' :
  upload_video BASE_DIR path_suffix str_lower set_iter file e = (Ret resp, e') →
  ∃ filename,
    uf_filename file = Some filename ∧ filename ≠ []
    ∧ str_lower (path_suffix filename) ∈ allowed_extensions
    ∧ resp = {| v_video_id := uuid4_str (uuids e);
                v_stored_path :=
                  path_join (UPLOADS_DIR BASE_DIR)
                    (uuid4_str (uuids e) ++ str_lower (path_suffix filename));
                v_duration := of_int 30; v_fps := of_int 30 |}
    ∧ files e'
      = <[v_stored_path resp := uf_content file]>
          (<[v_stored_path resp := []]> (files e)).
Proof.
  unfold upload_video.
  destruct (uf_filename file) as [[|ch filename]|] eqn:Hname; [intros [=]| |intros [=]].
  case_decide as Hext; [intros [=]|].
  destruct e as [fs fl c u g].
  cbv [mbind se_bind mret se_ret try_except open_write write_bytes uuid4
       get_state modify raise syscall get_video_info
       set_uuids set_faults set_files set_clock faults files clock uuids rng].
  assert (Hin : str_lower (path_suffix (ch :: filename)) ∈ allowed_extensions)
    by (by destruct (decide (str_lower (path_suffix (ch :: filename))
                              ∈ allowed_extensions))).
  destruct fl as [|[y1|] fl];
    [|
     |destruct fl as [|[y2|] fl];
      [| |destruct fl as [|[y3|] fl]]];
    intros [= <- <-]; exists (ch :: filename); done.
Qed.

Lemma allowed_extensions_listed ext :
  ext ∈ allowed_extensions → ext ∈ video_extensions.
Proof.
  unfold allowed_extensions, video_extensions.
  rewrite !elem_of_union, !elem_of_singleton.
  intros [[[[->| ->]| ->]| ->]| ->].
  - apply list_elem_of_here.
  - apply list_elem_of_further, list_elem_of_here.
  - do 2 apply list_elem_of_further. apply list_elem_of_here.
  - do 3 apply list_elem_of_further. apply list_elem_of_here.
  - do 4 apply list_elem_of_further. apply list_elem_of_here.
Qed.

(** X. An uploaded video is stored under the identifier just drawn and its
    lower-cased suffix, one of the five extensions that [start_inference]
    tries; the file holds the bytes uploaded, the other files being as they
    were; the placeholder duration and rate are 30.  Its fingerprint is then
    the truncated SHA-256 of the bytes uploaded, and a request for the
    returned identifier and a behavior of the catalog is accepted, its task
    reading an existing upload of that identifier. *)
Theorem uploaded_video_is_found file (e : env) resp e' :
  upload_video BASE_DIR path_suffix str_lower set_iter file e = (Ret resp, e') →
  (∃ ext, ext ∈ video_extensions
          ∧ v_stored_path resp
            = path_join (UPLOADS_DIR BASE_DIR) (v_video_id resp ++ ext))
  ∧ v_video_id resp = uuid4_str (uuids e)
  ∧ v_duration resp = of_int 30 ∧ v_fps resp = of_int 30
  ∧ files e' !! v_stored_path resp = Some (uf_content file)
  ∧ (∀ p, p ≠ v_stored_path resp → files e' !! p = files e !! p)
  ∧ (no_faults e' →
     ∃ e'', compute_file_hash (v_stored_path resp) e'
            = (Ret (take 16 (Sha256.hexdigest (uf_content file))), e''))
  ∧ (∀ behavior_id w,
       files (os w) = files e' → behavior_id ∈ BEHAVIOR_IDS LABEL_MAP →
       ∃ job_id input_path w',
         start_inference LABEL_MAP BASE_DIR
           {| req_input_id := v_video_id resp; req_input_type := video;
              req_behavior_id := behavior_id |} w
         = (Ret (job_id,
                 Task input_path (lit "video") behavior_id job_id
                      (v_video_id resp)), w')
         ∧ input_path ∈ input_candidates BASE_DIR video (v_video_id resp)
         ∧ is_Some (files e' !! input_path)).
Proof.
  intros Hup.
  destruct (upload_video_success _ _ _ _ Hup)
    as (filename & Hname & Hne & Hext & Hresp & Hfiles).
  apply allowed_extensions_listed in Hext.
  set (ext := str_lower (path_suffix filename)) in *.
  assert (Hstored : files e' !! v_stored_path resp = Some (uf_content file))
    by (by rewrite Hfiles, lookup_insert_eq).
  split; [exists ext; by rewrite Hresp|].
  split; [by rewrite Hresp|]. split; [by rewrite Hresp|]. split; [by rewrite Hresp|].
  split; [exact Hstored|].
  split; [intros p Hp; by rewrite Hfiles, !lookup_insert_ne|].
  split; [intros Hnf; by apply compute_file_hash_no_faults|].
  intros behavior_id w Hw Hid.
  rewrite start_inference_run. rewrite decide_False by (by intros Hnot).
  cbn [req_input_type req_input_id req_behavior_id].
  destruct (first_existing_run
              (input_candidates BASE_DIR video (v_video_id resp)) (os w))
    as (o & Hfe & Ho).
  rewrite Hfe. cbn [fst]. destruct o as [p|].
  - destruct Ho as [Hp Hex]. rewrite Hw in Hex. by eexists _, p, _.
  - exfalso.
    assert (Hcand : v_stored_path resp
                    ∈ input_candidates BASE_DIR video (v_video_id resp)).
    { unfold input_candidates. apply list_elem_of_fmap. exists ext.
      split; [by rewrite Hresp|exact Hext]. }
    rewrite <-Hw, (Ho _ Hcand) in Hstored. discriminate Hstored.
Qed.

(** ** Start-up *)

(** X. [load_label_map] without a catalog file returns the empty dict and
    touches nothing, and the service then rejects every inference request
    with the 400 error that lists no valid option; with a catalog file and
    no failing system call it returns what [json.load] makes of the file, a
    parse error included. *)
Theorem load_label_map_outcomes (e : env) :
  (files e !! LABEL_MAP_PATH BASE_DIR = None →
   load_label_map BASE_DIR e = (Ret (JObj []), e)
   ∧ ∀ request w,
       start_inference [] BASE_DIR request w
       = (Raise (HTTPException 400 (lit "Invalid behavior_id. Valid options: ")),
          w))
  ∧ (∀ bs, files e !! LABEL_MAP_PATH BASE_DIR = Some bs → no_faults e →
           (load_label_map BASE_DIR e).1 = json_load bs).
Proof.
  split.
  - intros Hnone. split.
    + unfold load_label_map, mbind, se_bind. rewrite path_exists_run.
      rewrite bool_decide_eq_false_2; [done|]. rewrite Hnone. by intros [? ?].
    + intros request w. unfold start_inference.
      rewrite decide_True by apply not_elem_of_nil.
      cbn [BEHAVIOR_IDS fmap list_fmap str_join]. by rewrite app_nil_r.
  - intros bs Hfile Hnf.
    unfold load_label_map, mbind, se_bind. rewrite path_exists_run.
    rewrite bool_decide_eq_true_2 by (by rewrite Hfile).
    destruct (open_read_no_faults _ _ _ Hfile Hnf) as (e1 & Hopen & _ & Hnf1).
    destruct (syscall_no_faults _ Hnf1) as (e2 & Hsys & _).
    unfold load_json_file, mbind, se_bind. rewrite Hopen, Hsys.
    by destruct (json_load bs).
Qed.

(** ** A completed run *)

Lemma wp_io_run {A} (m : IO A) (Q : res A → world → Prop) w :
  (∀ r e, m (os w) = (r, e) → Q r (set_os e w)) → wp (io m) Q w.
Proof. intros HQ. unfold wp, io. destruct (m (os w)) as [r e] eqn:Hm. by apply HQ. Qed.

Lemma syscall_files (e : env) r e' : syscall e = (r, e') → files e' = files e.
Proof.
  rewrite syscall_run. destruct (faults e) as [|[x|] fs]; by intros [= <- <-].
Qed.

Lemma dump_json_file_inv path v (e e' : env) :
  dump_json_file path v e = (Ret (), e') →
  ∃ bs, str_encode (json_dumps_indent v) = Ret bs
        ∧ files e' = <[path := bs]> (files e).
Proof.
  unfold dump_json_file, mbind, se_bind.
  destruct (syscall e) as [[[]|x] e1] eqn:Hsys; [|intros [=]].
  destruct (str_encode (json_dumps_indent v)) as [bs|x]; [|intros [=]].
  intros [= <-]. exists bs. split; [done|].
  cbn [files set_files]. by rewrite (syscall_files _ _ _ Hsys).
Qed.

Lemma is_model_available_inv (e : env) (available : bool) e' :
  is_model_available DUMMY_MODE BASE_DIR e = (Ret available, e') →
  e' = e ∧ (DUMMY_MODE = true → available = false).
Proof.
  unfold is_model_available, mbind, se_bind. rewrite path_exists_run.
  intros [= <- <-]. split; [done|]. intros ->. apply andb_false_r.
Qed.

Lemma utcnow_isoformat_Z_files (e : env) r e' :
  utcnow_isoformat_Z e = (r, e') → files e' = files e.
Proof. rewrite utcnow_isoformat_Z_run. by intros [= <- <-]. Qed.

Lemma results_path_ne_metadata_path run_dir :
  path_join run_dir (lit "results.json") ≠ path_join run_dir (lit "metadata.json").
Proof.
  unfold path_join. intros Heq%app_inv_head. vm_compute in Heq. discriminate Heq.
Qed.

(** The payload of a run. *)
Definition results_of (job_id input_id input_type behavior_id : str)
    (prediction : json) (model_version input_hash processed_at : str) : json :=
  JObj [(lit "job_id", JStr job_id);
        (lit "input_id", JStr input_id);
        (lit "input_type", JStr input_type);
        (lit "behavior_id", JStr behavior_id);
        (lit "prediction", prediction);
        (lit "metadata",
         JObj [(lit "model_version", JStr model_version);
               (lit "input_hash", JStr input_hash);
               (lit "processed_at", JStr processed_at)])].

Ltac wp_run_step :=
  match goal with
  | |- wp (mret _) _ _ => apply wp_ret
  | |- wp (raise _) _ _ => apply wp_raise
  | |- wp (_ ≫= _) _ _ => apply wp_bind
  | |- wp (io _) _ _ => apply wp_io_run; intros [?|?] ? ?
  | |- wp (with_jobs_lock _) _ _ => apply wp_with_jobs_lock
  | |- wp (jobs_setitem _ _) _ _ => eapply wp_jobs_setitem; [eassumption|]
  | |- wp (jobs_getitem _) _ _ => eapply wp_jobs_getitem; [eassumption|]
  | |- wp time_sleep _ _ => apply wp_ret
  | |- wp (if ?b then _ else _) _ _ => destruct b
  | |- wp (match ?x with Ret _ => _ | Raise _ => _ end) _ _ => destruct x
  | |- wp (for_each (stages _) _) _ _ => unfold stages; cbn [for_each]
  | |- wp (getitem _ _) _ _ =>
      eapply wp_getitem;
      [cbn [heap]; rewrite ?lookup_alter_eq;
       match goal with Hj : _ !! _ = Some _ |- _ => rewrite Hj end; reflexivity|]
  end;
  unfold set_heap, set_os, set_jobs, publish;
  cbn [jobs heap published os] in *.

Lemma run_inference_try_completed
    input_path input_type behavior_id job_id input_id r j0 w :
  jobs w !! job_id = Some r → heap w !! r = Some j0 →
  wp (run_inference_try LABEL_MAP DUMMY_MODE BASE_DIR
        input_path input_type behavior_id job_id input_id)
     (λ res w',
        match res with
        | Raise x => True
        | Ret _ =>
            ∃ prediction model_version input_hash processed_at bs j,
              (∃ e1 e2, generate_dummy_prediction LABEL_MAP behavior_id
                          input_hash e1 = (Ret prediction, e2))
              ∧ (DUMMY_MODE = true → model_version = lit "dummy-v1.0")
              ∧ str_encode
                  (json_dumps_indent
                     (results_of job_id input_id input_type behavior_id
                        prediction model_version input_hash processed_at))
                = Ret bs
              ∧ files (os w')
                !! path_join (path_join (RUNS_DIR BASE_DIR) job_id)
                     (lit "results.json") = Some bs
              ∧ jobs w' = jobs w
              ∧ heap w' !! r
                = Some (completed
                          (results_of job_id input_id input_type behavior_id
                             prediction model_version input_hash processed_at) j)
        end) w.
Proof.
  intros Hr Hj0. destruct w as [jb hp pb o].
  cbn [jobs heap] in Hr, Hj0.
  unfold run_inference_try.
  repeat wp_run_step.
  all: try exact I.
  all: repeat match goal with
       | u : () |- _ => destruct u
       | Hd : dump_json_file _ _ _ = (Ret _, _) |- _ =>
           apply dump_json_file_inv in Hd as (? & ? & ?)
       | Hu : utcnow_isoformat_Z _ = (_, _) |- _ =>
           apply utcnow_isoformat_Z_files in Hu
       | Ha : is_model_available _ _ _ = (Ret _, _) |- _ =>
           apply is_model_available_inv in Ha as [? ?]
       end.
  all: match goal with
       | Hgen : generate_dummy_prediction _ _ ?h _ = (Ret ?p, _),
         Henc : str_encode
                  (json_dumps_indent
                     (JObj [_; _; _; _; _;
                            (_, JObj [(_, JStr ?mv); _; (_, JStr ?pa)])]))
                = Ret ?bs |- _ =>
           exists p, mv, h, pa, bs; eexists;
           split; [by eexists _, _|];
           split; [|split; [exact Henc|]]
       end.
  all: try (intros HD;
            match goal with
            | Hv : DUMMY_MODE = true → ?av = false
              |- (if negb ?av then _ else _) = _ => by rewrite (Hv HD)
            end).
  all: split; [|split; [reflexivity|]].
  all: try match goal with
       | Hm : files ?e9 = <[path_join ?d (lit "metadata.json") := _]> (files ?e8),
         H8 : ?e8 = ?e7, H7 : files ?e7 = files ?e6,
         Hres : files ?e6 = <[path_join ?d (lit "results.json") := _]> _
         |- files ?e9 !! _ = _ =>
           rewrite Hm, H8, H7, Hres, lookup_insert_ne, lookup_insert_eq;
           [reflexivity|intros Heq; by apply (results_path_ne_metadata_path d)]
       end.
  all: rewrite !lookup_alter_eq, Hj0; unfold completed, results_of, compose;
       cbn [fmap option_fmap option_map]; reflexivity.
Qed.

(** X. A run that leaves its job completed has stored one payload twice:
    as the job's [results] and, encoded, in [runs/<job_id>/results.json].
    The payload carries the run's identifiers, a prediction that
    [generate_dummy_prediction] returned for the behavior and the input's
    fingerprint, and the model version, which is "dummy-v1.0" whenever the
    dummy mode is on.  [get_job_results] then builds its response from the
    payload in memory, without reading the file. *)
Theorem completed_run_is_persisted
    input_path input_type behavior_id job_id input_id r j0 w w' jf :
  jobs w !! job_id = Some r → heap w !! r = Some j0 →
  run_inference LABEL_MAP DUMMY_MODE BASE_DIR
    input_path input_type behavior_id job_id input_id w = (Ret (), w') →
  heap w' !! r = Some jf → job_status jf = lit "completed" →
  ∃ prediction model_version input_hash processed_at bs,
    job_results jf
    = Some (results_of job_id input_id input_type behavior_id
              prediction model_version input_hash processed_at)
    ∧ (∃ e1 e2, generate_dummy_prediction LABEL_MAP behavior_id input_hash e1
                = (Ret prediction, e2))
    ∧ (DUMMY_MODE = true → model_version = lit "dummy-v1.0")
    ∧ str_encode
        (json_dumps_indent
           (results_of job_id input_id input_type behavior_id
              prediction model_version input_hash processed_at))
      = Ret bs
    ∧ files (os w')
      !! path_join (path_join (RUNS_DIR BASE_DIR) job_id) (lit "results.json")
      = Some bs
    ∧ get_job_results BASE_DIR job_id w'
      = JobResultsResponse
          (results_of job_id input_id input_type behavior_id
             prediction model_version input_hash processed_at) (publish w').
Proof.
  intros Hr Hj0 Hrun Hjf Hstatus.
  pose proof (run_inference_try_completed input_path input_type behavior_id
                job_id input_id r j0 w Hr Hj0) as Hdone.
  pose proof (run_inference_try_outcome LABEL_MAP DUMMY_MODE BASE_DIR
                input_path input_type behavior_id job_id input_id r j0 w Hr Hj0)
    as Htry.
  unfold wp in Hdone, Htry. unfold run_inference, try_except in Hrun.
  destruct (run_inference_try _ _ _ _ _ _ _ _ w) as [[[]|x] w1];
    cbn [fst snd] in Hdone, Htry.
  - injection Hrun as <-.
    destruct Hdone as (prediction & model_version & input_hash & processed_at & bs
                       & j & Hgen & Hversion & Henc & Hfile & Hjobs & Hheap).
    rewrite Hheap in Hjf. injection Hjf as <-.
    exists prediction, model_version, input_hash, processed_at, bs.
    split; [reflexivity|]. split; [exact Hgen|]. split; [exact Hversion|].
    split; [exact Henc|]. split; [exact Hfile|].
    rewrite get_job_results_run, Hjobs, Hr.
    assert (Hheap' : heap (publish w1) !! r = Some (completed
              (results_of job_id input_id input_type behavior_id
                 prediction model_version input_hash processed_at) j))
      by exact Hheap.
    unfold job_results_response. unfold mbind at 1, se_bind at 1.
    rewrite (getitem_run _ _ _ _ Hheap'). case_decide as Hne; [by destruct Hne|].
    unfold mbind at 1, se_bind at 1. rewrite (getitem_run _ _ _ _ Hheap').
    reflexivity.
  - exfalso.
    assert (Hr1 : jobs w1 !! job_id = Some r).
    { destruct Htry as [(-> & _)|(-> & _)]; done. }
    pose proof (run_inference_except_outcome job_id x r w1 Hr1) as Hexc.
    unfold wp in Hexc. rewrite Hrun in Hexc. cbn [fst snd] in Hexc.
    destruct Hexc as [_ (_ & _ & Hheap)]. cbn [foldl] in Hheap.
    rewrite Hheap, lookup_alter_eq in Hjf.
    destruct (heap w1 !! r) as [j1|]; [|discriminate Hjf].
    injection Hjf as <-. cbn in Hstatus.
    destruct status_literals_distinct as (_ & _ & Hcf & _). by destruct Hcf.
Qed.

(** X. [get_job_results] on a completed job that holds no results (none, or
    an empty value) falls back on [runs/<job_id>/results.json]: without the
    file it answers 500 "Results not found"; with the file, and no failing
    system call, it builds the response from what [json.load] makes of it.
    The registry and the dicts are as they were. *)
Theorem get_job_results_disk_fallback job_id r j w :
  jobs w !! job_id = Some r → heap w !! r = Some j →
  job_status j = lit "completed" →
  job_results j = None ∨ (∃ v, job_results j = Some v ∧ truthy v = false) →
  (files (os w)
   !! path_join (path_join (RUNS_DIR BASE_DIR) job_id) (lit "results.json") = None →
   get_job_results BASE_DIR job_id w
   = (Raise (HTTPException 500 (lit "Results not found")), publish w))
  ∧ (∀ bs results,
       files (os w)
       !! path_join (path_join (RUNS_DIR BASE_DIR) job_id) (lit "results.json")
       = Some bs →
       no_faults (os w) → json_load bs = Ret results →
       ∃ w1, get_job_results BASE_DIR job_id w = JobResultsResponse results w1
             ∧ jobs w1 = jobs w ∧ heap w1 = heap w).
Proof.
  intros Hr Hj Hstatus Hnone.
  assert (Hj' : heap (publish w) !! r = Some j) by exact Hj.
  assert (Hfallback :
    get_job_results BASE_DIR job_id w
    = (results_from_disk BASE_DIR job_id ≫= JobResultsResponse) (publish w)).
  { rewrite get_job_results_run, Hr. unfold job_results_response.
    unfold mbind at 1, se_bind at 1. rewrite (getitem_run _ _ _ _ Hj').
    case_decide as Hne; [by destruct Hne|].
    unfold mbind at 1, se_bind at 1. rewrite (getitem_run _ _ _ _ Hj').
    destruct Hnone as [->|(v & -> & ->)]; reflexivity. }
  rewrite Hfallback. split.
  - intros Hfile. unfold results_from_disk.
    unfold mbind at 1 2, se_bind at 1 2.
    erewrite io_run by apply path_exists_run.
    rewrite bool_decide_eq_false_2; [by rewrite set_os_os|].
    cbn [os publish]. rewrite Hfile. by intros [? ?].
  - intros bs results Hfile Hnf Hload. unfold results_from_disk.
    unfold mbind at 1 2, se_bind at 1 2.
    erewrite io_run by apply path_exists_run.
    rewrite bool_decide_eq_true_2 by (cbn [os publish]; by rewrite Hfile).
    rewrite set_os_os.
    destruct (open_read_no_faults _ (os (publish w)) _ Hfile Hnf)
      as (e1 & Hopen & _ & Hnf1).
    destruct (syscall_no_faults _ Hnf1) as (e2 & Hsys & _).
    erewrite io_run; [|unfold load_json_file, mbind, se_bind;
                        by rewrite Hopen, Hsys, Hload].
    by eexists.
Qed.

Lemma states_after_app (fs gs : list (job → job)) j :
  states_after (fs ++ gs) j
  = states_after fs j ++ states_after gs (foldl (λ j f, f j) j fs).
Proof.
  revert j. induction fs as [|f fs IH]; intros j; [done|].
  cbn [app states_after foldl]. by rewrite IH.
Qed.

Lemma staged_states (l l' : list (Z * str)) j :
  (∀ s, s ∈ l → s ∈ l') → job_status j = lit "processing" →
  Forall (λ j', job_status j' = lit "processing"
                ∧ (job_progress j', job_message j') ∈ l')
         (states_after (map staged l) j).
Proof.
  revert j. induction l as [|[progress message] l IH]; intros j Hsub Hstatus;
    [constructor|].
  cbn [map states_after]. constructor.
  - split; [exact Hstatus|]. apply Hsub, list_elem_of_here.
  - apply IH; [|exact Hstatus]. intros s Hs. by apply Hsub, list_elem_of_further.
Qed.

(** X. What a poll can read during a run: in every state of the job that a
    run publishes, a job that is processing shows one of the six pairs of
    progress and message (5 with "Iniciando procesamiento...", then the
    five stages, the fourth naming the behavior), a completed one shows 100
    with "Análisis completado", and a failed one shows "Error: " followed by
    its error. *)
Theorem run_inference_messages
    input_path input_type behavior_id job_id input_id r j0 w :
  jobs w !! job_id = Some r → heap w !! r = Some j0 →
  ∃ w' snapshots trace,
    run_inference LABEL_MAP DUMMY_MODE BASE_DIR
      input_path input_type behavior_id job_id input_id w = (Ret (), w')
    ∧ published w' = published w ++ snapshots
    ∧ (λ h, h !! r) <$> snapshots = Some <$> trace
    ∧ Forall
        (λ j,
           (job_status j = lit "processing"
            ∧ (job_progress j, job_message j)
              ∈ (5, lit "Iniciando procesamiento...") :: stages behavior_id)
           ∨ (job_status j = lit "completed" ∧ job_progress j = 100
              ∧ job_message j = lit "Análisis completado")
           ∨ (job_status j = lit "failed"
              ∧ ∃ err, job_error j = Some err
                       ∧ job_message j = lit "Error: " ++ err))
        trace.
Proof.
  intros Hr Hj0.
  destruct (run_inference_trace LABEL_MAP DUMMY_MODE BASE_DIR
              input_path input_type behavior_id job_id input_id r j0 w Hr Hj0)
    as (w' & fs & snapshots & Hrun & Hupd & _ & Hpub & Hview & _).
  exists w', snapshots, (states_after fs j0).
  split; [exact Hrun|]. split; [exact Hpub|]. split; [exact Hview|].
  set (P := λ j : job,
         (job_status j = lit "processing"
          ∧ (job_progress j, job_message j)
            ∈ (5, lit "Iniciando procesamiento...") :: stages behavior_id)
         ∨ (job_status j = lit "completed" ∧ job_progress j = 100
            ∧ job_message j = lit "Análisis completado")
         ∨ (job_status j = lit "failed"
            ∧ ∃ err, job_error j = Some err
                     ∧ job_message j = lit "Error: " ++ err)).
  assert (Hfailed : ∀ x j, P (failed x j))
    by (intros x j; right; right; split; [reflexivity|by eexists]).
  assert (Hcompleted : ∀ v j, P (completed v j))
    by (intros v j; right; left; repeat split; reflexivity).
  assert (Hstarted : P (started j0))
    by (left; split; [reflexivity|apply list_elem_of_here]).
  assert (Hstaged : Forall P (states_after (map staged (stages behavior_id))
                                (started j0))).
  { eapply Forall_impl;
      [apply (staged_states _ ((5, lit "Iniciando procesamiento...")
                               :: stages behavior_id));
       [intros s Hs; by apply list_elem_of_further|reflexivity]|].
    intros j Hj. by left. }
  destruct Hupd.
  - cbn [states_after].
    apply Forall_cons_2; [exact Hstarted|].
    apply Forall_cons_2; [apply Hfailed|apply Forall_nil_2].
  - cbn [states_after app]. apply Forall_cons_2; [exact Hstarted|].
    rewrite states_after_app. apply Forall_app. split; [exact Hstaged|].
    cbn [states_after]. apply Forall_cons_2; [apply Hfailed|apply Forall_nil_2].
  - cbn [states_after app]. apply Forall_cons_2; [exact Hstarted|].
    rewrite states_after_app. apply Forall_app. split; [exact Hstaged|].
    cbn [states_after]. apply Forall_cons_2; [apply Hcompleted|apply Forall_nil_2].
Qed.

End service.

(** * The model run on an example: one skeleton upload, one behavior *)
Module Example.

#[local] Existing Instance example_runtime.

Definition catalog : list (str * json) :=
  [(lit "B1",
    JObj [(lit "name", JStr (lit "Balance"));
          (lit "labels",
           JObj [(lit "0", JStr (lit "Not yet"));
                 (lit "1", JStr (lit "Emerging"));
                 (lit "2", JStr (lit "Achieved"))]);
          (lit "labels_es",
           JObj [(lit "0", JStr (lit "Aún no"));
                 (lit "1", JStr (lit "En desarrollo"));
                 (lit "2", JStr (lit "Logrado"))])])].

Definition base_dir : str := lit "/srv".

Definition skeleton_path : str := lit "/srv/skeletons/s1.json".

Definition initial (faults : list (option exn)) : world :=
  World ∅ ∅ [] (example_env {[ skeleton_path := ["{"; "}"]%byte ]} faults).

Definition request : InferenceRequest :=
  {| req_input_id := lit "s1"; req_input_type := skeleton;
     req_behavior_id := lit "B1" |}.

Definition the_task : task :=
  Task skeleton_path (lit "skeleton") (lit "B1") (lit "job-0") (lit "s1").

Definition created_job : job :=
  Job (lit "job-0") (lit "s1") (lit "skeleton") (lit "B1") (lit "pending") 0
      (lit "En cola...") None None (lit "2024-01-01T00:00:0Z").

(** The world once the request is accepted. *)
Definition created (faults : list (option exn)) : world :=
  (start_inference catalog base_dir request (initial faults)).2.

Example start_inference_ex faults :
  (start_inference catalog base_dir request (initial faults)).1
  = Ret (lit "job-0", the_task)
  ∧ jobs (created faults) !! lit "job-0" = Some 1%positive
  ∧ heap (created faults) !! 1%positive = Some created_job.
Proof. vm_compute. repeat split. Qed.

Definition run (faults : list (option exn)) : res () * world :=
  run_inference catalog false base_dir
    skeleton_path (lit "skeleton") (lit "B1") (lit "job-0") (lit "s1")
    (created faults).

Definition final_job (faults : list (option exn)) : option job :=
  heap (run faults).2 !! 1%positive.

(** The three ways a run ends. *)
Example run_completes :
  status_progress <$> final_job [] = Some (lit "completed", 100).
Proof. vm_compute. reflexivity. Qed.

Definition disk_full : exn :=
  Exn "OSError" (lit "[Errno 28] No space left on device").

Example run_fails_at_hashing :
  status_progress <$> final_job [Some disk_full] = Some (lit "failed", 5)
  ∧ job_error <$> final_job [Some disk_full] = Some (Some (exn_str disk_full)).
Proof. vm_compute. split; reflexivity. Qed.

Example run_fails_at_persistence :
  status_progress <$> final_job [None; None; None; Some disk_full]
  = Some (lit "failed", 90).
Proof. vm_compute. reflexivity. Qed.


Lemma run_inference_lifecycle_witness :
  jobs (created []) !! lit "job-0" = Some 1%positive
  ∧ heap (created []) !! 1%positive = Some created_job
  ∧ job_status created_job = lit "pending"
  ∧ job_progress created_job = 0
  ∧ ∃ w' snapshots trace,
      run [] = (Ret (), w')
      ∧ published w' = published (created []) ++ snapshots
      ∧ (λ h, h !! 1%positive) <$> snapshots = Some <$> trace
      ∧ heap w' !! 1%positive = last trace
      ∧ (status_progress <$> trace
         = [(lit "processing", 5); (lit "failed", 5)]
         ∨ status_progress <$> trace
           = [(lit "processing", 5); (lit "processing", 15); (lit "processing", 35);
              (lit "processing", 55); (lit "processing", 75); (lit "processing", 90);
              (lit "failed", 90)]
         ∨ status_progress <$> trace
           = [(lit "processing", 5); (lit "processing", 15); (lit "processing", 35);
              (lit "processing", 55); (lit "processing", 75); (lit "processing", 90);
              (lit "completed", 100)])
      ∧ lifecycle_ok (status_progress <$> created_job :: trace).
Proof.
  split; [vm_compute; reflexivity|]. split; [vm_compute; reflexivity|].
  split; [reflexivity|]. split; [reflexivity|].
  apply (run_inference_lifecycle catalog false base_dir);
    [vm_compute; reflexivity|vm_compute; reflexivity|reflexivity|reflexivity].
Defined.


Lemma pair_eta {A B} (p : A * B) a : p.1 = a → p = (a, p.2).
Proof. destruct p. by intros <-. Qed.




(** C6, as stated, fails: the reader holds the registry's own reference, so
    what it reads through it after the runner's updates is the updated
    dict, not the one that was there when it took the reference. *)
Definition reader_world : world := publish (created []).

Definition after_run : world :=
  (run_inference catalog false base_dir
     skeleton_path (lit "skeleton") (lit "B1") (lit "job-0") (lit "s1")
     reader_world).2.

Lemma reader_sees_later_update :
  (lookup_job (lit "job-0") (created [])).1 = Ret (Some 1%positive)
  ∧ (lookup_job (lit "job-0") (created [])).2 = reader_world
  ∧ (job_status_response (Some 1%positive) reader_world).1
    = Ret {| js_status := lit "pending"; js_progress := 0;
             js_message := lit "En cola..."; js_error := None |}
  ∧ (job_status_response (Some 1%positive) after_run).1
    = Ret {| js_status := lit "completed"; js_progress := 100;
             js_message := lit "Análisis completado"; js_error := None |}
  ∧ (job_status_response (Some 1%positive) after_run).1
    ≠ (job_status_response (Some 1%positive) reader_world).1.
Proof.
  split; [vm_compute; reflexivity|]. split; [reflexivity|].
  assert (Hbefore : (job_status_response (Some 1%positive) reader_world).1
    = Ret {| js_status := lit "pending"; js_progress := 0;
             js_message := lit "En cola..."; js_error := None |})
    by (vm_compute; reflexivity).
  assert (Hafter : (job_status_response (Some 1%positive) after_run).1
    = Ret {| js_status := lit "completed"; js_progress := 100;
             js_message := lit "Análisis completado"; js_error := None |})
    by (vm_compute; reflexivity).
  split; [exact Hbefore|]. split; [exact Hafter|].
  rewrite Hbefore, Hafter. intros Heq. vm_compute in Heq. discriminate Heq.
Qed.

Lemma lookup_job_is_live_reference_witness :
  jobs (created []) !! lit "job-0" = Some 1%positive
  ∧ heap (created []) !! 1%positive = Some created_job
  ∧ (∃ w2,
       jobs_setitem (lit "job-0") (set_progress 5) reader_world = (Ret (), w2)
       ∧ heap w2 !! 1%positive = Some (set_progress 5 created_job)
       ∧ ∀ A (field : job → A),
           (getitem 1%positive field w2).1 = Ret (field (set_progress 5 created_job)))
  ∧ (∃ w2 jf,
       run_inference catalog false base_dir
         skeleton_path (lit "skeleton") (lit "B1") (lit "job-0") (lit "s1")
         reader_world = (Ret (), w2)
       ∧ heap w2 !! 1%positive = Some jf ∧ terminal (job_status jf)
       ∧ (job_status_response (Some 1%positive) w2).1
         = Ret {| js_status := job_status jf; js_progress := job_progress jf;
                  js_message := job_message jf; js_error := job_error jf |}).
Proof.
  assert (Hr : jobs (created []) !! lit "job-0" = Some 1%positive)
    by (vm_compute; reflexivity).
  assert (Hj : heap (created []) !! 1%positive = Some created_job)
    by (vm_compute; reflexivity).
  destruct (lookup_job_is_live_reference catalog false base_dir
              (lit "job-0") (created [])) as (_ & _ & Hset & Hrun).
  split; [exact Hr|]. split; [exact Hj|]. split.
  - exact (Hset 1%positive created_job (set_progress 5) Hr Hj).
  - exact (Hrun 1%positive created_job skeleton_path (lit "skeleton") (lit "B1")
             (lit "s1") Hr Hj).
Defined.

Definition completed_world : world := (run []).2.

Lemma get_job_results_outcomes_witness :
  (jobs completed_world !! lit "nope" = None
   ∧ (get_job_results base_dir (lit "nope") completed_world).1
     = Raise (HTTPException 404 (lit "Job not found")))
  ∧ (jobs (created []) !! lit "job-0" = Some 1%positive
     ∧ heap (created []) !! 1%positive = Some created_job
     ∧ job_status created_job ≠ lit "completed"
     ∧ (get_job_results base_dir (lit "job-0") (created [])).1
       = Raise (HTTPException 400
                  (lit "Job not completed. Current status: "
                   ++ job_status created_job)))
  ∧ (∃ payload,
       (get_job_results base_dir (lit "job-0") completed_world).1 = Ret payload
       ∧ ∃ r j, jobs completed_world !! lit "job-0" = Some r
                ∧ heap completed_world !! r = Some j
                ∧ job_status j = lit "completed").
Proof.
  split; [|split].
  - assert (Hnone : jobs completed_world !! lit "nope" = None)
      by (vm_compute; reflexivity).
    split; [exact Hnone|].
    exact (proj1 (get_job_results_outcomes base_dir (lit "nope") completed_world)
             Hnone).
  - assert (Hr : jobs (created []) !! lit "job-0" = Some 1%positive)
      by (vm_compute; reflexivity).
    assert (Hj : heap (created []) !! 1%positive = Some created_job)
      by (vm_compute; reflexivity).
    assert (Hne : job_status created_job ≠ lit "completed")
      by (intros Heq; vm_compute in Heq; discriminate Heq).
    split; [exact Hr|]. split; [exact Hj|]. split; [exact Hne|].
    exact (proj1 (proj2 (get_job_results_outcomes base_dir (lit "job-0") (created [])))
             1%positive created_job Hr Hj Hne).
  - destruct (get_job_results base_dir (lit "job-0") completed_world).1
      as [payload|x] eqn:Hres; [|vm_compute in Hres; discriminate Hres].
    exists payload. split; [reflexivity|].
    exact (proj1 (proj2 (proj2
             (get_job_results_outcomes base_dir (lit "job-0") completed_world)))
             payload Hres).
Defined.

Definition doc_ab : json :=
  JObj [(lit "a", JInt 1);
        (lit "b", JObj [(lit "x", JNull); (lit "y", JArr [JBool true])])].

Definition doc_ba : json :=
  JObj [(lit "b", JObj [(lit "y", JArr [JBool true]); (lit "x", JNull)]);
        (lit "a", JInt 1)].

Lemma doc_ab_same_doc_ba : same_doc doc_ab doc_ba.
Proof.
  eapply same_obj; [apply perm_swap|].
  constructor; [split; [reflexivity|]|].
  - eapply same_obj; [apply perm_swap|].
    repeat constructor.
  - repeat constructor.
Qed.

Lemma compute_data_hash_key_order_witness :
  distinct_keys doc_ab = true
  ∧ same_doc doc_ab doc_ba
  ∧ doc_ab ≠ doc_ba
  ∧ compute_data_hash doc_ab = compute_data_hash doc_ba.
Proof.
  split; [vm_compute; reflexivity|]. split; [exact doc_ab_same_doc_ba|].
  split; [intros Heq; vm_compute in Heq; discriminate Heq|].
  apply compute_data_hash_key_order; [vm_compute; reflexivity|].
  exact doc_ab_same_doc_ba.
Defined.

Definition video_env : env :=
  example_env {[ lit "/srv/uploads/v1.mp4" := ["000"; "001"; "002"]%byte ]} [None].

Lemma fingerprint_is_16_hex_witness :
  (∃ h, compute_data_hash doc_ab = Ret h
        ∧ length h = 16%nat ∧ Forall Sha256.is_hex h)
  ∧ ((compute_file_hash (lit "/srv/uploads/v1.mp4") video_env).1
     = Ret (lit "ae4b3280e56e2faf")
     ∧ length (lit "ae4b3280e56e2faf") = 16%nat
     ∧ Forall Sha256.is_hex (lit "ae4b3280e56e2faf"))
  ∧ (files video_env !! lit "/srv/uploads/v1.mp4" = Some ["000"; "001"; "002"]%byte
     ∧ no_faults video_env
     ∧ ∃ h e', compute_file_hash (lit "/srv/uploads/v1.mp4") video_env = (Ret h, e')
               ∧ h = take 16 (Sha256.hexdigest ["000"; "001"; "002"]%byte)
               ∧ length h = 16%nat ∧ Forall Sha256.is_hex h).
Proof.
  destruct fingerprint_is_16_hex as (Hdata & Hfile & Hreads).
  split; [apply Hdata|]. split.
  - assert (Hrun : compute_file_hash (lit "/srv/uploads/v1.mp4") video_env
                   = (Ret (lit "ae4b3280e56e2faf"),
                      (compute_file_hash (lit "/srv/uploads/v1.mp4") video_env).2))
      by (apply pair_eta; vm_compute; reflexivity).
    split; [by rewrite Hrun|]. exact (Hfile _ _ _ _ Hrun).
  - assert (Hf : files video_env !! lit "/srv/uploads/v1.mp4"
                 = Some ["000"; "001"; "002"]%byte) by (vm_compute; reflexivity).
    assert (Hn : no_faults video_env) by (repeat constructor).
    split; [exact Hf|]. split; [exact Hn|]. exact (Hreads _ _ _ Hf Hn).
Defined.

Lemma prediction_score_and_confidence_witness :
  catalog_ok catalog = true
  ∧ ∃ (r1 r2 : float) (pred : Z) (confidence : float) (rubric_text rubric_text_es : json),
    (generate_dummy_prediction catalog (lit "B1") (lit "ae4b3280e56e2faf")
       video_env).1
    = Ret (JObj [(lit "behavior_id", JStr (lit "B1"));
                 (lit "pred", JInt pred);
                 (lit "confidence", JFloat (Fin confidence));
                 (lit "rubric_text", rubric_text);
                 (lit "rubric_text_es", rubric_text_es)])
    ∧ r1 = (random_draw (seeded (lit "B1") (lit "ae4b3280e56e2faf"))).1
    ∧ r2 = (random_draw (random_draw (seeded (lit "B1") (lit "ae4b3280e56e2faf"))).2).1
    ∧ 0 ≤ units r1 < units (of_int 1) ∧ 0 ≤ units r2 < units (of_int 1)
    ∧ accumulate [dec 2 10; dec 35 100; dec 45 100] = [dec 2 10; dec 55 100; of_int 1]
    ∧ pred ∈ [0; 1; 2]
    ∧ (pred = 0 ↔ units (fmul r1 (of_int 1)) < units (dec 2 10))
    ∧ (pred = 1 ↔ units (dec 2 10) ≤ units (fmul r1 (of_int 1)) < units (dec 55 100))
    ∧ (pred = 2 ↔ units (dec 55 100) ≤ units (fmul r1 (of_int 1)))
    ∧ confidence
      = round_ndigits (fadd (dec 65 100) (fmul (fsub (dec 95 100) (dec 65 100)) r2)) 4
    ∧ units (dec 65 100) ≤ units confidence ≤ units (dec 95 100).
Proof.
  split; [reflexivity|].
  apply (prediction_score_and_confidence catalog). reflexivity.
Defined.

Lemma generate_dummy_prediction_total_witness :
  catalog_ok catalog = true
  ∧ (lit "UNKNOWN" ∉ BEHAVIOR_IDS catalog)
  ∧ ∃ (pred : Z) (confidence : float) (rubric_text rubric_text_es : json),
    (generate_dummy_prediction catalog (lit "UNKNOWN") (lit "ae4b3280e56e2faf")
       video_env).1
    = Ret (JObj [(lit "behavior_id", JStr (lit "UNKNOWN"));
                 (lit "pred", JInt pred);
                 (lit "confidence", JFloat (Fin confidence));
                 (lit "rubric_text", rubric_text);
                 (lit "rubric_text_es", rubric_text_es)])
    ∧ rubric_text = JStr [] ∧ rubric_text_es = JStr [].
Proof.
  assert (Hnot : lit "UNKNOWN" ∉ BEHAVIOR_IDS catalog).
  { intros Hin. apply list_elem_of_singleton in Hin. vm_compute in Hin. discriminate Hin. }
  split; [reflexivity|]. split; [exact Hnot|].
  destruct (generate_dummy_prediction_total catalog (lit "UNKNOWN")
              (lit "ae4b3280e56e2faf") video_env eq_refl)
    as (pred & confidence & rt & rte & Hrun & _ & _ & _ & _ & Hempty).
  exists pred, confidence, rt, rte. split; [exact Hrun|]. exact (Hempty Hnot).
Defined.

(** The prediction for a behavior of the catalog carries its texts. *)
Example prediction_ex :
  ∃ confidence,
    (generate_dummy_prediction catalog (lit "B1") (lit "9a2f93e514d897dd")
       video_env).1
    = Ret (JObj [(lit "behavior_id", JStr (lit "B1"));
                 (lit "pred", JInt 2);
                 (lit "confidence", JFloat (Fin confidence));
                 (lit "rubric_text", JStr (lit "Achieved"));
                 (lit "rubric_text_es", JStr (lit "Logrado"))]).
Proof. eexists. vm_compute. reflexivity. Qed.

End Example.

(** * The service run on examples: uploads, requests, polls *)
Module ServiceExample.
Import Example.

#[local] Existing Instance example_runtime.

(** Stand-ins for the library functions of [upload_video], right on plain
    ASCII file names without a directory part. *)
Fixpoint last_dot (name : str) (found : option str) : option str :=
  match name with
  | [] => found
  | c :: rest => last_dot rest (if decide (c = 46%N) then Some name else found)
  end.

Definition example_suffix (name : str) : str :=
  match name with
  | [] => []
  | _ :: rest =>
      match last_dot rest None with
      | Some ([_] | []) | None => []
      | Some suffix => suffix
      end
  end.

Definition example_lower (s : str) : str :=
  map (λ c, if ((65 <=? c) && (c <=? 90))%N then (c + 32)%N else c) s.

Definition example_set_iter (X : gset str) : list str := elements X.



Example get_behaviors_ex :
  get_behaviors catalog
  = JObj [(lit "behaviors", JObj catalog); (lit "count", JInt 1);
          (lit "ids", JArr [JStr (lit "B1")])].
Proof. reflexivity. Qed.

Example health_check_ex :
  (health_check catalog false base_dir (os (initial []))).1
  = Ret (JObj [(lit "status", JStr (lit "healthy"));
               (lit "timestamp", JStr (lit "2024-01-01T00:00:0Z"));
               (lit "model_available", JBool false);
               (lit "dummy_mode", JBool true);
               (lit "behaviors_count", JInt 1);
               (lit "behaviors", JArr [JStr (lit "B1")])]).
Proof. vm_compute. reflexivity. Qed.






Lemma run_inference_frame_witness :
  jobs (created []) !! lit "job-0" = Some 1%positive
  ∧ heap (created []) !! 1%positive = Some created_job
  ∧ ∃ w' jf,
      run [] = (Ret (), w')
      ∧ jobs w' = jobs (created [])
      ∧ (∀ r', r' ≠ 1%positive → heap w' !! r' = heap (created []) !! r')
      ∧ heap w' !! 1%positive = Some jf
      ∧ job_job_id jf = job_job_id created_job
      ∧ job_input_id jf = job_input_id created_job
      ∧ job_input_type jf = job_input_type created_job
      ∧ job_behavior_id jf = job_behavior_id created_job
      ∧ job_created_at jf = job_created_at created_job.
Proof.
  assert (Hr : jobs (created []) !! lit "job-0" = Some 1%positive)
    by (vm_compute; reflexivity).
  assert (Hj : heap (created []) !! 1%positive = Some created_job)
    by (vm_compute; reflexivity).
  split; [exact Hr|]. split; [exact Hj|].
  exact (run_inference_frame catalog false base_dir
           skeleton_path (lit "skeleton") (lit "B1") (lit "job-0") (lit "s1")
           1%positive created_job (created []) Hr Hj).
Defined.

Lemma get_job_status_outcomes_witness :
  (jobs (created []) !! lit "job-7" = None
   ∧ (get_job_status (lit "job-7") (created [])).1
     = Raise (HTTPException 404 (lit "Job not found")))
  ∧ (jobs (created []) !! lit "job-0" = Some 1%positive
     ∧ heap (created []) !! 1%positive = Some created_job
     ∧ (get_job_status (lit "job-0") (created [])).1
       = Ret {| js_status := job_status created_job;
                js_progress := job_progress created_job;
                js_message := job_message created_job;
                js_error := job_error created_job |}).
Proof.
  assert (Hnone : jobs (created []) !! lit "job-7" = None)
    by (vm_compute; reflexivity).
  assert (Hr : jobs (created []) !! lit "job-0" = Some 1%positive)
    by (vm_compute; reflexivity).
  assert (Hj : heap (created []) !! 1%positive = Some created_job)
    by (vm_compute; reflexivity).
  split.
  - split; [exact Hnone|].
    exact (proj1 (get_job_status_outcomes (lit "job-7") (created [])) Hnone).
  - split; [exact Hr|]. split; [exact Hj|].
    exact (proj1 (proj2 (get_job_status_outcomes (lit "job-0") (created [])))
             1%positive created_job Hr Hj).
Defined.



(** A catalog with two entries of the wrong shape. *)
Definition bad_catalog : list (str * json) :=
  [(lit "B2", JStr (lit "Balance"));
   (lit "B3", JObj [(lit "labels", JArr [JStr (lit "Not yet")])])].

Lemma generate_dummy_prediction_bad_entry_witness :
  (dict_lookup (lit "B2") bad_catalog = Some (JStr (lit "Balance"))
   ∧ is_dict (JStr (lit "Balance")) = false
   ∧ (generate_dummy_prediction bad_catalog (lit "B2") (lit "ae4b3280e56e2faf")
        video_env).1
     = Raise (Exn "AttributeError" (lit "'str' object has no attribute 'get'")))
  ∧ (dict_lookup (lit "B3") bad_catalog
     = Some (JObj [(lit "labels", JArr [JStr (lit "Not yet")])])
     ∧ dict_lookup (lit "labels") [(lit "labels", JArr [JStr (lit "Not yet")])]
       = Some (JArr [JStr (lit "Not yet")])
     ∧ is_dict (JArr [JStr (lit "Not yet")]) = false
     ∧ (generate_dummy_prediction bad_catalog (lit "B3") (lit "ae4b3280e56e2faf")
          video_env).1
       = Raise (Exn "AttributeError" (lit "'list' object has no attribute 'get'"))).
Proof.
  destruct (generate_dummy_prediction_bad_entry bad_catalog (lit "B2")
              (lit "ae4b3280e56e2faf") video_env) as [Hentry _].
  destruct (generate_dummy_prediction_bad_entry bad_catalog (lit "B3")
              (lit "ae4b3280e56e2faf") video_env) as [_ Hlabels].
  split.
  - split; [vm_compute; reflexivity|]. split; [reflexivity|].
    rewrite (Hentry (JStr (lit "Balance"))); [vm_compute; reflexivity| |];
      vm_compute; reflexivity.
  - split; [vm_compute; reflexivity|]. split; [vm_compute; reflexivity|].
    split; [reflexivity|].
    rewrite (Hlabels [(lit "labels", JArr [JStr (lit "Not yet")])]
                     (JArr [JStr (lit "Not yet")]));
      vm_compute; reflexivity.
Defined.

Lemma generate_dummy_prediction_texts_witness :
  catalog_ok catalog = true
  ∧ ∃ (pred : Z) (confidence : float) (rubric_text rubric_text_es : json)
      (e' : env),
      generate_dummy_prediction catalog (lit "B1") (lit "ae4b3280e56e2faf") video_env
      = (Ret (JObj [(lit "behavior_id", JStr (lit "B1"));
                    (lit "pred", JInt pred);
                    (lit "confidence", JFloat (Fin confidence));
                    (lit "rubric_text", rubric_text);
                    (lit "rubric_text_es", rubric_text_es)]), e')
      ∧ rng e'
        = (random_draw (random_draw
                          (seeded (lit "B1") (lit "ae4b3280e56e2faf"))).2).2
      ∧ files e' = files video_env ∧ clock e' = clock video_env.
Proof.
  split; [reflexivity|].
  destruct (generate_dummy_prediction_texts catalog (lit "B1")
              (lit "ae4b3280e56e2faf") video_env eq_refl)
    as (pred & confidence & rt & rte & e' & Hrun & _ & _ & Hrng & Hfiles & _
        & Hclock & _).
  exists pred, confidence, rt, rte, e'.
  split; [exact Hrun|]. split; [exact Hrng|]. split; [exact Hfiles|exact Hclock].
Defined.

Definition openpose_data : list (str * json) :=
  [(lit "frames", JArr [JNull]);
   (lit "data", JArr [JObj [(lit "frame_index", JInt 1)];
                      JObj [(lit "frame_index", JInt 2)]])].

Definition keypoints_data : list (str * json) :=
  [(lit "data", JStr (lit "see keypoints"));
   (lit "keypoints", JArr [JNull; JNull; JNull])].

Lemma frame_count_first_list_witness :
  (dict_lookup (lit "data") openpose_data
   = Some (JArr [JObj [(lit "frame_index", JInt 1)];
                 JObj [(lit "frame_index", JInt 2)]])
   ∧ frame_count openpose_data = 2)
  ∧ ((∀ l', dict_lookup (lit "data") keypoints_data ≠ Some (JArr l'))
     ∧ dict_lookup (lit "keypoints") keypoints_data
       = Some (JArr [JNull; JNull; JNull])
     ∧ frame_count keypoints_data = 3)
  ∧ (NoDup openpose_data.*1
     ∧ openpose_data ≡ₚ reverse openpose_data
     ∧ frame_count (reverse openpose_data) = frame_count openpose_data).
Proof.
  assert (Hdata : dict_lookup (lit "data") openpose_data
                  = Some (JArr [JObj [(lit "frame_index", JInt 1)];
                                JObj [(lit "frame_index", JInt 2)]]))
    by (vm_compute; reflexivity).
  assert (Hnot : ∀ l', dict_lookup (lit "data") keypoints_data ≠ Some (JArr l'))
    by (intros l' Hl; vm_compute in Hl; discriminate Hl).
  assert (Hkey : dict_lookup (lit "keypoints") keypoints_data
                 = Some (JArr [JNull; JNull; JNull]))
    by (vm_compute; reflexivity).
  assert (Hnd : NoDup openpose_data.*1)
    by (apply (bool_decide_unpack _); vm_compute; exact I).
  assert (Hperm : openpose_data ≡ₚ reverse openpose_data)
    by (symmetry; apply reverse_Permutation).
  split; [|split].
  - split; [exact Hdata|].
    exact (proj1 (proj2 (frame_count_first_list openpose_data)) _ Hdata).
  - split; [exact Hnot|]. split; [exact Hkey|].
    exact (proj1 (proj2 (proj2 (frame_count_first_list keypoints_data)))
             _ Hnot Hkey).
  - split; [exact Hnd|]. split; [exact Hperm|].
    exact (proj2 (proj2 (proj2 (proj2 (frame_count_first_list openpose_data))))
             _ Hnd Hperm).
Defined.

Definition skeleton_upload : SkeletonUploadRequest :=
  {| sk_filename := lit "walk.json"; sk_data := openpose_data |}.

Definition empty_env (faults : list (option exn)) : env :=
  example_env ∅ faults.

Example upload_skeleton_ex :
  (upload_skeleton base_dir skeleton_upload (empty_env [])).1
  = Ret {| sk_skeleton_id := lit "job-0";
           sk_stored_path := lit "/srv/skeletons/job-0.json";
           sk_frame_count := 2;
           sk_fps := of_int 30 |}
  ∧ (upload_skeleton base_dir skeleton_upload (empty_env [None; Some disk_full])).1
    = Raise (HTTPException 500
               (lit "Failed to save skeleton data: [Errno 28] No space left on device")).
Proof. vm_compute. split; reflexivity. Qed.

Definition uploaded_skeleton : SkeletonUploadResponse :=
  {| sk_skeleton_id := lit "job-0";
     sk_stored_path := lit "/srv/skeletons/job-0.json";
     sk_frame_count := 2;
     sk_fps := of_int 30 |}.

Definition after_skeleton_upload : env :=
  (upload_skeleton base_dir skeleton_upload (empty_env [])).2.

Definition skeleton_world : world := World ∅ ∅ [] after_skeleton_upload.

Lemma uploaded_skeleton_is_found_witness :
  upload_skeleton base_dir skeleton_upload (empty_env [])
  = (Ret uploaded_skeleton, after_skeleton_upload)
  ∧ files (os skeleton_world) = files after_skeleton_upload
  ∧ (lit "B1" ∈ BEHAVIOR_IDS catalog)
  ∧ ∃ job_id w',
      start_inference catalog base_dir
        {| req_input_id := sk_skeleton_id uploaded_skeleton;
           req_input_type := skeleton; req_behavior_id := lit "B1" |}
        skeleton_world
      = (Ret (job_id,
              Task (sk_stored_path uploaded_skeleton) (lit "skeleton") (lit "B1")
                   job_id (sk_skeleton_id uploaded_skeleton)), w').
Proof.
  assert (Hup : upload_skeleton base_dir skeleton_upload (empty_env [])
                = (Ret uploaded_skeleton, after_skeleton_upload))
    by (apply pair_eta; vm_compute; reflexivity).
  assert (Hfiles : files (os skeleton_world) = files after_skeleton_upload)
    by reflexivity.
  assert (Hid : lit "B1" ∈ BEHAVIOR_IDS catalog) by apply list_elem_of_here.
  split; [exact Hup|]. split; [exact Hfiles|]. split; [exact Hid|].
  exact (uploaded_skeleton_is_found catalog base_dir skeleton_upload
           (empty_env []) uploaded_skeleton after_skeleton_upload (lit "B1")
           skeleton_world Hup Hfiles Hid).
Defined.


Definition clip_upload : UploadFile :=
  {| uf_filename := Some (lit "clip.MP4");
     uf_content := ["000"; "001"; "002"]%byte |}.

Definition example_upload_video :=
  upload_video base_dir example_suffix example_lower example_set_iter.


Definition uploaded_clip : VideoUploadResponse :=
  {| v_video_id := lit "job-0";
     v_stored_path := lit "/srv/uploads/job-0.mp4";
     v_duration := of_int 30; v_fps := of_int 30 |}.

Definition after_clip_upload : env :=
  (example_upload_video clip_upload (empty_env [])).2.

Definition clip_world : world := World ∅ ∅ [] after_clip_upload.

Example clip_fingerprint :
  take 16 (Sha256.hexdigest (uf_content clip_upload)) = lit "ae4b3280e56e2faf".
Proof. vm_compute. reflexivity. Qed.

Lemma uploaded_video_is_found_witness :
  example_upload_video clip_upload (empty_env [])
  = (Ret uploaded_clip, after_clip_upload)
  ∧ files after_clip_upload !! v_stored_path uploaded_clip
    = Some (uf_content clip_upload)
  ∧ (no_faults after_clip_upload
     ∧ ∃ e'', compute_file_hash (v_stored_path uploaded_clip) after_clip_upload
              = (Ret (take 16 (Sha256.hexdigest (uf_content clip_upload))), e''))
  ∧ (files (os clip_world) = files after_clip_upload
     ∧ (lit "B1" ∈ BEHAVIOR_IDS catalog)
     ∧ ∃ job_id input_path w',
         start_inference catalog base_dir
           {| req_input_id := v_video_id uploaded_clip; req_input_type := video;
              req_behavior_id := lit "B1" |}
           clip_world
         = (Ret (job_id,
                 Task input_path (lit "video") (lit "B1") job_id
                      (v_video_id uploaded_clip)), w')
         ∧ input_path ∈ input_candidates base_dir video (v_video_id uploaded_clip)
         ∧ is_Some (files after_clip_upload !! input_path)).
Proof.
  assert (Hup : example_upload_video clip_upload (empty_env [])
                = (Ret uploaded_clip, after_clip_upload))
    by (apply pair_eta; vm_compute; reflexivity).
  assert (Hnf : no_faults after_clip_upload) by (vm_compute; constructor).
  assert (Hfiles : files (os clip_world) = files after_clip_upload) by reflexivity.
  assert (Hid : lit "B1" ∈ BEHAVIOR_IDS catalog) by apply list_elem_of_here.
  destruct (uploaded_video_is_found catalog base_dir example_suffix example_lower
              example_set_iter clip_upload (empty_env []) uploaded_clip
              after_clip_upload Hup)
    as (_ & _ & _ & _ & Hstored & _ & Hhash & Hfound).
  split; [exact Hup|]. split; [exact Hstored|]. split.
  - split; [exact Hnf|]. exact (Hhash Hnf).
  - split; [exact Hfiles|]. split; [exact Hid|].
    exact (Hfound (lit "B1") clip_world Hfiles Hid).
Defined.

Definition catalog_env : env :=
  example_env {[ lit "/srv/assets/label_map.json" := ["{"; "}"]%byte ]} [].

Lemma load_label_map_outcomes_witness :
  (files (empty_env []) !! LABEL_MAP_PATH base_dir = None
   ∧ load_label_map base_dir (empty_env []) = (Ret (JObj []), empty_env [])
   ∧ start_inference [] base_dir request (initial [])
     = (Raise (HTTPException 400 (lit "Invalid behavior_id. Valid options: ")),
        initial []))
  ∧ (files catalog_env !! LABEL_MAP_PATH base_dir = Some ["{"; "}"]%byte
     ∧ no_faults catalog_env
     ∧ (load_label_map base_dir catalog_env).1 = json_load ["{"; "}"]%byte).
Proof.
  assert (Hnone : files (empty_env []) !! LABEL_MAP_PATH base_dir = None)
    by (vm_compute; reflexivity).
  assert (Hfile : files catalog_env !! LABEL_MAP_PATH base_dir
                  = Some ["{"; "}"]%byte) by (vm_compute; reflexivity).
  assert (Hnf : no_faults catalog_env) by apply Forall_nil_2.
  split.
  - destruct (proj1 (load_label_map_outcomes base_dir (empty_env [])) Hnone)
      as [Hload Hreject].
    split; [exact Hnone|]. split; [exact Hload|apply Hreject].
  - split; [exact Hfile|]. split; [exact Hnf|].
    exact (proj2 (load_label_map_outcomes base_dir catalog_env) _ Hfile Hnf).
Defined.

Definition completed_job : job := default created_job (final_job []).

Lemma completed_run_is_persisted_witness :
  jobs (created []) !! lit "job-0" = Some 1%positive
  ∧ heap (created []) !! 1%positive = Some created_job
  ∧ run_inference catalog false base_dir
      skeleton_path (lit "skeleton") (lit "B1") (lit "job-0") (lit "s1") (created [])
    = (Ret (), (run []).2)
  ∧ heap (run []).2 !! 1%positive = Some completed_job
  ∧ job_status completed_job = lit "completed"
  ∧ ∃ prediction model_version input_hash processed_at bs,
      job_results completed_job
      = Some (results_of (lit "job-0") (lit "s1") (lit "skeleton") (lit "B1")
                prediction model_version input_hash processed_at)
      ∧ files (os (run []).2)
        !! path_join (path_join (RUNS_DIR base_dir) (lit "job-0"))
             (lit "results.json")
        = Some bs
      ∧ get_job_results base_dir (lit "job-0") (run []).2
        = JobResultsResponse
            (results_of (lit "job-0") (lit "s1") (lit "skeleton") (lit "B1")
               prediction model_version input_hash processed_at)
            (publish (run []).2).
Proof.
  assert (Hr : jobs (created []) !! lit "job-0" = Some 1%positive)
    by (vm_compute; reflexivity).
  assert (Hj : heap (created []) !! 1%positive = Some created_job)
    by (vm_compute; reflexivity).
  assert (Hrun : run_inference catalog false base_dir
                   skeleton_path (lit "skeleton") (lit "B1") (lit "job-0")
                   (lit "s1") (created [])
                 = (Ret (), (run []).2))
    by (apply (pair_eta (run [])); vm_compute; reflexivity).
  assert (Hjf : heap (run []).2 !! 1%positive = Some completed_job)
    by (vm_compute; reflexivity).
  assert (Hstatus : job_status completed_job = lit "completed")
    by (vm_compute; reflexivity).
  split; [exact Hr|]. split; [exact Hj|]. split; [exact Hrun|].
  split; [exact Hjf|]. split; [exact Hstatus|].
  destruct (completed_run_is_persisted catalog false base_dir
              skeleton_path (lit "skeleton") (lit "B1") (lit "job-0") (lit "s1")
              1%positive created_job (created []) (run []).2 completed_job
              Hr Hj Hrun Hjf Hstatus)
    as (prediction & model_version & input_hash & processed_at & bs
        & Hresults & _ & _ & _ & Hfile & Hget).
  exists prediction, model_version, input_hash, processed_at, bs.
  split; [exact Hresults|]. split; [exact Hfile|exact Hget].
Defined.

(** A completed job whose results are gone from memory. *)
Definition stale_job : job :=
  Job (lit "job-9") (lit "s1") (lit "skeleton") (lit "B1") (lit "completed") 100
      (lit "Análisis completado") None None (lit "2024-01-01T00:00:0Z").

Definition stale_world : world :=
  World {[ lit "job-9" := 1%positive ]} {[ 1%positive := stale_job ]} []
        (empty_env []).

Lemma get_job_results_disk_fallback_witness :
  jobs stale_world !! lit "job-9" = Some 1%positive
  ∧ heap stale_world !! 1%positive = Some stale_job
  ∧ job_status stale_job = lit "completed"
  ∧ (job_results stale_job = None
     ∨ (∃ v, job_results stale_job = Some v ∧ truthy v = false))
  ∧ files (os stale_world)
    !! path_join (path_join (RUNS_DIR base_dir) (lit "job-9")) (lit "results.json")
    = None
  ∧ get_job_results base_dir (lit "job-9") stale_world
    = (Raise (HTTPException 500 (lit "Results not found")), publish stale_world).
Proof.
  assert (Hr : jobs stale_world !! lit "job-9" = Some 1%positive)
    by (vm_compute; reflexivity).
  assert (Hj : heap stale_world !! 1%positive = Some stale_job)
    by (vm_compute; reflexivity).
  assert (Hstatus : job_status stale_job = lit "completed") by reflexivity.
  assert (Hnone : job_results stale_job = None
                  ∨ (∃ v, job_results stale_job = Some v ∧ truthy v = false))
    by (left; reflexivity).
  assert (Hfile : files (os stale_world)
                  !! path_join (path_join (RUNS_DIR base_dir) (lit "job-9"))
                       (lit "results.json") = None)
    by (vm_compute; reflexivity).
  split; [exact Hr|]. split; [exact Hj|]. split; [exact Hstatus|].
  split; [exact Hnone|]. split; [exact Hfile|].
  exact (proj1 (get_job_results_disk_fallback base_dir (lit "job-9") 1%positive
                  stale_job stale_world Hr Hj Hstatus Hnone) Hfile).
Defined.

Lemma run_inference_messages_witness :
  jobs (created []) !! lit "job-0" = Some 1%positive
  ∧ heap (created []) !! 1%positive = Some created_job
  ∧ ∃ w' snapshots trace,
      run_inference catalog false base_dir
        skeleton_path (lit "skeleton") (lit "B1") (lit "job-0") (lit "s1")
        (created [])
      = (Ret (), w')
      ∧ published w' = published (created []) ++ snapshots
      ∧ (λ h, h !! 1%positive) <$> snapshots = Some <$> trace
      ∧ Forall
          (λ j,
             (job_status j = lit "processing"
              ∧ (job_progress j, job_message j)
                ∈ (5, lit "Iniciando procesamiento...") :: stages (lit "B1"))
             ∨ (job_status j = lit "completed" ∧ job_progress j = 100
                ∧ job_message j = lit "Análisis completado")
             ∨ (job_status j = lit "failed"
                ∧ ∃ err, job_error j = Some err
                         ∧ job_message j = lit "Error: " ++ err))
          trace.
Proof.
  assert (Hr : jobs (created []) !! lit "job-0" = Some 1%positive)
    by (vm_compute; reflexivity).
  assert (Hj : heap (created []) !! 1%positive = Some created_job)
    by (vm_compute; reflexivity).
  split; [exact Hr|]. split; [exact Hj|].
  exact (run_inference_messages catalog false base_dir
           skeleton_path (lit "skeleton") (lit "B1") (lit "job-0") (lit "s1")
           1%positive created_job (created []) Hr Hj).
Defined.

End ServiceExample.
